(** * InlineSvgLazyLoader: a shallow embedding of the two loader variants

    The repository ships the widget twice: the single-element variant
    (the class whose constructor takes [element]; variant A below) and
    the selector variant (the class that follows the webpack
    configuration in [webpack.config.js]; variant B).  Both are embedded
    here method by method, over a small model of the browser objects
    they touch: strings of code units, DOM elements with a NamedNodeMap
    of attributes, DOMTokenList, fetch, console and IntersectionObserver. *)

From stdpp Require Import gmap strings list fin_maps pretty.
From Stdlib Require Import Ascii String.
From Stdlib Require QArith_base.

Open Scope string_scope.

(** ** JavaScript strings

    A string is a sequence of code units; the model keeps code units
    below 256, which covers every character class the source's regular
    expressions and [trim] distinguish in that range. *)

Module JsString.

(** White space and line terminators below 256: TAB, LF, VT, FF, CR,
    SPACE and NBSP.  This is the set [String.prototype.trim] strips and
    the set the regular expression class [\s] matches. *)
Definition is_space (c : ascii) : bool :=
  let n := nat_of_ascii c in
  (9 <=? n)%nat && (n <=? 13)%nat || (n =? 32)%nat || (n =? 160)%nat.

(** ASCII whitespace in the sense of the DOM standard (no VT, no NBSP):
    the characters a DOMTokenList token must not contain. *)
Definition is_ascii_whitespace (c : ascii) : bool :=
  let n := nat_of_ascii c in
  (n =? 9)%nat || (n =? 10)%nat || (n =? 12)%nat || (n =? 13)%nat || (n =? 32)%nat.

(** The class [\w]: ASCII letters, digits and underscore. *)
Definition is_word (c : ascii) : bool :=
  let n := nat_of_ascii c in
  (48 <=? n)%nat && (n <=? 57)%nat
  || (65 <=? n)%nat && (n <=? 90)%nat
  || (97 <=? n)%nat && (n <=? 122)%nat
  || (n =? 95)%nat.

(** Case folding of the [i] flag on the two letters the source uses. *)
Definition ascii_lower (c : ascii) : ascii :=
  let n := nat_of_ascii c in
  if (65 <=? n)%nat && (n <=? 90)%nat then ascii_of_nat (n + 32) else c.

Fixpoint trimStart (s : string) : string :=
  match s with
  | String c s' => if is_space c then trimStart s' else s
  | EmptyString => EmptyString
  end.

Fixpoint trimEnd (s : string) : string :=
  match s with
  | String c s' =>
      match trimEnd s' with
      | EmptyString => if is_space c then EmptyString else String c EmptyString
      | t => String c t
      end
  | EmptyString => EmptyString
  end.

(** [s.trim()] *)
Definition trim (s : string) : string := trimEnd (trimStart s).

(** [s.split(sep)] for a one-character separator: the pieces between
    the separators, in order; a string without separator is its own
    single piece, and the empty string splits into one empty piece. *)
Fixpoint split (sep : ascii) (s : string) : list string :=
  match s with
  | EmptyString => [EmptyString]
  | String c s' =>
      if Ascii.eqb c sep then EmptyString :: split sep s'
      else match split sep s' with
           | piece :: rest => String c piece :: rest
           | [] => [String c EmptyString]
           end
  end.

Fixpoint existsb (p : ascii -> bool) (s : string) : bool :=
  match s with
  | String c s' => p c || existsb p s'
  | EmptyString => false
  end.

(** Only white space. *)
Definition blank (s : string) : Prop :=
  existsb (fun c => negb (is_space c)) s = false.

(** Truthiness of a string value: every string but the empty one. *)
Definition nonempty (s : string) : bool :=
  match s with EmptyString => false | String _ _ => true end.

End JsString.

(** A property read that may yield [undefined]: [None] is [undefined]. *)
Definition truthy (v : option string) : bool :=
  match v with
  | Some s => JsString.nonempty s
  | None => false
  end.

(** [String(v)] as the DOM bindings apply it to a DOMString argument. *)
Definition to_DOMString (v : option string) : string :=
  match v with
  | Some s => s
  | None => "undefined"
  end.

(** ** Exceptions *)

Inductive js_error : Type :=
  | TypeError (what : string)
  | DOMException (name : string)
  | Rejection (reason : string).

Inductive completion (A : Type) : Type :=
  | Normal (a : A)
  | Throw (e : js_error).
Arguments Normal {A} a.
Arguments Throw {A} e.

(** ** DOM nodes

    An element carries an identity (the object identity of the JS node),
    its local name as the parser produced it, its attributes (a
    NamedNodeMap, keyed by qualified name) and its child nodes in
    document order.  The scripts only ever hold elements: the root of the
    parsed SVG is what [querySelector] found, and the nodes they remove
    are what [querySelectorAll] found; text nodes occur as children. *)

Inductive node : Type :=
  | Elem (nid : nat) (tag : string) (attrs : gmap string string) (children : list node)
  | Text (data : string).

Module Dom.

Definition attributes (n : node) : gmap string string :=
  match n with Elem _ _ a _ => a | Text _ => ∅ end.

Definition childNodes (n : node) : list node :=
  match n with Elem _ _ _ cs => cs | Text _ => [] end.

Definition has_id (i : nat) (n : node) : bool :=
  match n with Elem j _ _ _ => bool_decide (i = j) | Text _ => false end.

Definition has_tag (t : string) (n : node) : bool :=
  match n with Elem _ t' _ _ => bool_decide (t' = t) | Text _ => false end.

Definition node_id (n : node) : option nat :=
  match n with Elem j _ _ _ => Some j | Text _ => None end.

(** The descendants of a node in document order (the node itself is
    not one of them). *)
Fixpoint descendants (n : node) : list node :=
  match n with
  | Elem _ _ _ cs =>
      (fix go (l : list node) : list node :=
         match l with
         | [] => []
         | c :: l' => c :: descendants c ++ go l'
         end) cs
  | Text _ => []
  end.

(** [n.querySelectorAll(t)] for a type selector [t]: a static list of
    the matching descendants, in document order. *)
Definition querySelectorAll (t : string) (n : node) : list node :=
  filter (fun d => has_tag t d = true) (descendants n).

(** [n.querySelector(t)]: the first match or [null]. *)
Definition querySelector (t : string) (n : node) : option node :=
  head (querySelectorAll t n).

(** [n.getAttribute(name)] *)
Definition getAttribute (name : string) (n : node) : option string :=
  attributes n !! name.

(** [n.getAttributeNames()] *)
Definition getAttributeNames (n : node) : list string :=
  (map_to_list (attributes n)).*1.

(** [n.removeAttribute(name)]: a missing attribute is left alone. *)
Definition removeAttribute (name : string) (n : node) : node :=
  match n with
  | Elem j t a cs => Elem j t (delete name a) cs
  | Text d => Text d
  end.

(** A valid attribute local name is not empty and has no ASCII
    whitespace, NUL, [/], [=] or [>]. *)
Definition valid_attribute_name (name : string) : bool :=
  JsString.nonempty name
  && negb (JsString.existsb
             (fun c => JsString.is_ascii_whitespace c
                       || (nat_of_ascii c =? 0)%nat
                       || (nat_of_ascii c =? 47)%nat
                       || (nat_of_ascii c =? 61)%nat
                       || (nat_of_ascii c =? 62)%nat) name).

(** [n.setAttribute(name, value)] *)
Definition setAttribute (name value : string) (n : node) : completion node :=
  if valid_attribute_name name then
    match n with
    | Elem j t a cs => Normal (Elem j t (<[name := value]> a) cs)
    | Text d => Normal (Text d)
    end
  else Throw (DOMException "InvalidCharacterError").

(** [target.remove()] seen from a tree that may contain [target]:
    the element with identity [i] leaves its parent's child list. *)
Fixpoint detach (i : nat) (n : node) : node :=
  match n with
  | Elem j t a cs =>
      Elem j t a
        ((fix go (l : list node) : list node :=
            match l with
            | [] => []
            | c :: l' => if has_id i c then go l' else detach i c :: go l'
            end) cs)
  | Text d => Text d
  end.


(** Dropping, at every depth below the root, the children that satisfy
    [p] (with all that hangs under them). *)
Fixpoint prune (p : node -> bool) (n : node) : node :=
  match n with
  | Elem j t a cs =>
      Elem j t a
        ((fix go (l : list node) : list node :=
            match l with
            | [] => []
            | c :: l' => if p c then go l' else prune p c :: go l'
            end) cs)
  | Text d => Text d
  end.

Definition prune_list (p : node -> bool) (l : list node) : list node :=
  prune p <$> filter (fun c => p c = false) l.

(** A predicate that looks at the identity or the tag only is not
    disturbed by pruning. *)
Definition prune_stable (p : node -> bool) : Prop :=
  forall q n, p (prune q n) = p n.

End Dom.

(** Induction on a node with the property known of its children. *)
Section NodeInduction.
Variable P : node -> Prop.
Hypothesis HElem : forall i t a cs, Forall P cs -> P (Elem i t a cs).
Hypothesis HText : forall d, P (Text d).

Fixpoint node_rect_children (n : node) : P n :=
  match n with
  | Elem i t a cs =>
      HElem i t a cs
        ((fix all (l : list node) : Forall P l :=
            match l with
            | [] => List.Forall_nil P
            | c :: l' => @List.Forall_cons _ P c l' (node_rect_children c) (all l')
            end) cs)
  | Text d => HText d
  end.
End NodeInduction.

(** ** Regular expressions

    The two regular expressions of the source use character classes,
    greedy [*] and [+] on a class, and concatenation.  The matcher is the
    usual backtracking one: a greedy quantifier takes as many characters
    as it can and gives them back one by one while the rest of the
    pattern fails. *)

Module Regex.

Inductive re : Type :=
  | Class (p : ascii -> bool)
  | Star (p : ascii -> bool)
  | Plus (p : ascii -> bool)
  | Seq (a b : re).

(** [star p k s]: greedy [p*] at the head of [s], then the rest of the
    pattern [k]; the result is what is left of the subject after the
    whole match. *)
Fixpoint star (p : ascii -> bool) (k : string -> option string) (s : string)
  : option string :=
  match s with
  | String c s' =>
      if p c then
        match star p k s' with
        | Some r => Some r
        | None => k s
        end
      else k s
  | EmptyString => k s
  end.

Fixpoint run (r : re) (k : string -> option string) (s : string) : option string :=
  match r with
  | Class p =>
      match s with
      | String c s' => if p c then k s' else None
      | EmptyString => None
      end
  | Star p => star p k s
  | Plus p =>
      match s with
      | String c s' => if p c then star p k s' else None
      | EmptyString => None
      end
  | Seq a b => run a (run b k) s
  end.

(** A match anchored at the head of [s]: the rest of [s] after it. *)
Definition match_here (r : re) (s : string) : option string := run r Some s.

(** [r.test(s)] for a pattern that starts with [^]. *)
Definition test_anchored (r : re) (s : string) : bool :=
  match match_here r s with Some _ => true | None => false end.

Definition take (n : nat) (s : string) : string := String.substring 0 n s.

(** The matches of a pattern with the [g] flag, left to right: after a
    match the search resumes where it ended (one further when the match
    was empty); [skip] counts the characters of the subject that the
    last match still covers. *)
Fixpoint scan (r : re) (s : string) (skip : nat) : list string :=
  match s with
  | String _ s' =>
      match skip with
      | S k => scan r s' k
      | O =>
          match match_here r s with
          | Some rest =>
              let len := (String.length s - String.length rest)%nat in
              take len s :: scan r s' (len - 1)
          | None => scan r s' 0
          end
      end
  | EmptyString =>
      match skip, match_here r EmptyString with
      | O, Some _ => [EmptyString]
      | _, _ => []
      end
  end.

(** [s.match(r)] for [r] with the [g] flag: [null] when nothing
    matches, the array of matched substrings otherwise. *)
Definition match_all (r : re) (s : string) : option (list string) :=
  match scan r s 0 with
  | [] => None
  | l => Some l
  end.

End Regex.

(** [/([\w\d\-\s*]+):\s*[\w\d\-\s*]+/g] of [addAttrs]. *)
Definition attr_char (c : ascii) : bool :=
  JsString.is_word c
  || (48 <=? nat_of_ascii c)%nat && (nat_of_ascii c <=? 57)%nat
  || Ascii.eqb c "-"
  || JsString.is_space c
  || Ascii.eqb c "*".

Definition attrsWithoutExtraSymbols : Regex.re :=
  Regex.Seq (Regex.Plus attr_char)
    (Regex.Seq (Regex.Class (Ascii.eqb ":"))
       (Regex.Seq (Regex.Star JsString.is_space) (Regex.Plus attr_char))).

(** [/^on\w*/i] of [removeScripts]. *)
Definition attrsStartedFromOn : Regex.re :=
  Regex.Seq (Regex.Class (fun c => Ascii.eqb (JsString.ascii_lower c) "o"))
    (Regex.Seq (Regex.Class (fun c => Ascii.eqb (JsString.ascii_lower c) "n"))
       (Regex.Star JsString.is_word)).

(** ** A state and exception monad

    Statements run over a mutable state and either complete normally or
    throw; what was written to the state before a throw stays written. *)

Definition M (St A : Type) : Type := St -> completion A * St.

Definition ret {St A} (a : A) : M St A := fun s => (Normal a, s).

Definition bind {St A B} (m : M St A) (f : A -> M St B) : M St B :=
  fun s =>
    match m s with
    | (Normal a, s') => f a s'
    | (Throw e, s') => (Throw e, s')
    end.

Definition throw {St A} (e : js_error) : M St A := fun s => (Throw e, s).

Definition get {St} : M St St := fun s => (Normal s, s).

Definition modify {St} (f : St -> St) : M St unit := fun s => (Normal tt, f s).

(** [try { m } catch (error) { h error }] *)
Definition try_catch {St A} (m : M St A) (h : js_error -> M St A) : M St A :=
  fun s =>
    match m s with
    | (Normal a, s') => (Normal a, s')
    | (Throw e, s') => h e s'
    end.

(** [try { m } finally { f }]: [f] runs on both exits and its own throw
    replaces the completion of [m]. *)
Definition try_finally {St A} (m : M St A) (f : M St unit) : M St A :=
  fun s =>
    match m s with
    | (r, s') =>
        match f s' with
        | (Normal _, s'') => (r, s'')
        | (Throw e, s'') => (Throw e, s'')
        end
    end.

Notation "'let*' x ':=' m 'in' k" := (bind m (fun x => k))
  (at level 10, x name, m at level 100, k at level 200).

(** [l.forEach(f)] *)
Fixpoint forEach {St A} (l : list A) (f : A -> M St unit) : M St unit :=
  match l with
  | [] => ret tt
  | x :: l' => let* _ := f x in forEach l' f
  end.

(** [when c m] is [if (c) { m }]. *)
Definition when {St} (c : bool) (m : M St unit) : M St unit :=
  if c then m else ret tt.

(** ** The placeholder element and the page around it *)

(** The placeholder: its [dataset] (keys as the scripts read them, in
    camel case), its class list and the [width] and [height] properties
    ([None] when the element has no such property, as on a [div]). *)
Record Placeholder : Type := mkPlaceholder {
  dataset : gmap string string;
  classList : list string;
  width : option N;
  height : option N
}.

(** The child list of the node the placeholder hangs under. *)
Inductive child : Type :=
  | ThePlaceholder
  | Inserted (svg : node)
  | Sibling (k : nat).

Definition is_placeholder (c : child) : bool :=
  match c with ThePlaceholder => true | _ => false end.

(** What the scripts do to the outside world, in order. *)
Inductive event : Type :=
  | ClassListAdd (arg : option string)
  | ClassListRemove (arg : option string)
  | FetchCall (url : option string)
  | ResponseText
  | ParseFromString (text : string)
  | ReplaceChild (svg : node)
  | ConsoleError (e : js_error)
  | Unobserve.

(** The state one placeholder's pipeline runs over.  [inlineSvg] is the
    field [this.inlineSvg] of variant A; variant B holds the parsed root
    in a local constant and leaves the field alone. *)
Record World : Type := mkWorld {
  element : Placeholder;
  page : list child;
  inlineSvg : option node;
  trace : list event
}.

Definition set_classList (f : list string -> list string) (w : World) : World :=
  mkWorld (mkPlaceholder (dataset (element w)) (f (classList (element w)))
             (width (element w)) (height (element w)))
          (page w) (inlineSvg w) (trace w).

Definition set_page (f : list child -> list child) (w : World) : World :=
  mkWorld (element w) (f (page w)) (inlineSvg w) (trace w).

Definition set_inlineSvg (svg : option node) (w : World) : World :=
  mkWorld (element w) (page w) svg (trace w).

Definition log (e : event) : M World unit :=
  modify (fun w => mkWorld (element w) (page w) (inlineSvg w) (trace w ++ [e])).

(** [element.parentNode] is not [null] exactly while the placeholder is
    in the child list. *)
Definition has_parentNode (w : World) : bool := existsb is_placeholder (page w).

(** The errors written with [console.error], oldest first. *)
Definition console (w : World) : list js_error :=
  omap (fun e => match e with ConsoleError err => Some err | _ => None end) (trace w).

(** The URLs [fetch] was called with, oldest first. *)
Definition requests (w : World) : list (option string) :=
  omap (fun e => match e with FetchCall u => Some u | _ => None end) (trace w).

(** ** DOMTokenList *)

Module DOMTokenList.

Definition validate (token : string) : option js_error :=
  if negb (JsString.nonempty token) then Some (DOMException "SyntaxError")
  else if JsString.existsb JsString.is_ascii_whitespace token
       then Some (DOMException "InvalidCharacterError")
       else None.

Definition add (token : string) (l : list string) : list string :=
  if bool_decide (token ∈ l) then l else l ++ [token].

Definition remove (token : string) (l : list string) : list string :=
  filter (fun t => t ≠ token) l.

End DOMTokenList.

(** [element.classList.add(arg)] *)
Definition classList_add (arg : option string) : M World unit :=
  let* _ := log (ClassListAdd arg) in
  match DOMTokenList.validate (to_DOMString arg) with
  | Some e => throw e
  | None => modify (set_classList (DOMTokenList.add (to_DOMString arg)))
  end.

(** [element.classList.remove(arg)] *)
Definition classList_remove (arg : option string) : M World unit :=
  let* _ := log (ClassListRemove arg) in
  match DOMTokenList.validate (to_DOMString arg) with
  | Some e => throw e
  | None => modify (set_classList (DOMTokenList.remove (to_DOMString arg)))
  end.

(** [console.error(error)] *)
Definition console_error (error : js_error) : M World unit :=
  log (ConsoleError error).

(** [element.parentNode.replaceChild(svg, element)]: a [null] first
    argument is a TypeError of the binding; otherwise the new node takes
    the placeholder's place among its siblings. *)
Definition replaceChild (svg : option node) : M World unit :=
  match svg with
  | None => throw (TypeError "replaceChild: parameter 1 is not of type Node")
  | Some n =>
      let* _ := log (ReplaceChild n) in
      modify (set_page (map (fun c => if is_placeholder c then Inserted n else c)))
  end.

(** ** The network and the parser *)

Inductive body_outcome : Type :=
  | BodyText (text : string)
  | BodyFails (reason : string).

Record Response : Type := mkResponse {
  ok : bool;
  status : nat;
  body : body_outcome
}.

Inductive fetch_outcome : Type :=
  | Fulfilled (response : Response)
  | Rejected (reason : string).

(** What the browser answers: the outcome of [fetch(url)] and the
    document [DOMParser.parseFromString(text, 'text/html')] builds (its
    document node, whose descendants are the parsed elements). *)
Record Browser : Type := mkBrowser {
  fetch : option string -> fetch_outcome;
  parseFromString : string -> node
}.

(** Resuming at an [await] on a settled promise: its value, or its
    rejection reason thrown. *)
Definition settled {A} (outcome : A + string) : M World A :=
  match outcome with
  | inl a => ret a
  | inr reason => throw (Rejection reason)
  end.

Definition fetch_promise (outcome : fetch_outcome) : Response + string :=
  match outcome with
  | Fulfilled response => inl response
  | Rejected reason => inr reason
  end.

(** [await fetch(src)]: the call is issued, then the function resumes
    with what the promise settled to. *)
Definition await_fetch (browser : Browser) (src : option string) : M World Response :=
  let* _ := log (FetchCall src) in
  settled (fetch_promise (fetch browser src)).

(** [await response.text()] *)
Definition await_text (response : Response) : M World string :=
  let* _ := log ResponseText in
  match body response with
  | BodyText text => ret text
  | BodyFails reason => throw (Rejection reason)
  end.

(** [parseSvgStringToHtml(svgString)], the same in both variants. *)
Definition parseSvgStringToHtml (browser : Browser) (svgString : string)
  : M World (option node) :=
  let* _ := log (ParseFromString svgString) in
  let html := parseFromString browser svgString in
  ret (Dom.querySelector "svg" html).

(** ** The sanitizer steps

    [removeAttrs], [removeScripts], [addAttrs] and [setSvgSize] have the
    same text in both variants, up to how they name their two objects:
    [this.inlineSvg] and [this.element] in variant A, the arguments [svg]
    and [imageEl] in variant B.  They are written once, over the state of
    the SVG root they mutate ([None] when the reference is [null]). *)

Module Sanitizer.

Definition St : Type := option node.

(** Reading a member of [svg]: a TypeError when [svg] is [null]. *)
Definition member (name : string) : M St node :=
  fun svg =>
    match svg with
    | Some n => (Normal n, svg)
    | None => (Throw (TypeError ("null has no member " ++ name)), svg)
    end.

(** [svg.removeAttribute(name)] *)
Definition svg_removeAttribute (name : string) : M St unit :=
  let* n := member "removeAttribute" in
  modify (fun _ => Some (Dom.removeAttribute name n)).

(** [svg.setAttribute(name, value)] *)
Definition svg_setAttribute (name value : string) : M St unit :=
  let* n := member "setAttribute" in
  match Dom.setAttribute name value n with
  | Normal n' => modify (fun _ => Some n')
  | Throw e => throw e
  end.

(** [script.remove()] for a node found under [svg]. *)
Definition script_remove (script : node) : M St unit :=
  modify (fun svg =>
            match svg, Dom.node_id script with
            | Some root, Some i => Some (Dom.detach i root)
            | _, _ => svg
            end).

Definition removeAttrs (imageEl : Placeholder) : M St unit :=
  match dataset imageEl !! "removeAttrs" with
  | Some removeAttrs =>
      when (JsString.nonempty removeAttrs)
        (let attrsArray := JsString.split "," removeAttrs in
         forEach attrsArray (fun attr =>
           let attrName := JsString.trim attr in
           svg_removeAttribute attrName))
  | None => ret tt
  end.

(** [svgAttrs] is an array, hence truthy: the inner [if] always runs. *)
Definition removeScripts (imageEl : Placeholder) : M St unit :=
  when (truthy (dataset imageEl !! "removeScripts"))
    (let* svg := member "querySelectorAll" in
     let scriptsArray := Dom.querySelectorAll "script" svg in
     let svgAttrs := Dom.getAttributeNames svg in
     let* _ := forEach scriptsArray script_remove in
     forEach svgAttrs (fun attr =>
       when (Regex.test_anchored attrsStartedFromOn attr)
         (svg_removeAttribute attr))).

(** The callee [svg.setAttribute] is read before the arguments are
    evaluated; [attrValue] is [undefined] when the piece has no second
    part, and [undefined.trim] is a TypeError. *)
Definition addAttrs (imageEl : Placeholder) : M St unit :=
  match dataset imageEl !! "addAttrs" with
  | Some addAttrs =>
      when (JsString.nonempty addAttrs)
        (match Regex.match_all attrsWithoutExtraSymbols addAttrs with
         | None => throw (TypeError "null has no member forEach")
         | Some attrsArray =>
             forEach attrsArray (fun attr =>
               let parts := JsString.split ":" attr in
               let* _ := member "setAttribute" in
               match parts with
               | attrName :: attrValue :: _ =>
                   svg_setAttribute (JsString.trim attrName) (JsString.trim attrValue)
               | _ => throw (TypeError "undefined has no member trim")
               end)
         end)
  | None => ret tt
  end.

(** [String(imageEl.width)]: a number prints in decimal, a missing
    property as [undefined]. *)
Definition size_to_string (v : option N) : string :=
  match v with
  | Some n => pretty n
  | None => "undefined"
  end.

(** Variant B: two [setAttribute] calls in a row. *)
Definition setSvgSize (imageEl : Placeholder) : M St unit :=
  when (truthy (dataset imageEl !! "setSvgSize"))
    (let* _ := svg_setAttribute "width" (size_to_string (width imageEl)) in
     svg_setAttribute "height" (size_to_string (height imageEl))).

(** [this.element[size]] *)
Definition element_size (size : string) (imageEl : Placeholder) : option N :=
  if bool_decide (size = "width") then width imageEl
  else if bool_decide (size = "height") then height imageEl
  else None.

(** Variant A: the same two calls written as a [forEach] over the two
    property names. *)
Definition setSvgSize_forEach (imageEl : Placeholder) : M St unit :=
  when (truthy (dataset imageEl !! "setSvgSize"))
    (forEach ["width"; "height"] (fun size =>
       svg_setAttribute size (size_to_string (element_size size imageEl)))).

End Sanitizer.

(** ** What the loops of the steps compute

    The [forEach] loops of the sanitizer steps, read as folds over the
    root they mutate. *)

Module SanitizerModel.
Import Dom.

(** [scripts.forEach(script => script.remove())] on a root. *)
Definition remove_each (scripts : list node) (root : node) : node :=
  fold_left (fun r s =>
               match node_id s with
               | Some i => detach i r
               | None => r
               end) scripts root.

(** The node [c] is one of [scripts], by identity. *)
Definition listed (scripts : list node) (c : node) : bool :=
  existsb (fun s => match node_id s with
                    | Some i => has_id i c
                    | None => false
                    end) scripts.

(** [names.forEach(attr => { if (p(attr)) svg.removeAttribute(attr) })] *)
Definition remove_named (p : string -> bool) (names : list string) (root : node) : node :=
  fold_left (fun r a => if p a then removeAttribute a r else r) names root.

(** [attr.match(/^on\w*/i)] as a condition. *)
Definition starts_with_on : string -> bool :=
  Regex.test_anchored attrsStartedFromOn.

(** The root [removeScripts] leaves when it runs. *)
Definition without_scripts (root : node) : node :=
  remove_named starts_with_on (getAttributeNames root)
    (prune (listed (querySelectorAll "script" root)) root).

(** The names [removeAttrs] takes away, given the attribute value. *)
Definition names_to_remove (removeAttrs : string) : list string :=
  JsString.trim <$> JsString.split "," removeAttrs.

(** At least one of the four steps is switched on. *)
Definition touches_svg (imageEl : Placeholder) : bool :=
  truthy (dataset imageEl !! "removeAttrs")
  || truthy (dataset imageEl !! "removeScripts")
  || truthy (dataset imageEl !! "addAttrs")
  || truthy (dataset imageEl !! "setSvgSize").

End SanitizerModel.

(** ** Options *)

(** The object literal the constructors fall back to. *)
Definition default_options : gmap string string :=
  {[ "loadingClass" := "js-svg-loading" ]}.

(** [options || { loadingClass: 'js-svg-loading' }], for [options] an
    object or [null] (the declared parameter type and its default). *)
Definition options_or_default (options : option (gmap string string))
  : gmap string string :=
  match options with
  | Some o => o
  | None => default_options
  end.

Record ObserverOptions : Type := mkObserverOptions {
  threshold : list QArith_base.Q
}.

(** ** Variant A: one loader per element *)

Module VariantA.

Record Loader : Type := mkLoader {
  options : gmap string string;
  observerOptions : ObserverOptions
}.

(** A method that works on [this.inlineSvg]. *)
Definition on_inlineSvg {A} (m : M Sanitizer.St A) : M World A :=
  fun w =>
    match m (inlineSvg w) with
    | (r, svg) => (r, set_inlineSvg svg w)
    end.

Definition removeAttrs : M World unit :=
  let* w := get in on_inlineSvg (Sanitizer.removeAttrs (element w)).

Definition removeScripts : M World unit :=
  let* w := get in on_inlineSvg (Sanitizer.removeScripts (element w)).

Definition addAttrs : M World unit :=
  let* w := get in on_inlineSvg (Sanitizer.addAttrs (element w)).

Definition setSvgSize : M World unit :=
  let* w := get in on_inlineSvg (Sanitizer.setSvgSize_forEach (element w)).

Definition replaceImgWithSvg : M World unit :=
  let* _ := removeAttrs in
  let* _ := removeScripts in
  let* _ := addAttrs in
  let* _ := setSvgSize in
  let* w := get in
  when (has_parentNode w) (replaceChild (inlineSvg w)).

Definition getSvg (browser : Browser) (this : Loader) : M World unit :=
  let* w := get in
  let src := dataset (element w) !! "src" in
  let loadingClass := options this !! "loadingClass" in
  let* _ := classList_add loadingClass in
  try_finally
    (try_catch
       (let* response := await_fetch browser src in
        when (ok response)
          (let* resultSvg := await_text response in
           let* svg := parseSvgStringToHtml browser resultSvg in
           let* _ := modify (set_inlineSvg svg) in
           replaceImgWithSvg))
       (fun error => console_error error))
    (classList_remove loadingClass).

(** The part of [getSvg] that runs inside the caller, up to the
    [await] on the request it has just issued. *)
Definition getSvg_until_await (this : Loader) : M World (option string) :=
  let* w := get in
  let src := dataset (element w) !! "src" in
  let loadingClass := options this !! "loadingClass" in
  let* _ := classList_add loadingClass in
  let* _ := log (FetchCall src) in
  ret src.

(** The part that runs once the request has settled. *)
Definition getSvg_after_await (browser : Browser) (this : Loader)
    (outcome : fetch_outcome) : M World unit :=
  let loadingClass := options this !! "loadingClass" in
  try_finally
    (try_catch
       (let* response := settled (fetch_promise outcome) in
        when (ok response)
          (let* resultSvg := await_text response in
           let* svg := parseSvgStringToHtml browser resultSvg in
           let* _ := modify (set_inlineSvg svg) in
           replaceImgWithSvg))
       (fun error => console_error error))
    (classList_remove loadingClass).

(** [new InlineSvgLazyLoader(element, options)]: [element] is a class
    name or an element ([None] stands for an omitted argument).  What a
    construction leaves behind are the observers it has set up: the list
    of the observed elements, each with the loader whose callback
    watches it. *)
Section Constructor.
Context {E : Type}.
Variable document_querySelectorAll : string -> list E.

(** The fields the constructor assigns; [this.element] and
    [this.inlineSvg = null] are the placeholder and the field of the
    state the loader runs over. *)
Definition fields (options : option (gmap string string)) : Loader :=
  mkLoader (options_or_default options) (mkObserverOptions [QArith_base.Qmake 1 10]).

Definition addInlineSvgObserver (this : Loader) (el : E) : list (E * Loader) :=
  [(el, this)].

Definition init (this : Loader) (el : E) : list (E * Loader) :=
  addInlineSvgObserver this el.

(** The constructor on an element: [checkBeforeInit] takes its [else]
    branch. *)
Definition new_for_element (el : E) (options : option (gmap string string))
  : list (E * Loader) :=
  init (fields options) el.

(** [elements] is an array, hence truthy: the inner [if] always runs. *)
Definition checkBeforeInit (this : Loader) (element : string + E) : list (E * Loader) :=
  match element with
  | inl name =>
      let elements := document_querySelectorAll ("." ++ name) in
      flat_map (fun el => new_for_element el (Some (options this))) elements
  | inr el => init this el
  end.

Definition new (element : option (string + E)) (options : option (gmap string string))
  : list (E * Loader) :=
  let this_element := default (inl "js-lazy-inline-svg") element in
  let this := fields options in
  checkBeforeInit this this_element.
End Constructor.

End VariantA.

(** ** Variant B: one loader for every element of a class *)

Module VariantB.

Record Loader : Type := mkLoader {
  selector : string;
  options : gmap string string;
  observerOptions : ObserverOptions
}.

(** The four steps on the local constant [inlineSvg], then the swap. *)
Definition replaceImgWithSvg (browser : Browser) (svgString : string) : M World unit :=
  let* inlineSvg := parseSvgStringToHtml browser svgString in
  let* w := get in
  let imageEl := element w in
  match (let* _ := Sanitizer.removeAttrs imageEl in
         let* _ := Sanitizer.removeScripts imageEl in
         let* _ := Sanitizer.addAttrs imageEl in
         Sanitizer.setSvgSize imageEl) inlineSvg with
  | (Throw e, _) => throw e
  | (Normal _, svg) => when (has_parentNode w) (replaceChild svg)
  end.

Definition getSvg (browser : Browser) (this : Loader) : M World unit :=
  let* w := get in
  let src := dataset (element w) !! "src" in
  let loadingClass := options this !! "loadingClass" in
  let* _ := classList_add loadingClass in
  try_catch
    (let* response := await_fetch browser src in
     when (ok response)
       (let* resultSvg := await_text response in
        replaceImgWithSvg browser resultSvg))
    (fun error => console_error error).

Definition getSvg_until_await (this : Loader) : M World (option string) :=
  let* w := get in
  let src := dataset (element w) !! "src" in
  let loadingClass := options this !! "loadingClass" in
  let* _ := classList_add loadingClass in
  let* _ := log (FetchCall src) in
  ret src.

Definition getSvg_after_await (browser : Browser) (this : Loader)
    (outcome : fetch_outcome) : M World unit :=
  try_catch
    (let* response := settled (fetch_promise outcome) in
     when (ok response)
       (let* resultSvg := await_text response in
        replaceImgWithSvg browser resultSvg))
    (fun error => console_error error).

(** [new InlineSvgLazyLoader(selector, options)]: the loader and the
    elements it has set up an observer for. *)
Section Constructor.
Context {E : Type}.
Variable document_querySelectorAll : string -> list E.

Definition addInlineSvgObserver (element : E) : list E := [element].

Definition init (this : Loader) : list E :=
  let elements := document_querySelectorAll ("." ++ selector this) in
  if (List.length elements =? 0)%nat then []
  else flat_map addInlineSvgObserver elements.

Definition new (selector : option string) (options : option (gmap string string))
  : Loader * list E :=
  let this :=
    mkLoader (default "js-lazy-inline-svg" selector)
             (options_or_default options)
             (mkObserverOptions [QArith_base.Qmake 1 10]) in
  (this, init this).
End Constructor.

End VariantB.

(** ** The intersection observer of one element

    [addInlineSvgObserver] builds one observer per element, and the
    observer watches that element alone, so every entry it is handed is
    about that element (the [target] variant B reads from the entry).
    The browser queues an entry at each change of the intersection and
    calls the callback with the whole queue, as long as the element is
    observed; a call of the asynchronous [getSvg] runs up to its [await]
    and leaves a request in flight; the rest runs when the browser
    settles the request. *)

Record IntersectionObserverEntry : Type := mkEntry { isIntersecting : bool }.

Record Registration : Type := mkRegistration {
  world : World;
  observing : bool;
  in_flight : list (option string)
}.

Inductive browser_event : Type :=
  | Intersections (entries : list IntersectionObserverEntry)
  | FetchSettles.

Section Observer.

Variable getSvg_until_await : M World (option string).
Variable getSvg_after_await : fetch_outcome -> M World unit.
Variable browser : Browser.

(** [this.getSvg()] as the callback sees it: the promise is dropped, so
    an exception before the [await] only rejects a promise nobody
    reads. *)
Definition call_getSvg : M Registration unit :=
  fun r =>
    match getSvg_until_await (world r) with
    | (Normal src, w) => (Normal tt, mkRegistration w (observing r) (in_flight r ++ [src]))
    | (Throw _, w) => (Normal tt, mkRegistration w (observing r) (in_flight r))
    end.

(** [svgObserver.unobserve(element)] *)
Definition unobserve : M Registration unit :=
  fun r =>
    match log Unobserve (world r) with
    | (_, w) => (Normal tt, mkRegistration w false (in_flight r))
    end.

(** The body of the callback's loop, for one entry. *)
Definition on_entry (entry : IntersectionObserverEntry) : M Registration unit :=
  when (isIntersecting entry)
    (let* _ := call_getSvg in
     unobserve).

(** The callback given to [new IntersectionObserver]. *)
Definition callback (entries : list IntersectionObserverEntry) : M Registration unit :=
  forEach entries on_entry.

(** One turn of the event loop: a callback of the observer, or the
    oldest request in flight settles. *)
Definition deliver (ev : browser_event) (r : Registration) : Registration :=
  match ev with
  | Intersections entries =>
      if observing r then snd (callback entries r) else r
  | FetchSettles =>
      match in_flight r with
      | src :: rest =>
          match getSvg_after_await (fetch browser src) (world r) with
          | (_, w) => mkRegistration w (observing r) rest
          end
      | [] => r
      end
  end.

Definition run_events (evs : list browser_event) (r : Registration) : Registration :=
  fold_left (fun r ev => deliver ev r) evs r.

(** [svgObserver.observe(element)] on a fresh pipeline. *)
Definition observe (w : World) : Registration := mkRegistration w true [].

End Observer.

Module ObserverA.
Definition deliver (browser : Browser) (this : VariantA.Loader) :=
  deliver (VariantA.getSvg_until_await this)
          (VariantA.getSvg_after_await browser this) browser.
Definition run_events (browser : Browser) (this : VariantA.Loader) :=
  run_events (VariantA.getSvg_until_await this)
             (VariantA.getSvg_after_await browser this) browser.
End ObserverA.

Module ObserverB.
Definition deliver (browser : Browser) (this : VariantB.Loader) :=
  deliver (VariantB.getSvg_until_await this)
          (VariantB.getSvg_after_await browser this) browser.
Definition run_events (browser : Browser) (this : VariantB.Loader) :=
  run_events (VariantB.getSvg_until_await this)
             (VariantB.getSvg_after_await browser this) browser.
End ObserverB.

(** ** Vocabulary of the statements *)

(** A computation relates every state it starts in to the state it
    leaves, whatever its completion. *)
Definition respects {St A} (R : St -> St -> Prop) (m : M St A) : Prop :=
  forall s r s', m s = (r, s') -> R s s'.

(** The trace only grows, by events of the given kind. *)
Definition trace_grows (allowed : event -> bool) (w w' : World) : Prop :=
  exists rest, trace w' = (trace w ++ rest)%list /\ forallb allowed rest = true.

(** The placeholder object itself is untouched and the trace grows. *)
Definition only_logs (allowed : event -> bool) (w w' : World) : Prop :=
  element w' = element w /\ trace_grows allowed w w'.

(** The events of the parse-and-swap stage. *)
Definition swap_event (e : event) : bool :=
  match e with
  | ParseFromString _ | ReplaceChild _ => true
  | _ => false
  end.

(** The events [getSvg] can cause once its request has settled: no
    further request among them. *)
Definition after_fetch_event (e : event) : bool :=
  match e with
  | ResponseText | ParseFromString _ | ReplaceChild _
  | ConsoleError _ | ClassListRemove _ => true
  | _ => false
  end.

(** The same without the class list. *)
Definition quiet_event (e : event) : bool :=
  match e with
  | ResponseText | ParseFromString _ | ReplaceChild _ | ConsoleError _ => true
  | _ => false
  end.

(** The token [classList.add(loadingClass)] works with. *)
Definition loading_token (options : gmap string string) : string :=
  to_DOMString (options !! "loadingClass").

(** The state in which [getSvg] is suspended at its [await]: the class
    is on the placeholder and the request is out. *)
Definition loading (loadingClass src : option string) (w : World) : World :=
  mkWorld
    (mkPlaceholder (dataset (element w))
       (DOMTokenList.add (to_DOMString loadingClass) (classList (element w)))
       (width (element w)) (height (element w)))
    (page w) (inlineSvg w)
    (trace w ++ [ClassListAdd loadingClass; FetchCall src]).

(** The state after [classList.remove(loadingClass)] in a [finally]. *)
Definition cleaned (loadingClass : option string) (w : World) : World :=
  mkWorld
    (mkPlaceholder (dataset (element w))
       (DOMTokenList.remove (to_DOMString loadingClass) (classList (element w)))
       (width (element w)) (height (element w)))
    (page w) (inlineSvg w)
    (trace w ++ [ClassListRemove loadingClass]).

(** Number of entries of a batch that report an intersection. *)
Definition intersecting (entries : list IntersectionObserverEntry) : nat :=
  List.length (filter (fun entry => isIntersecting entry = true) entries).

(** Number of requests issued so far. *)
Definition fetch_count (r : Registration) : nat := List.length (requests (world r)).

(** Every callback of the run reports the element at most once as
    intersecting. *)
Definition single_reports (evs : list browser_event) : Prop :=
  Forall (fun ev => match ev with
                    | Intersections entries => (intersecting entries <= 1)%nat
                    | FetchSettles => True
                    end) evs.

(** The reading of C7 under test: without an SVG root the sanitizer and
    swap stage completes normally and the page is as before. *)
Definition no_root_passes_quietly : Prop :=
  forall (browser : Browser) (svgString : string) (w : World),
    Dom.querySelector "svg" (parseFromString browser svgString) = None ->
    exists w',
      VariantB.replaceImgWithSvg browser svgString w = (Normal tt, w')
      /\ page w' = page w.

(** The reading of C2 under test: whatever the browser delivers, the
    observed element is fetched at most once. *)
Definition fetched_at_most_once : Prop :=
  forall (browser : Browser) (this : VariantA.Loader) (w : World)
         (evs : list browser_event),
    (fetch_count (ObserverA.run_events browser this evs (observe w))
     <= fetch_count (observe w) + 1)%nat.

(** ** Sample data *)

Module Samples.

(** [<svg foo=1 bar=2 onclick=..><g onclick=..><script/></g><script/></svg>] *)
Definition svg_root : node :=
  Elem 1 "svg" {[ "foo" := "1"; "bar" := "2"; "onclick" := "alert(1)" ]}
    [ Elem 2 "g" {[ "onclick" := "evil()" ]} [ Elem 3 "script" ∅ [Text "x()"] ];
      Elem 4 "script" ∅ [] ].

Definition svg_document : node :=
  Elem 0 "#document" ∅ [ Elem 10 "html" ∅ [ Elem 11 "body" ∅ [ svg_root ] ] ].

Definition empty_document : node :=
  Elem 0 "#document" ∅ [ Elem 10 "html" ∅ [ Elem 11 "body" ∅ [ Text "oops" ] ] ].

Definition img (ds : gmap string string) : Placeholder :=
  mkPlaceholder ds ["js-lazy-inline-svg"] (Some 64%N) (Some 32%N).

Definition start (ds : gmap string string) : World :=
  mkWorld (img ds) [Sibling 0; ThePlaceholder; Sibling 1] None [].

Definition detached (ds : gmap string string) : World :=
  mkWorld (img ds) [] None [].

(** A placeholder with every step switched on. *)
Definition start_all : World :=
  start {[ "src" := "a.svg"; "removeAttrs" := "foo"; "removeScripts" := "1";
           "addAttrs" := "data-x: 1, data-y: 2"; "setSvgSize" := "true" ]}.

(** The element scrolls by: out of view, in view, the request settles,
    and a late report that the released observer no longer hears. *)
Definition scroll_by : list browser_event :=
  [ Intersections [mkEntry false]; Intersections [mkEntry true];
    FetchSettles; Intersections [mkEntry true] ].

(** A placeholder without [data-src]. *)
Definition start_no_src : World := start ∅.

Definition browser_ok : Browser :=
  mkBrowser (fun _ => Fulfilled (mkResponse true 200 (BodyText "<svg/>")))
            (fun _ => svg_document).

Definition response_404 : Response := mkResponse false 404 (BodyText "Not Found").

Definition browser_404 : Browser :=
  mkBrowser (fun _ => Fulfilled response_404) (fun _ => svg_document).

Definition browser_offline : Browser :=
  mkBrowser (fun _ => Rejected "Failed to fetch") (fun _ => svg_document).

Definition response_no_svg : Response := mkResponse true 200 (BodyText "oops").

Definition browser_no_svg : Browser :=
  mkBrowser (fun _ => Fulfilled response_no_svg) (fun _ => empty_document).

(** A placeholder in the page with a source and no other data. *)
Definition start_plain : World := start {[ "src" := "a.svg" ]}.

Definition loaderA : VariantA.Loader :=
  VariantA.mkLoader default_options (mkObserverOptions [QArith_base.Qmake 1 10]).

(** The loader [new InlineSvgLazyLoader(el, {})] makes. *)
Definition loader_without_class : VariantA.Loader :=
  VariantA.mkLoader ∅ (mkObserverOptions [QArith_base.Qmake 1 10]).

Definition loaderB : VariantB.Loader :=
  VariantB.mkLoader "js-lazy-inline-svg" default_options
    (mkObserverOptions [QArith_base.Qmake 1 10]).

End Samples.

(** ** Further vocabulary *)

(** The child list after [replaceChild(svg, placeholder)]. *)
Definition put_in_place (svg : node) (children : list child) : list child :=
  map (fun c => if is_placeholder c then Inserted svg else c) children.

(** No callback of the run reports the element as intersecting. *)
Definition never_intersects (evs : list browser_event) : Prop :=
  Forall (fun ev => match ev with
                    | Intersections entries => intersecting entries = 0%nat
                    | FetchSettles => True
                    end) evs.

(** Some callback of the run reports the element as intersecting. *)
Definition ever_intersects (evs : list browser_event) : bool :=
  existsb (fun ev => match ev with
                     | Intersections entries => negb (intersecting entries =? 0)%nat
                     | FetchSettles => false
                     end) evs.

Module MoreSamples.

(** Options whose loading class is two words. *)
Definition two_word_options : gmap string string :=
  {[ "loadingClass" := "is loading" ]}.

Definition loaderA_two_words : VariantA.Loader :=
  VariantA.mkLoader two_word_options (mkObserverOptions [QArith_base.Qmake 1 10]).

Definition loaderB_two_words : VariantB.Loader :=
  VariantB.mkLoader "js-lazy-inline-svg" two_word_options
    (mkObserverOptions [QArith_base.Qmake 1 10]).

Definition response_broken_body : Response :=
  mkResponse true 200 (BodyFails "body stream interrupted").

Definition browser_broken_body : Browser :=
  mkBrowser (fun _ => Fulfilled response_broken_body) (fun _ => Samples.svg_document).

(** The element stays out of view. *)
Definition out_of_view : list browser_event :=
  [ Intersections [mkEntry false]; FetchSettles; Intersections [mkEntry false; mkEntry false] ].

End MoreSamples.

(** The four steps in the order [replaceImgWithSvg] calls them. *)
Definition sanitize (imageEl : Placeholder) : M Sanitizer.St unit :=
  let* _ := Sanitizer.removeAttrs imageEl in
  let* _ := Sanitizer.removeScripts imageEl in
  let* _ := Sanitizer.addAttrs imageEl in
  Sanitizer.setSvgSize imageEl.

(** The page is as it was, or one node stands where the placeholder,
    then attached, stood. *)
Definition page_moves (w w' : World) : Prop :=
  page w' = page w
  \/ exists svg, has_parentNode w = true /\ page w' = put_in_place svg (page w).

(** Every child but the placeholder is where it was, and a detached
    placeholder leaves the whole list alone. *)
Definition siblings_kept (w w' : World) : Prop :=
  List.length (page w') = List.length (page w)
  /\ (forall (i : nat) c,
         page w !! i = Some c -> is_placeholder c = false -> page w' !! i = Some c)
  /\ (has_parentNode w = false -> page w' = page w).

Module MoreSamples2.

(** The sample root after the four steps on it, for the sample image
    with every step switched on. *)
Definition sanitized_root : node :=
  Elem 1 "svg"
    {[ "bar" := "2"; "data-x" := "1"; "data-y" := "2";
       "width" := "64"; "height" := "32" ]}
    [ Elem 2 "g" {[ "onclick" := "evil()" ]} [] ].

Definition response_ok : Response := mkResponse true 200 (BodyText "<svg/>").

End MoreSamples2.

(** A name that starts with the letters [o] and [n], in either case. *)
Definition on_prefix (name : string) : bool :=
  match name with
  | String c1 (String c2 _) =>
      (Ascii.eqb c1 "o" || Ascii.eqb c1 "O") && (Ascii.eqb c2 "n" || Ascii.eqb c2 "N")
  | _ => false
  end.

(** Every character of the string satisfies [p]. *)
Fixpoint every (p : ascii -> bool) (s : string) : bool :=
  match s with
  | String c s' => p c && every p s'
  | EmptyString => true
  end.

(** The name and the value [addAttrs] hands to [setAttribute] for one
    matched piece. *)
Definition pair_of (piece : string) : string * string :=
  match JsString.split ":" piece with
  | attrName :: attrValue :: _ => (JsString.trim attrName, JsString.trim attrValue)
  | _ => (EmptyString, EmptyString)
  end.

(** [setAttribute] for each piece in turn, on the attribute map. *)
Definition set_pairs (pieces : list string) (a : gmap string string) : gmap string string :=
  fold_left (fun m piece => <[(pair_of piece).1 := (pair_of piece).2]> m) pieces a.

(** The root before and after is the same element: same identity and
    tag name ([null] stays [null]). *)
Definition same_element (svg svg' : Sanitizer.St) : Prop :=
  match svg, svg' with
  | Some (Elem j t _ _), Some (Elem j' t' _ _) => j = j' /\ t = t'
  | Some (Text d), Some (Text d') => d = d'
  | None, None => True
  | _, _ => False
  end.

(** * Properties *)

(** ** Strings *)

Module JsStringFacts.
Import JsString.

Lemma split_nonempty sep s : split sep s <> [].
Proof.
  destruct s as [|c s]; [done|]. simpl.
  destruct (Ascii.eqb c sep); [done|]. by destruct (split sep s).
Qed.

(** Gluing the pieces of [split] with the separator gives the string
    back, and no piece contains the separator. *)
Lemma split_join sep s : String.concat (String sep EmptyString) (split sep s) = s.
Proof.
  induction s as [|c s IH]; [done|].
  pose proof (split_nonempty sep s) as Hne.
  cbn [split]. destruct (Ascii.eqb_spec c sep) as [->|Hc].
  - destruct (split sep s) as [|p l]; [done|].
    change (String.concat (String sep EmptyString) (EmptyString :: p :: l))
      with (String sep (String.concat (String sep EmptyString) (p :: l))).
    by rewrite IH.
  - destruct (split sep s) as [|p l]; [done|].
    rewrite <- IH. by destruct l.
Qed.

Lemma split_pieces sep s piece :
  piece ∈ split sep s -> existsb (Ascii.eqb sep) piece = false.
Proof.
  revert piece. induction s as [|c s IH]; intros piece Hin.
  - apply list_elem_of_singleton in Hin as ->. done.
  - simpl in Hin. destruct (Ascii.eqb_spec c sep) as [->|Hne].
    + apply elem_of_cons in Hin as [->|Hin]; [done|by apply IH].
    + destruct (split sep s) as [|p l] eqn:Hs.
      * apply list_elem_of_singleton in Hin as ->. simpl.
        destruct (Ascii.eqb_spec sep c); [congruence|done].
      * apply elem_of_cons in Hin as [->|Hin].
        -- simpl. destruct (Ascii.eqb_spec sep c); [congruence|].
           apply IH. left.
        -- apply IH. by right.
Qed.

Lemma append_cons c (l t : string) : (String c l ++ t = String c (l ++ t))%string.
Proof. reflexivity. Qed.

Lemma trimStart_spec s :
  exists l, s = (l ++ trimStart s)%string /\ blank l
            /\ forall c t, trimStart s = String c t -> is_space c = false.
Proof.
  induction s as [|c s (l & Hs & Hl & Hfirst)].
  - exists EmptyString. done.
  - simpl. destruct (is_space c) eqn:Hc.
    + exists (String c l). split; [by rewrite append_cons, <- Hs|].
      unfold blank in *.
      split; [simpl; by rewrite Hc|exact Hfirst].
    + exists EmptyString. split; [done|]. split; [done|].
      by intros c' t [= <- _].
Qed.

Lemma trimEnd_spec s :
  exists r, s = (trimEnd s ++ r)%string /\ blank r.
Proof.
  induction s as [|c s (r & Hs & Hr)].
  - exists EmptyString. done.
  - cbn [trimEnd]. destruct (trimEnd s) as [|c' t] eqn:Ht.
    + destruct (is_space c) eqn:Hc.
      * exists (String c s). split; [done|]. unfold blank in *. simpl.
        rewrite Hc. simpl. by rewrite Hs.
      * exists r. split; [|done]. rewrite append_cons. by rewrite <- Hs.
    + exists r. split; [|done]. rewrite append_cons. by rewrite <- Hs.
Qed.

Lemma trimEnd_first s c t :
  trimEnd s = String c t -> exists t', s = String c t'.
Proof.
  destruct s as [|c0 s]; [done|]. simpl.
  destruct (trimEnd s); [destruct (is_space c0)|]; intros [= <- _]; eauto.
Qed.

Lemma trimEnd_last s t c :
  trimEnd s = (t ++ String c EmptyString)%string -> is_space c = false.
Proof.
  revert t. induction s as [|c0 s IH]; intros t; cbn [trimEnd].
  - by destruct t.
  - destruct (trimEnd s) as [|c1 t1] eqn:Ht.
    + destruct (is_space c0) eqn:Hc0; [by destruct t|].
      destruct t as [|c2 t]; [by intros [= <-]|].
      rewrite append_cons. intros [= _ Habs]. by destruct t.
    + destruct t as [|c2 t]; [done|].
      rewrite append_cons. intros [= _ Heq]. by apply (IH t).
Qed.

(** [trim] cuts white space, and only white space, from both ends. *)
Lemma trim_spec s :
  exists l r,
    s = (l ++ trim s ++ r)%string /\ blank l /\ blank r
    /\ (forall c t, trim s = String c t -> is_space c = false)
    /\ (forall t c, trim s = (t ++ String c EmptyString)%string -> is_space c = false).
Proof.
  destruct (trimStart_spec s) as (l & Hs & Hl & Hfirst).
  destruct (trimEnd_spec (trimStart s)) as (r & Hm & Hr).
  exists l, r. unfold trim. split; [by rewrite <- Hm|].
  split; [done|]. split; [done|]. split.
  - intros c t Ht. apply trimEnd_first in Ht as [t' Ht']. by eapply Hfirst.
  - intros t c. apply trimEnd_last.
Qed.

End JsStringFacts.


(** ** Trees *)



Module DomFacts.
Import Dom.

Lemma prune_Elem p j t a cs :
  prune p (Elem j t a cs) = Elem j t a (prune_list p cs).
Proof.
  unfold prune_list. simpl. f_equal.
  induction cs as [|c cs IH]; [done|].
  rewrite filter_cons. destruct (p c) eqn:Hp.
  - rewrite decide_False by done. exact IH.
  - rewrite decide_True by done. simpl. by rewrite IH.
Qed.

Lemma detach_prune i n : detach i n = prune (has_id i) n.
Proof.
  induction n as [j t a cs IH|d] using node_rect_children; [|done].
  simpl. f_equal.
  induction IH as [|c cs Hc _ IHcs]; [done|].
  destruct (has_id i c); [exact IHcs|]. by rewrite Hc, IHcs.
Qed.

Lemma descendants_Elem j t a cs :
  descendants (Elem j t a cs) = cs ≫= (fun c => c :: descendants c).
Proof.
  simpl. induction cs as [|c cs IH]; [done|].
  rewrite bind_cons. simpl. by rewrite IH.
Qed.

Lemma has_id_prune p i n : has_id i (prune p n) = has_id i n.
Proof. by destruct n. Qed.

Lemma has_tag_prune p t n : has_tag t (prune p n) = has_tag t n.
Proof. by destruct n. Qed.

Lemma node_id_prune p n : node_id (prune p n) = node_id n.
Proof. by destruct n. Qed.

Lemma attributes_prune p n : attributes (prune p n) = attributes n.
Proof. by destruct n. Qed.

(** What is left below a pruned root are pruned copies of old
    descendants that did not satisfy [p]. *)
Lemma descendants_prune p n d' :
  d' ∈ descendants (prune p n) ->
  exists d, d ∈ descendants n /\ p d = false /\ d' = prune p d.
Proof.
  revert d'.
  induction n as [j t a cs IH|d] using node_rect_children; intros d' Hd'.
  - rewrite prune_Elem, descendants_Elem in Hd'.
    apply list_elem_of_bind in Hd' as (c' & Hin & Hc').
    unfold prune_list in Hc'.
    apply list_elem_of_fmap in Hc' as (c & -> & Hc).
    apply list_elem_of_filter in Hc as [Hpc Hc].
    rewrite Forall_forall in IH.
    apply elem_of_cons in Hin as [->|Hin].
    + exists c. split; [|done].
      rewrite descendants_Elem. apply list_elem_of_bind.
      exists c. split; [left|done].
    + destruct (IH c Hc d' Hin) as (d0 & Hd0 & Hp0 & ->).
      exists d0. split; [|done].
      rewrite descendants_Elem. apply list_elem_of_bind.
      exists c. split; [by right|done].
  - simpl in Hd'. by apply elem_of_nil in Hd'.
Qed.

Lemma prune_prune p q n :
  prune_stable q ->
  prune q (prune p n) = prune (fun c => p c || q c) n.
Proof.
  intros Hq.
  induction n as [j t a cs IH|d] using node_rect_children; [|done].
  rewrite !prune_Elem. f_equal. unfold prune_list.
  induction IH as [|c cs Hc _ IHcs]; [done|].
  destruct (p c) eqn:Hp.
  - rewrite (filter_cons_False (fun c => p c = false)) by (simpl; congruence).
    rewrite (filter_cons_False (fun c => p c || q c = false))
      by (simpl; rewrite Hp; done).
    exact IHcs.
  - rewrite (filter_cons_True (fun c => p c = false)) by done.
    rewrite fmap_cons.
    destruct (q c) eqn:Hqc.
    + rewrite (filter_cons_False (fun c => q c = false))
        by (simpl; rewrite Hq; congruence).
      rewrite (filter_cons_False (fun c => p c || q c = false))
        by (simpl; rewrite Hp, Hqc; done).
      exact IHcs.
    + rewrite (filter_cons_True (fun c => q c = false))
        by (simpl; rewrite Hq; done).
      rewrite (filter_cons_True (fun c => p c || q c = false))
        by (simpl; rewrite Hp, Hqc; done).
      rewrite !fmap_cons. by rewrite Hc, IHcs.
Qed.

(** Two predicates that agree on the descendants prune alike. *)
Lemma prune_ext p q n :
  (forall d, d ∈ descendants n -> p d = q d) ->
  prune p n = prune q n.
Proof.
  induction n as [j t a cs IH|d] using node_rect_children; intros Hpq; [|done].
  rewrite !prune_Elem. f_equal. unfold prune_list.
  assert (Hsub : forall c d, c ∈ cs -> d = c \/ d ∈ descendants c ->
                             d ∈ descendants (Elem j t a cs)).
  { intros c d Hc Hd. rewrite descendants_Elem. apply list_elem_of_bind.
    exists c. split; [|done]. destruct Hd as [->|Hd]; [left|by right]. }
  clear -IH Hpq Hsub. revert Hpq Hsub. generalize (Elem j t a cs) as root.
  intros root Hpq Hsub.
  induction IH as [|c cs Hc _ IHcs]; [done|].
  assert (Hpc : p c = q c).
  { apply Hpq, (Hsub c); [left|by left]. }
  assert (Hrest : prune p <$> filter (fun c => p c = false) cs
                  = prune q <$> filter (fun c => q c = false) cs).
  { apply IHcs. intros c0 d Hc0. apply Hsub. by right. }
  destruct (p c) eqn:Hp.
  - rewrite (filter_cons_False (fun c => p c = false)) by (simpl; congruence).
    rewrite (filter_cons_False (fun c => q c = false)) by (simpl; congruence).
    exact Hrest.
  - rewrite (filter_cons_True (fun c => p c = false)) by done.
    rewrite (filter_cons_True (fun c => q c = false)) by done.
    rewrite !fmap_cons. f_equal; [|exact Hrest].
    apply Hc. intros d Hd. apply Hpq, (Hsub c); [left|by right].
Qed.

End DomFacts.

(** ** The sanitizer steps as functions on the root *)

Module SanitizerFacts.
Import Dom DomFacts Sanitizer SanitizerModel.

Lemma prune_none n : prune (fun _ => false) n = n.
Proof.
  induction n as [j t a cs IH|d] using node_rect_children; [|done].
  rewrite prune_Elem. f_equal. unfold prune_list.
  induction IH as [|c cs Hc _ IHcs]; [done|].
  rewrite filter_cons_True by done. rewrite fmap_cons. by rewrite Hc, IHcs.
Qed.

Lemma has_id_stable i : prune_stable (has_id i).
Proof. intros q n. apply has_id_prune. Qed.

Lemma listed_stable scripts : prune_stable (listed scripts).
Proof.
  intros q n. unfold listed. induction scripts as [|s l IH]; [done|].
  simpl. rewrite IH. destruct (node_id s); [|done]. by rewrite has_id_prune.
Qed.

Lemma forEach_script_remove scripts root :
  forEach scripts script_remove (Some root)
  = (Normal tt, Some (remove_each scripts root)).
Proof.
  revert root. induction scripts as [|s l IH]; intros root; [done|].
  simpl. unfold bind, script_remove at 1, modify. simpl.
  destruct (node_id s); apply IH.
Qed.

Lemma remove_each_prune scripts root :
  remove_each scripts root = prune (listed scripts) root.
Proof.
  revert root. induction scripts as [|s l IH]; intros root.
  - simpl. symmetry. apply prune_none.
  - unfold remove_each. simpl. fold (remove_each l).
    destruct (node_id s) as [i|] eqn:Hs.
    + rewrite IH, detach_prune, prune_prune by apply listed_stable.
      apply prune_ext. intros d _. simpl. by rewrite Hs.
    + rewrite IH. apply prune_ext. intros d _. simpl. by rewrite Hs.
Qed.

Lemma forEach_removeAttribute p names root :
  forEach names (fun attr => when (p attr) (svg_removeAttribute attr)) (Some root)
  = (Normal tt, Some (remove_named p names root)).
Proof.
  revert root. induction names as [|a l IH]; intros root; [done|].
  simpl. unfold bind at 1. destruct (p a) eqn:Hp; simpl.
  - apply IH.
  - apply IH.
Qed.

Lemma remove_named_cons p x l root :
  remove_named p (x :: l) root
  = remove_named p l (if p x then removeAttribute x root else root).
Proof. reflexivity. Qed.

Lemma remove_named_shape p names j t a cs :
  exists a', remove_named p names (Elem j t a cs) = Elem j t a' cs
    /\ forall k, a' !! k =
                 if p k && bool_decide (k ∈ names) then None else a !! k.
Proof.
  revert a. induction names as [|x l IH]; intros a.
  - exists a. split; [done|]. intros k.
    rewrite bool_decide_eq_false_2 by apply not_elem_of_nil.
    by rewrite andb_false_r.
  - rewrite remove_named_cons. destruct (p x) eqn:Hpx; simpl.
    + destruct (IH (delete x a)) as (a' & -> & Ha'). exists a'. split; [done|].
      intros k. rewrite Ha'. destruct (decide (k = x)) as [->|Hne].
      * rewrite Hpx, lookup_delete_eq. simpl.
        rewrite (bool_decide_eq_true_2 (x ∈ x :: l)) by left.
        by destruct (bool_decide (x ∈ l)).
      * rewrite lookup_delete_ne by done.
        destruct (p k); [|done]. simpl.
        rewrite (bool_decide_ext (k ∈ x :: l) (k ∈ l)); [done|].
        rewrite elem_of_cons. intuition congruence.
    + destruct (IH a) as (a' & -> & Ha'). exists a'. split; [done|].
      intros k. rewrite Ha'. destruct (decide (k = x)) as [->|Hne].
      * by rewrite Hpx.
      * destruct (p k); [|done]. simpl.
        rewrite (bool_decide_ext (k ∈ x :: l) (k ∈ l)); [done|].
        rewrite elem_of_cons. intuition congruence.
Qed.

Lemma elem_of_getAttributeNames k n :
  k ∈ getAttributeNames n <-> is_Some (attributes n !! k).
Proof.
  unfold getAttributeNames. rewrite list_elem_of_fmap. split.
  - intros ([k' v] & -> & Hin). apply elem_of_map_to_list in Hin. by exists v.
  - intros [v Hv]. exists (k, v). split; [done|]. by apply elem_of_map_to_list.
Qed.

(** Elements of one list with the same identity are the same element
    when identities are not repeated. *)
Lemma same_id_same_node (l : list node) x y i :
  NoDup (omap node_id l) ->
  x ∈ l -> y ∈ l -> node_id x = Some i -> node_id y = Some i -> x = y.
Proof.
  induction l as [|a l IH]; intros Hnd Hx Hy Hix Hiy.
  - by apply elem_of_nil in Hx.
  - simpl in Hnd.
    assert (Hfresh : forall z, z ∈ l -> node_id z = Some i -> node_id a = Some i -> False).
    { intros z Hz Hiz Hia. rewrite Hia in Hnd. apply NoDup_cons in Hnd as [Hni _].
      apply Hni. apply list_elem_of_omap. by exists z. }
    assert (Hnd' : NoDup (omap node_id l)).
    { destruct (node_id a); [by apply NoDup_cons in Hnd as [_ ?]|done]. }
    apply elem_of_cons in Hx as [->|Hx]; apply elem_of_cons in Hy as [->|Hy].
    + done.
    + by destruct (Hfresh y Hy Hiy Hix).
    + by destruct (Hfresh x Hx Hix Hiy).
    + by apply IH.
Qed.

Lemma filter_none {A} (P : A -> Prop) `{forall x, Decision (P x)} (l : list A) :
  (forall x, x ∈ l -> ~ P x) -> filter P l = [].
Proof.
  induction l as [|x l IH]; intros Hl; [done|].
  rewrite filter_cons_False by (apply Hl; left).
  apply IH. intros y Hy. apply Hl. by right.
Qed.

Lemma descendants_children n :
  descendants n = childNodes n ≫= (fun c => c :: descendants c).
Proof. destruct n; [apply descendants_Elem|done]. Qed.

Lemma childNodes_prune p n : childNodes (prune p n) = prune_list p (childNodes n).
Proof. destruct n; [by rewrite prune_Elem|done]. Qed.

(** Every listed script is listed by its own identity. *)
Lemma script_is_listed t root d :
  d ∈ descendants root -> has_tag t d = true ->
  listed (querySelectorAll t root) d = true.
Proof.
  intros Hd Ht. unfold listed. apply existsb_exists. exists d. split.
  - apply list_elem_of_In. unfold querySelectorAll.
    apply list_elem_of_filter. by split.
  - destruct d as [i ? ? ?|]; [|done]. simpl. by apply bool_decide_eq_true_2.
Qed.

(** With identities not repeated, only the scripts are listed. *)
Lemma listed_is_script t root d :
  NoDup (omap node_id (descendants root)) ->
  d ∈ descendants root ->
  listed (querySelectorAll t root) d = has_tag t d.
Proof.
  intros Hnd Hd. destruct (has_tag t d) eqn:Ht.
  - by apply script_is_listed.
  - apply not_true_is_false. intros Hl. unfold listed in Hl.
    apply existsb_exists in Hl as (s & Hs & Hsd).
    apply list_elem_of_In in Hs. unfold querySelectorAll in Hs.
    apply list_elem_of_filter in Hs as [Hts Hs].
    destruct (node_id s) as [i|] eqn:Hi; [|done].
    assert (Hdi : node_id d = Some i).
    { destruct d as [i' ? ? ?|]; [|done]. simpl in *.
      apply bool_decide_eq_true_1 in Hsd. by subst. }
    assert (s = d) by (eapply same_id_same_node; eauto). subst.
    congruence.
Qed.

Lemma remove_named_facts p names n :
  childNodes (remove_named p names n) = childNodes n
  /\ node_id (remove_named p names n) = node_id n
  /\ forall k, attributes (remove_named p names n) !! k =
               if p k && bool_decide (k ∈ names) then None else attributes n !! k.
Proof.
  destruct n as [j t a cs|d].
  - destruct (remove_named_shape p names j t a cs) as (a' & -> & Ha'). done.
  - assert (Hid : remove_named p names (Text d) = Text d).
    { induction names as [|x l IH]; [done|].
      rewrite remove_named_cons. by destruct (p x). }
    rewrite Hid. split; [done|]. split; [done|]. intros k. simpl.
    by destruct (p k && bool_decide (k ∈ names)).
Qed.

Lemma removeScripts_enabled imageEl root :
  truthy (dataset imageEl !! "removeScripts") = true ->
  removeScripts imageEl (Some root) = (Normal tt, Some (without_scripts root)).
Proof.
  intros Hflag. unfold removeScripts. rewrite Hflag. simpl.
  unfold bind at 1. simpl. unfold bind at 1.
  rewrite forEach_script_remove, forEach_removeAttribute.
  by rewrite remove_each_prune.
Qed.

Lemma removeScripts_disabled imageEl svg :
  truthy (dataset imageEl !! "removeScripts") = false ->
  removeScripts imageEl svg = (Normal tt, svg).
Proof. intros Hflag. unfold removeScripts. by rewrite Hflag. Qed.

Lemma without_scripts_left root d' :
  d' ∈ descendants (without_scripts root) ->
  exists d, d ∈ descendants root
            /\ has_tag "script" d = false
            /\ d' = prune (listed (querySelectorAll "script" root)) d.
Proof.
  intros Hd'. unfold without_scripts in Hd'.
  destruct (remove_named_facts starts_with_on (getAttributeNames root)
              (prune (listed (querySelectorAll "script" root)) root))
    as (Hch & _ & _).
  rewrite descendants_children, Hch, <- descendants_children in Hd'.
  apply descendants_prune in Hd' as (d & Hd & Hp & ->).
  exists d. split; [done|]. split; [|done].
  destruct (has_tag "script" d) eqn:Ht; [|done].
  by rewrite (script_is_listed "script" root d Hd Ht) in Hp.
Qed.

Lemma without_scripts_no_script root :
  querySelectorAll "script" (without_scripts root) = [].
Proof.
  apply filter_none. intros d' Hd' Hs.
  apply without_scripts_left in Hd' as (d & _ & Hns & ->).
  rewrite has_tag_prune in Hs. congruence.
Qed.

Lemma without_scripts_attributes root k :
  attributes (without_scripts root) !! k =
  if starts_with_on k then None else attributes root !! k.
Proof.
  unfold without_scripts.
  destruct (remove_named_facts starts_with_on (getAttributeNames root)
              (prune (listed (querySelectorAll "script" root)) root))
    as (_ & _ & Hat).
  rewrite Hat, attributes_prune. destruct (starts_with_on k); [|done]. simpl.
  case_bool_decide as Hin; [done|].
  destruct (attributes root !! k) eqn:Hl; [|done].
  exfalso. apply Hin. apply elem_of_getAttributeNames. by eexists.
Qed.

End SanitizerFacts.

(** ** Script removal *)

(** C4.  With the script-removal flag set, [removeScripts] leaves a root
    with no [script] descendant and no attribute whose name starts with
    [on] (in any letter case); the root's other attributes are kept.
    Below the root the step only takes [script] elements away: the
    children are the old ones without the scripts, and every element
    that is left carries exactly the attributes it had, [on*] attributes
    included.  Node identities are those of distinct JS objects. *)
Theorem removeScripts_strips_scripts_and_root_handlers
    (imageEl : Placeholder) (root : node) :
  truthy (dataset imageEl !! "removeScripts") = true ->
  NoDup (omap Dom.node_id (Dom.descendants root)) ->
  exists root',
    Sanitizer.removeScripts imageEl (Some root) = (Normal tt, Some root')
    /\ Dom.querySelectorAll "script" root' = []
    /\ (forall name, Regex.test_anchored attrsStartedFromOn name = true ->
                     Dom.getAttribute name root' = None)
    /\ (forall name, Regex.test_anchored attrsStartedFromOn name = false ->
                     Dom.getAttribute name root' = Dom.getAttribute name root)
    /\ Dom.childNodes root' = Dom.childNodes (Dom.prune (Dom.has_tag "script") root)
    /\ (forall d', d' ∈ Dom.descendants root' ->
          exists d, d ∈ Dom.descendants root
                    /\ Dom.has_tag "script" d = false
                    /\ Dom.node_id d' = Dom.node_id d
                    /\ Dom.attributes d' = Dom.attributes d).
Proof.
  intros Hflag Hnd.
  exists (SanitizerModel.without_scripts root).
  split; [by apply SanitizerFacts.removeScripts_enabled|].
  split; [apply SanitizerFacts.without_scripts_no_script|].
  split; [|split; [|split]].
  - intros name Hon. unfold Dom.getAttribute.
    rewrite SanitizerFacts.without_scripts_attributes.
    unfold SanitizerModel.starts_with_on. by rewrite Hon.
  - intros name Hon. unfold Dom.getAttribute.
    rewrite SanitizerFacts.without_scripts_attributes.
    unfold SanitizerModel.starts_with_on. by rewrite Hon.
  - unfold SanitizerModel.without_scripts.
    destruct (SanitizerFacts.remove_named_facts SanitizerModel.starts_with_on
                (Dom.getAttributeNames root)
                (Dom.prune (SanitizerModel.listed (Dom.querySelectorAll "script" root)) root))
      as (-> & _ & _).
    f_equal. apply DomFacts.prune_ext. intros d Hd.
    by apply SanitizerFacts.listed_is_script.
  - intros d' Hd'.
    apply SanitizerFacts.without_scripts_left in Hd' as (d & Hd & Hns & ->).
    exists d. split; [done|]. split; [done|].
    by rewrite DomFacts.node_id_prune, DomFacts.attributes_prune.
Qed.

Lemma removeScripts_strips_scripts_and_root_handlers_witness :
  truthy (dataset (Samples.img {[ "removeScripts" := "false" ]}) !! "removeScripts") = true
  /\ NoDup (omap Dom.node_id (Dom.descendants Samples.svg_root))
  /\ exists root',
       Sanitizer.removeScripts (Samples.img {[ "removeScripts" := "false" ]})
         (Some Samples.svg_root) = (Normal tt, Some root')
       /\ Dom.querySelectorAll "script" root' = []
       /\ Dom.getAttribute "onclick" root' = None
       /\ Dom.getAttribute "foo" root' = Some "1"
       /\ Dom.childNodes root' = [Elem 2 "g" {[ "onclick" := "evil()" ]} []].
Proof.
  assert (Hflag : truthy (dataset (Samples.img {[ "removeScripts" := "false" ]})
                            !! "removeScripts") = true) by (vm_compute; reflexivity).
  assert (Hnd : NoDup (omap Dom.node_id (Dom.descendants Samples.svg_root))).
  { apply (bool_decide_unpack _). vm_compute. exact I. }
  split; [exact Hflag|]. split; [exact Hnd|].
  destruct (removeScripts_strips_scripts_and_root_handlers
              (Samples.img {[ "removeScripts" := "false" ]}) Samples.svg_root Hflag Hnd)
    as (root' & Hrun & Hnone & Hon & Hkeep & Hch & _).
  exists root'. split; [exact Hrun|]. split; [exact Hnone|].
  split; [apply Hon; vm_compute; reflexivity|].
  split; [rewrite Hkeep by (vm_compute; reflexivity); vm_compute; reflexivity|].
  rewrite Hch. vm_compute. reflexivity.
Defined.

(** ** Attribute removal *)

Module RemoveAttrsFacts.
Import Dom Sanitizer SanitizerModel.

Lemma forEach_trimmed names root :
  forEach names (fun attr =>
    let attrName := JsString.trim attr in svg_removeAttribute attrName) (Some root)
  = (Normal tt,
     Some (remove_named (fun _ => true) (JsString.trim <$> names) root)).
Proof.
  revert root. induction names as [|a l IH]; intros root; [done|].
  simpl. unfold bind at 1. simpl. apply IH.
Qed.

Lemma removeAttrs_enabled imageEl removeAttrs root :
  dataset imageEl !! "removeAttrs" = Some removeAttrs ->
  JsString.nonempty removeAttrs = true ->
  Sanitizer.removeAttrs imageEl (Some root)
  = (Normal tt,
     Some (remove_named (fun _ => true) (names_to_remove removeAttrs) root)).
Proof.
  intros Hds Hne. unfold Sanitizer.removeAttrs. rewrite Hds, Hne. simpl.
  apply forEach_trimmed.
Qed.

Lemma removeAttribute_missing name n :
  getAttribute name n = None -> removeAttribute name n = n.
Proof.
  destruct n as [j t a cs|d]; [|done]. unfold getAttribute. simpl.
  intros Hnone. by rewrite delete_id.
Qed.

Lemma remove_named_missing p names n :
  (forall name, name ∈ names -> getAttribute name n = None) ->
  remove_named p names n = n.
Proof.
  induction names as [|x l IH]; intros Hmiss; [done|].
  rewrite SanitizerFacts.remove_named_cons.
  rewrite removeAttribute_missing by (apply Hmiss; left).
  destruct (p x); apply IH; intros name Hin; apply Hmiss; by right.
Qed.

End RemoveAttrsFacts.

(** C6.  When the placeholder declares a non-empty [data-remove-attrs]
    list, [removeAttrs] takes every listed name, trimmed, off the parsed
    root and keeps every attribute that is not listed; a listed name the
    root does not carry changes nothing, and the children of the root are
    left alone. *)
Theorem removeAttrs_removes_the_listed_names
    (imageEl : Placeholder) (removeAttrs : string) (root : node) :
  dataset imageEl !! "removeAttrs" = Some removeAttrs ->
  JsString.nonempty removeAttrs = true ->
  exists root',
    Sanitizer.removeAttrs imageEl (Some root) = (Normal tt, Some root')
    /\ (forall name, name ∈ SanitizerModel.names_to_remove removeAttrs ->
                     Dom.getAttribute name root' = None)
    /\ (forall name, name ∉ SanitizerModel.names_to_remove removeAttrs ->
                     Dom.getAttribute name root' = Dom.getAttribute name root)
    /\ Dom.childNodes root' = Dom.childNodes root
    /\ ((forall name, name ∈ SanitizerModel.names_to_remove removeAttrs ->
                      Dom.getAttribute name root = None) ->
        root' = root).
Proof.
  intros Hds Hne.
  set (names := SanitizerModel.names_to_remove removeAttrs).
  exists (SanitizerModel.remove_named (fun _ => true) names root).
  split; [by apply RemoveAttrsFacts.removeAttrs_enabled|].
  destruct (SanitizerFacts.remove_named_facts (fun _ => true) names root)
    as (Hch & _ & Hat).
  split; [|split; [|split; [exact Hch|]]].
  - intros name Hin. unfold Dom.getAttribute. rewrite Hat. simpl.
    by rewrite bool_decide_eq_true_2.
  - intros name Hin. unfold Dom.getAttribute. rewrite Hat. simpl.
    by rewrite bool_decide_eq_false_2.
  - apply RemoveAttrsFacts.remove_named_missing.
Qed.

Lemma removeAttrs_removes_the_listed_names_witness :
  dataset (Samples.img {[ "removeAttrs" := "foo" ]}) !! "removeAttrs" = Some "foo"
  /\ JsString.nonempty "foo" = true
  /\ exists root',
       Sanitizer.removeAttrs (Samples.img {[ "removeAttrs" := "foo" ]})
         (Some Samples.svg_root) = (Normal tt, Some root')
       /\ Dom.getAttribute "foo" Samples.svg_root = Some "1"
       /\ Dom.getAttribute "foo" root' = None
       /\ Dom.getAttribute "bar" root' = Some "2".
Proof.
  assert (Hds : dataset (Samples.img {[ "removeAttrs" := "foo" ]}) !! "removeAttrs"
                = Some "foo") by (vm_compute; reflexivity).
  assert (Hne : JsString.nonempty "foo" = true) by reflexivity.
  split; [exact Hds|]. split; [exact Hne|].
  destruct (removeAttrs_removes_the_listed_names
              (Samples.img {[ "removeAttrs" := "foo" ]}) "foo" Samples.svg_root Hds Hne)
    as (root' & Hrun & Hgone & Hkept & _ & _).
  exists root'. split; [exact Hrun|]. split; [vm_compute; reflexivity|].
  split.
  - apply Hgone. apply (bool_decide_unpack _). vm_compute. exact I.
  - rewrite Hkept; [vm_compute; reflexivity|].
    apply (bool_decide_unpack _). vm_compute. exact I.
Defined.

(** The listed names are trimmed before they are used, and a name the
    root does not carry is skipped without an error. *)
Example removeAttrs_trims_and_skips :
  Sanitizer.removeAttrs (Samples.img {[ "removeAttrs" := " foo , nothere" ]})
    (Some (Elem 1 "svg" {[ "foo" := "1"; "bar" := "2" ]} []))
  = (Normal tt, Some (Elem 1 "svg" {[ "bar" := "2" ]} [])).
Proof. vm_compute. reflexivity. Qed.

(** ** Combinators and what they preserve *)

Section Respects.
Context {St : Type} (R : St -> St -> Prop) `{!PreOrder R}.

Lemma respects_ret {A} (a : A) : respects R (ret a : M St A).
Proof. intros s r s' [= <- <-]. reflexivity. Qed.

Lemma respects_throw {A} e : respects R (throw e : M St A).
Proof. intros s r s' [= <- <-]. reflexivity. Qed.

Lemma respects_get : respects R (get : M St St).
Proof. intros s r s' [= <- <-]. reflexivity. Qed.

Lemma respects_bind {A B} (m : M St A) (f : A -> M St B) :
  respects R m -> (forall a, respects R (f a)) -> respects R (bind m f).
Proof.
  intros Hm Hf s r s' Hrun. unfold bind in Hrun.
  destruct (m s) as [[a|e] s1] eqn:Hms.
  - etransitivity; [eapply Hm, Hms|eapply Hf, Hrun].
  - injection Hrun as <- <-. eapply Hm, Hms.
Qed.

Lemma respects_try_catch {A} (m : M St A) h :
  respects R m -> (forall e, respects R (h e)) -> respects R (try_catch m h).
Proof.
  intros Hm Hh s r s' Hrun. unfold try_catch in Hrun.
  destruct (m s) as [[a|e] s1] eqn:Hms.
  - injection Hrun as <- <-. eapply Hm, Hms.
  - etransitivity; [eapply Hm, Hms|eapply Hh, Hrun].
Qed.

Lemma respects_try_finally {A} (m : M St A) f :
  respects R m -> respects R f -> respects R (try_finally m f).
Proof.
  intros Hm Hf s r s' Hrun. unfold try_finally in Hrun.
  destruct (m s) as [r1 s1] eqn:Hms.
  destruct (f s1) as [[u|e] s2] eqn:Hfs; injection Hrun as <- <-;
    (etransitivity; [eapply Hm, Hms|eapply Hf, Hfs]).
Qed.

Lemma respects_when c (m : M St unit) :
  respects R m -> respects R (when c m).
Proof. intros Hm. destruct c; [exact Hm|apply respects_ret]. Qed.

Lemma respects_forEach {A} (l : list A) (f : A -> M St unit) :
  (forall x, respects R (f x)) -> respects R (forEach l f).
Proof.
  intros Hf. induction l as [|x l IH]; [apply respects_ret|].
  simpl. apply respects_bind; [apply Hf|]. intros _. exact IH.
Qed.
End Respects.

Module WorldFacts.

Global Instance trace_grows_preorder allowed : PreOrder (trace_grows allowed).
Proof.
  split.
  - intros w. exists []. by rewrite app_nil_r.
  - intros w1 w2 w3 (r1 & H1 & Ha1) (r2 & H2 & Ha2). exists (r1 ++ r2)%list.
    split; [by rewrite H2, H1, app_assoc|].
    rewrite forallb_app. by rewrite Ha1, Ha2.
Qed.

Global Instance only_logs_preorder allowed : PreOrder (only_logs allowed).
Proof.
  split.
  - intros w. split; [done|reflexivity].
  - intros w1 w2 w3 [He1 Ht1] [He2 Ht2]. split; [congruence|].
    etransitivity; eassumption.
Qed.

Lemma trace_grows_weaken (p q : event -> bool) w w' :
  (forall e, p e = true -> q e = true) ->
  trace_grows p w w' -> trace_grows q w w'.
Proof.
  intros Hpq (rest & Ht & Hall). exists rest. split; [done|].
  apply forallb_forall. intros e He.
  apply Hpq. by eapply forallb_forall in Hall.
Qed.

Lemma respects_weaken {A} (R R' : World -> World -> Prop) (m : M World A) :
  (forall w w', R w w' -> R' w w') -> respects R m -> respects R' m.
Proof. intros HR Hm s r s' Hrun. eapply HR, Hm, Hrun. Qed.

Lemma only_logs_silent allowed w w' :
  element w' = element w -> trace w' = trace w -> only_logs allowed w w'.
Proof.
  intros He Ht. split; [done|]. exists []. by rewrite app_nil_r.
Qed.

Lemma log_only_logs allowed e :
  allowed e = true -> respects (only_logs allowed) (log e).
Proof.
  intros He w r w' [= <- <-]. split; [done|]. exists [e]. split; [done|].
  simpl. by rewrite He.
Qed.

Lemma settled_respects {A} R `{!PreOrder R} (outcome : A + string) :
  respects R (settled outcome).
Proof. destruct outcome; [apply respects_ret|apply respects_throw]; apply _. Qed.

Lemma await_text_only_logs allowed response :
  allowed ResponseText = true ->
  respects (only_logs allowed) (await_text response).
Proof.
  intros Ha. unfold await_text.
  apply respects_bind; [apply _|by apply log_only_logs|].
  intros _. destruct (body response); [apply respects_ret|apply respects_throw];
    apply _.
Qed.

Lemma console_error_only_logs allowed e :
  allowed (ConsoleError e) = true ->
  respects (only_logs allowed) (console_error e).
Proof. apply log_only_logs. Qed.

Lemma parse_only_logs allowed browser text :
  allowed (ParseFromString text) = true ->
  respects (only_logs allowed) (parseSvgStringToHtml browser text).
Proof.
  intros Ha. unfold parseSvgStringToHtml.
  apply respects_bind; [apply _|by apply log_only_logs|].
  intros _. apply respects_ret. apply _.
Qed.

Lemma replaceChild_only_logs allowed svg :
  (forall n, allowed (ReplaceChild n) = true) ->
  respects (only_logs allowed) (replaceChild svg).
Proof.
  intros Ha. destruct svg as [n|]; [|apply respects_throw; apply _].
  unfold replaceChild. apply respects_bind; [apply _|by apply log_only_logs|].
  intros _ w r w' [= <- <-]. by apply only_logs_silent.
Qed.

Lemma on_inlineSvg_only_logs {A} allowed (m : M Sanitizer.St A) :
  respects (only_logs allowed) (VariantA.on_inlineSvg m).
Proof.
  intros w r w' Hrun. unfold VariantA.on_inlineSvg in Hrun.
  destruct (m (inlineSvg w)) as [r1 svg]. injection Hrun as <- <-.
  by apply only_logs_silent.
Qed.

Lemma set_inlineSvg_only_logs allowed svg :
  respects (only_logs allowed) (modify (set_inlineSvg svg)).
Proof. intros w r w' [= <- <-]. by apply only_logs_silent. Qed.

End WorldFacts.

(** ** The pipeline of one placeholder *)

Module PipelineFacts.
Import WorldFacts.

Ltac step_bind := apply respects_bind; [apply _| |intros ?].

Lemma bind_run {St A B} (m : M St A) (f : A -> M St B) s :
  bind m f s
  = match m s with
    | (Normal a, s') => f a s'
    | (Throw e, s') => (Throw e, s')
    end.
Proof. reflexivity. Qed.

Lemma parse_run browser svgString w :
  parseSvgStringToHtml browser svgString w
  = (Normal (Dom.querySelector "svg" (parseFromString browser svgString)),
     mkWorld (element w) (page w) (inlineSvg w)
       (trace w ++ [ParseFromString svgString])).
Proof. reflexivity. Qed.

Lemma replaceImgWithSvgA_only_logs :
  respects (only_logs swap_event) VariantA.replaceImgWithSvg.
Proof.
  unfold VariantA.replaceImgWithSvg, VariantA.removeAttrs, VariantA.removeScripts,
    VariantA.addAttrs, VariantA.setSvgSize.
  repeat (step_bind;
          [step_bind; [apply respects_get; apply _|apply on_inlineSvg_only_logs]|]).
  step_bind; [apply respects_get; apply _|].
  apply respects_when; [apply _|]. by apply replaceChild_only_logs.
Qed.

Lemma replaceImgWithSvgB_only_logs browser svgString :
  respects (only_logs swap_event) (VariantB.replaceImgWithSvg browser svgString).
Proof.
  unfold VariantB.replaceImgWithSvg.
  step_bind; [by apply parse_only_logs|].
  step_bind; [apply respects_get; apply _|].
  match goal with |- context [match ?x with _ => _ end] => destruct x as [[u|e] svg] end.
  - apply respects_when; [apply _|]. by apply replaceChild_only_logs.
  - apply respects_throw. apply _.
Qed.

Lemma swap_is_quiet w w' : only_logs swap_event w w' -> only_logs quiet_event w w'.
Proof.
  intros [He Ht]. split; [done|].
  eapply trace_grows_weaken; [|exact Ht]. by intros [].
Qed.

Lemma quiet_is_after_fetch w w' :
  trace_grows quiet_event w w' -> trace_grows after_fetch_event w w'.
Proof. apply trace_grows_weaken. by intros []. Qed.

(** What both variants do between the settled request and the end of
    the [try]/[catch]. *)
Lemma bodyA_only_logs browser outcome :
  respects (only_logs quiet_event)
    (try_catch
       (let* response := settled (fetch_promise outcome) in
        when (ok response)
          (let* resultSvg := await_text response in
           let* svg := parseSvgStringToHtml browser resultSvg in
           let* _ := modify (set_inlineSvg svg) in
           VariantA.replaceImgWithSvg))
       (fun error => console_error error)).
Proof.
  apply respects_try_catch; [apply _| |intros e; by apply console_error_only_logs].
  step_bind; [apply settled_respects; apply _|].
  apply respects_when; [apply _|].
  step_bind; [by apply await_text_only_logs|].
  step_bind; [by apply parse_only_logs|].
  step_bind; [apply set_inlineSvg_only_logs|].
  eapply respects_weaken; [apply swap_is_quiet|apply replaceImgWithSvgA_only_logs].
Qed.

Lemma after_awaitB_only_logs browser this outcome :
  respects (only_logs quiet_event) (VariantB.getSvg_after_await browser this outcome).
Proof.
  unfold VariantB.getSvg_after_await.
  apply respects_try_catch; [apply _| |intros e; by apply console_error_only_logs].
  step_bind; [apply settled_respects; apply _|].
  apply respects_when; [apply _|].
  step_bind; [by apply await_text_only_logs|].
  eapply respects_weaken; [apply swap_is_quiet|apply replaceImgWithSvgB_only_logs].
Qed.

(** A [catch] that only logs always completes normally. *)
Lemma try_catch_console (m : M World unit) w :
  exists w', try_catch m (fun error => console_error error) w = (Normal tt, w').
Proof.
  unfold try_catch. destruct (m w) as [[[]|e] w1]; eauto.
Qed.

Lemma classList_add_valid loadingClass w :
  DOMTokenList.validate (to_DOMString loadingClass) = None ->
  classList_add loadingClass w
  = (Normal tt,
     mkWorld
       (mkPlaceholder (dataset (element w))
          (DOMTokenList.add (to_DOMString loadingClass) (classList (element w)))
          (width (element w)) (height (element w)))
       (page w) (inlineSvg w) (trace w ++ [ClassListAdd loadingClass])).
Proof. intros Hv. unfold classList_add, bind. simpl. by rewrite Hv. Qed.

Lemma classList_remove_valid loadingClass w :
  DOMTokenList.validate (to_DOMString loadingClass) = None ->
  classList_remove loadingClass w = (Normal tt, cleaned loadingClass w).
Proof. intros Hv. unfold classList_remove, bind. simpl. by rewrite Hv. Qed.

Lemma until_awaitA this w :
  DOMTokenList.validate (loading_token (VariantA.options this)) = None ->
  VariantA.getSvg_until_await this w
  = (Normal (dataset (element w) !! "src"),
     loading (VariantA.options this !! "loadingClass")
             (dataset (element w) !! "src") w).
Proof.
  intros Hv. unfold VariantA.getSvg_until_await.
  unfold bind at 1. simpl. unfold bind at 1.
  rewrite classList_add_valid by exact Hv.
  unfold bind, log, modify, ret, loading. simpl.
  by rewrite <- app_assoc.
Qed.

Lemma until_awaitB this w :
  DOMTokenList.validate (loading_token (VariantB.options this)) = None ->
  VariantB.getSvg_until_await this w
  = (Normal (dataset (element w) !! "src"),
     loading (VariantB.options this !! "loadingClass")
             (dataset (element w) !! "src") w).
Proof.
  intros Hv. unfold VariantB.getSvg_until_await.
  unfold bind at 1. simpl. unfold bind at 1.
  rewrite classList_add_valid by exact Hv.
  unfold bind, log, modify, ret, loading. simpl.
  by rewrite <- app_assoc.
Qed.

(** [getSvg] is its synchronous head followed by its continuation. *)
Lemma getSvgA_split browser this w :
  VariantA.getSvg browser this w
  = (let* src := VariantA.getSvg_until_await this in
     VariantA.getSvg_after_await browser this (fetch browser src)) w.
Proof.
  unfold VariantA.getSvg, VariantA.getSvg_until_await, VariantA.getSvg_after_await.
  unfold bind, get.
  destruct (classList_add (VariantA.options this !! "loadingClass") w)
    as [[[]|e] w1]; [|done].
  unfold await_fetch, try_finally, try_catch, bind, log, modify, ret. simpl.
  reflexivity.
Qed.

Lemma getSvgB_split browser this w :
  VariantB.getSvg browser this w
  = (let* src := VariantB.getSvg_until_await this in
     VariantB.getSvg_after_await browser this (fetch browser src)) w.
Proof.
  unfold VariantB.getSvg, VariantB.getSvg_until_await, VariantB.getSvg_after_await.
  unfold bind, get.
  destruct (classList_add (VariantB.options this !! "loadingClass") w)
    as [[[]|e] w1]; [|done].
  unfold await_fetch, try_catch, bind, log, modify, ret. simpl.
  reflexivity.
Qed.

End PipelineFacts.

Module GetSvgFacts.
Import WorldFacts PipelineFacts.

Lemma after_awaitA browser this outcome w1 :
  DOMTokenList.validate (loading_token (VariantA.options this)) = None ->
  exists w2,
    VariantA.getSvg_after_await browser this outcome w1
    = (Normal tt, cleaned (VariantA.options this !! "loadingClass") w2)
    /\ only_logs quiet_event w1 w2.
Proof.
  intros Hv. unfold VariantA.getSvg_after_await, try_finally.
  match goal with |- context [try_catch ?m ?h w1] =>
    destruct (try_catch_console m w1) as [w2 Hrun] end.
  rewrite Hrun, classList_remove_valid by exact Hv.
  exists w2. split; [done|]. eapply bodyA_only_logs, Hrun.
Qed.

Lemma after_awaitB browser this outcome w1 :
  exists w2,
    VariantB.getSvg_after_await browser this outcome w1 = (Normal tt, w2)
    /\ only_logs quiet_event w1 w2.
Proof.
  destruct (VariantB.getSvg_after_await browser this outcome w1) as [r w2] eqn:Hrun.
  assert (Hr : r = Normal tt).
  { unfold VariantB.getSvg_after_await in Hrun.
    match type of Hrun with context [try_catch ?m ?h w1] =>
      destruct (try_catch_console m w1) as [w2' Hrun'] end.
    rewrite Hrun' in Hrun. by injection Hrun as <- _. }
  subst r. exists w2. split; [done|]. eapply after_awaitB_only_logs, Hrun.
Qed.

Lemma getSvgA_runs browser this w :
  DOMTokenList.validate (loading_token (VariantA.options this)) = None ->
  exists w2,
    VariantA.getSvg browser this w
    = (Normal tt, cleaned (VariantA.options this !! "loadingClass") w2)
    /\ only_logs quiet_event
         (loading (VariantA.options this !! "loadingClass")
                  (dataset (element w) !! "src") w) w2.
Proof.
  intros Hv. rewrite getSvgA_split. unfold bind.
  rewrite until_awaitA by exact Hv. by apply after_awaitA.
Qed.

Lemma getSvgB_runs browser this w :
  DOMTokenList.validate (loading_token (VariantB.options this)) = None ->
  exists w2,
    VariantB.getSvg browser this w = (Normal tt, w2)
    /\ only_logs quiet_event
         (loading (VariantB.options this !! "loadingClass")
                  (dataset (element w) !! "src") w) w2.
Proof.
  intros Hv. rewrite getSvgB_split. unfold bind.
  rewrite until_awaitB by exact Hv. by apply after_awaitB.
Qed.

(** With a token the class list refuses, [getSvg] stops at
    [classList.add]: the promise is rejected and nothing is fetched. *)
Lemma classList_add_invalid loadingClass e w :
  DOMTokenList.validate (to_DOMString loadingClass) = Some e ->
  classList_add loadingClass w
  = (Throw e, mkWorld (element w) (page w) (inlineSvg w)
                (trace w ++ [ClassListAdd loadingClass])).
Proof. intros Hv. unfold classList_add, bind. simpl. by rewrite Hv. Qed.

Lemma elem_of_token_add token l : token ∈ DOMTokenList.add token l.
Proof.
  unfold DOMTokenList.add. case_bool_decide; [done|].
  apply elem_of_app. right. left.
Qed.

Lemma not_elem_of_token_remove token l : token ∉ DOMTokenList.remove token l.
Proof.
  unfold DOMTokenList.remove. intros Hin.
  apply list_elem_of_filter in Hin as [Hne _]. done.
Qed.

Lemma quiet_no_request rest :
  forallb quiet_event rest = true ->
  omap (fun e => match e with FetchCall u => Some u | _ => None end) rest = [].
Proof.
  induction rest as [|e rest IH]; [done|]. simpl.
  intros [He Hrest]%andb_true_iff. destruct e; try done; by apply IH.
Qed.

Lemma quiet_no_removal rest arg :
  forallb quiet_event rest = true -> ClassListRemove arg ∉ rest.
Proof.
  intros Hall Hin. apply list_elem_of_In in Hin.
  by eapply forallb_forall in Hall; [|exact Hin].
Qed.

End GetSvgFacts.

(** ** The loading class *)

(** Variant A removes the loading class on every outcome: whatever the
    request settles to and whatever the sanitizer does, [getSvg]
    completes normally, its trace opens with the [classList.add] and the
    request, closes with the [classList.remove], and the class is not on
    the placeholder afterwards. *)
Lemma getSvgA_always_removes_loading_class
    (browser : Browser) (this : VariantA.Loader) (w : World) :
  DOMTokenList.validate (loading_token (VariantA.options this)) = None ->
  exists w' middle,
    VariantA.getSvg browser this w = (Normal tt, w')
    /\ trace w'
       = (trace w
          ++ [ClassListAdd (VariantA.options this !! "loadingClass");
              FetchCall (dataset (element w) !! "src")]
          ++ middle
          ++ [ClassListRemove (VariantA.options this !! "loadingClass")])%list
    /\ forallb quiet_event middle = true
    /\ loading_token (VariantA.options this) ∉ classList (element w').
Proof.
  intros Hv.
  destruct (GetSvgFacts.getSvgA_runs browser this w Hv)
    as (w2 & Hrun & He & middle & Ht & Hq).
  exists (cleaned (VariantA.options this !! "loadingClass") w2), middle.
  split; [exact Hrun|]. split; [|split; [exact Hq|]].
  - simpl. rewrite Ht. simpl. by rewrite <- !app_assoc.
  - simpl. apply GetSvgFacts.not_elem_of_token_remove.
Qed.

(** C1 (variant B).  The selector variant adds the loading class before
    it issues the request and never takes it off again: on every
    outcome - ok response, non-ok response, rejected request, failing
    sanitizer - nothing after the request is a [classList.remove], and
    the class is still on the placeholder when [getSvg] is done. *)
Theorem getSvgB_never_removes_loading_class
    (browser : Browser) (this : VariantB.Loader) (w : World) :
  DOMTokenList.validate (loading_token (VariantB.options this)) = None ->
  exists w' rest,
    VariantB.getSvg browser this w = (Normal tt, w')
    /\ trace w'
       = (trace w
          ++ [ClassListAdd (VariantB.options this !! "loadingClass");
              FetchCall (dataset (element w) !! "src")]
          ++ rest)%list
    /\ (forall arg, ClassListRemove arg ∉ rest)
    /\ loading_token (VariantB.options this) ∈ classList (element w').
Proof.
  intros Hv.
  destruct (GetSvgFacts.getSvgB_runs browser this w Hv)
    as (w2 & Hrun & He & rest & Ht & Hq).
  exists w2, rest. split; [exact Hrun|]. split; [|split].
  - rewrite Ht. simpl. by rewrite <- !app_assoc.
  - intros arg. by apply GetSvgFacts.quiet_no_removal.
  - rewrite He. simpl. apply GetSvgFacts.elem_of_token_add.
Qed.

Lemma getSvgB_never_removes_loading_class_witness :
  DOMTokenList.validate (loading_token (VariantB.options Samples.loaderB)) = None
  /\ exists w' rest,
       VariantB.getSvg Samples.browser_404 Samples.loaderB
         (Samples.start {[ "src" := "a.svg" ]}) = (Normal tt, w')
       /\ trace w'
          = ([ClassListAdd (Some "js-svg-loading"); FetchCall (Some "a.svg")]
             ++ rest)%list
       /\ (forall arg, ClassListRemove arg ∉ rest)
       /\ "js-svg-loading" ∈ classList (element w').
Proof.
  assert (Hv : DOMTokenList.validate (loading_token (VariantB.options Samples.loaderB))
               = None) by (vm_compute; reflexivity).
  split; [exact Hv|].
  exact (getSvgB_never_removes_loading_class Samples.browser_404 Samples.loaderB
           (Samples.start {[ "src" := "a.svg" ]}) Hv).
Defined.

(** The two variants on the same non-ok response: A ends without the
    class, B with it. *)
Example loading_class_after_404 :
  classList (element (snd (VariantA.getSvg Samples.browser_404 Samples.loaderA
                             (Samples.start {[ "src" := "a.svg" ]}))))
  = ["js-lazy-inline-svg"]
  /\ classList (element (snd (VariantB.getSvg Samples.browser_404 Samples.loaderB
                                (Samples.start {[ "src" := "a.svg" ]}))))
     = ["js-lazy-inline-svg"; "js-svg-loading"].
Proof. split; vm_compute; reflexivity. Qed.

(** ** A non-ok response *)

(** C5.  On a response that is not ok, [getSvg] does nothing but handle
    the loading class: variant A adds the class, issues the one request
    and removes the class; variant B adds the class and issues the one
    request.  The body is not read, nothing is parsed or swapped, nothing
    is logged, no second request is made, and the page, the placeholder's
    data and size and [this.inlineSvg] are what they were. *)
Theorem getSvg_non_ok_response_transforms_nothing
    (browser : Browser) (thisA : VariantA.Loader) (thisB : VariantB.Loader)
    (w : World) (response : Response) :
  DOMTokenList.validate (loading_token (VariantA.options thisA)) = None ->
  DOMTokenList.validate (loading_token (VariantB.options thisB)) = None ->
  fetch browser (dataset (element w) !! "src") = Fulfilled response ->
  ok response = false ->
  VariantA.getSvg browser thisA w
  = (Normal tt,
     mkWorld
       (mkPlaceholder (dataset (element w))
          (DOMTokenList.remove (loading_token (VariantA.options thisA))
             (DOMTokenList.add (loading_token (VariantA.options thisA))
                (classList (element w))))
          (width (element w)) (height (element w)))
       (page w) (inlineSvg w)
       (trace w ++ [ClassListAdd (VariantA.options thisA !! "loadingClass");
                    FetchCall (dataset (element w) !! "src");
                    ClassListRemove (VariantA.options thisA !! "loadingClass")]))
  /\ VariantB.getSvg browser thisB w
     = (Normal tt,
        mkWorld
          (mkPlaceholder (dataset (element w))
             (DOMTokenList.add (loading_token (VariantB.options thisB))
                (classList (element w)))
             (width (element w)) (height (element w)))
          (page w) (inlineSvg w)
          (trace w ++ [ClassListAdd (VariantB.options thisB !! "loadingClass");
                       FetchCall (dataset (element w) !! "src")])).
Proof.
  intros HvA HvB Hfetch Hok. split.
  - rewrite PipelineFacts.getSvgA_split. unfold bind.
    rewrite PipelineFacts.until_awaitA by exact HvA.
    unfold VariantA.getSvg_after_await, try_finally, try_catch, bind.
    rewrite Hfetch. simpl. rewrite Hok. simpl.
    rewrite PipelineFacts.classList_remove_valid by exact HvA.
    unfold cleaned, loading, loading_token. simpl. by rewrite <- app_assoc.
  - rewrite PipelineFacts.getSvgB_split. unfold bind.
    rewrite PipelineFacts.until_awaitB by exact HvB.
    unfold VariantB.getSvg_after_await, try_catch, bind.
    rewrite Hfetch. simpl. rewrite Hok. simpl. reflexivity.
Qed.

Lemma getSvg_non_ok_response_transforms_nothing_witness :
  DOMTokenList.validate (loading_token (VariantA.options Samples.loaderA)) = None
  /\ DOMTokenList.validate (loading_token (VariantB.options Samples.loaderB)) = None
  /\ fetch Samples.browser_404 (dataset (element Samples.start_all) !! "src")
     = Fulfilled Samples.response_404
  /\ ok Samples.response_404 = false
  /\ page (snd (VariantA.getSvg Samples.browser_404 Samples.loaderA Samples.start_all))
     = [Sibling 0; ThePlaceholder; Sibling 1]
  /\ page (snd (VariantB.getSvg Samples.browser_404 Samples.loaderB Samples.start_all))
     = [Sibling 0; ThePlaceholder; Sibling 1]
  /\ trace (snd (VariantA.getSvg Samples.browser_404 Samples.loaderA Samples.start_all))
     = [ClassListAdd (Some "js-svg-loading"); FetchCall (Some "a.svg");
        ClassListRemove (Some "js-svg-loading")].
Proof.
  assert (HvA : DOMTokenList.validate (loading_token (VariantA.options Samples.loaderA))
                = None) by (vm_compute; reflexivity).
  assert (HvB : DOMTokenList.validate (loading_token (VariantB.options Samples.loaderB))
                = None) by (vm_compute; reflexivity).
  assert (Hfetch : fetch Samples.browser_404 (dataset (element Samples.start_all) !! "src")
                   = Fulfilled Samples.response_404) by reflexivity.
  assert (Hok : ok Samples.response_404 = false) by reflexivity.
  destruct (getSvg_non_ok_response_transforms_nothing Samples.browser_404
              Samples.loaderA Samples.loaderB Samples.start_all Samples.response_404
              HvA HvB Hfetch Hok)
    as [HA HB].
  split; [exact HvA|]. split; [exact HvB|]. split; [exact Hfetch|].
  split; [exact Hok|].
  rewrite HA, HB. repeat split; vm_compute; reflexivity.
Defined.

(** ** The source URL *)

(** C10.  [getSvg] does not look at the URL it reads from [data-src]:
    when the attribute is absent, both variants still add the loading
    class and then call [fetch] with [undefined]; that call is the one
    request of the attempt. *)
Theorem getSvg_fetches_undefined_without_src
    (browser : Browser) (thisA : VariantA.Loader) (thisB : VariantB.Loader)
    (w : World) :
  dataset (element w) !! "src" = None ->
  DOMTokenList.validate (loading_token (VariantA.options thisA)) = None ->
  DOMTokenList.validate (loading_token (VariantB.options thisB)) = None ->
  (exists rest,
     trace (snd (VariantA.getSvg browser thisA w))
     = (trace w ++ ClassListAdd (VariantA.options thisA !! "loadingClass")
                :: FetchCall None :: rest)%list
     /\ requests (snd (VariantA.getSvg browser thisA w)) = (requests w ++ [None])%list)
  /\ (exists rest,
        trace (snd (VariantB.getSvg browser thisB w))
        = (trace w ++ ClassListAdd (VariantB.options thisB !! "loadingClass")
                   :: FetchCall None :: rest)%list
        /\ requests (snd (VariantB.getSvg browser thisB w)) = (requests w ++ [None])%list).
Proof.
  intros Hsrc HvA HvB. split.
  - destruct (GetSvgFacts.getSvgA_runs browser thisA w HvA)
      as (w2 & Hrun & He & middle & Ht & Hq).
    rewrite Hrun, Hsrc in *. simpl in Ht |- *.
    exists (middle ++ [ClassListRemove (VariantA.options thisA !! "loadingClass")])%list.
    split.
    + rewrite Ht. by rewrite <- !app_assoc.
    + unfold requests. simpl. rewrite Ht.
      rewrite !omap_app. simpl.
      rewrite (GetSvgFacts.quiet_no_request middle Hq). by rewrite !app_nil_r.
  - destruct (GetSvgFacts.getSvgB_runs browser thisB w HvB)
      as (w2 & Hrun & He & rest & Ht & Hq).
    rewrite Hrun, Hsrc in *. simpl in Ht |- *.
    exists rest. split.
    + rewrite Ht. by rewrite <- !app_assoc.
    + unfold requests. rewrite Ht.
      rewrite !omap_app. simpl.
      rewrite (GetSvgFacts.quiet_no_request rest Hq). by rewrite !app_nil_r.
Qed.

Lemma getSvg_fetches_undefined_without_src_witness :
  dataset (element Samples.start_no_src) !! "src" = None
  /\ DOMTokenList.validate (loading_token (VariantA.options Samples.loaderA)) = None
  /\ DOMTokenList.validate (loading_token (VariantB.options Samples.loaderB)) = None
  /\ requests (snd (VariantA.getSvg Samples.browser_ok Samples.loaderA
                      Samples.start_no_src)) = [None]
  /\ requests (snd (VariantB.getSvg Samples.browser_ok Samples.loaderB
                      Samples.start_no_src)) = [None].
Proof.
  assert (Hsrc : dataset (element Samples.start_no_src) !! "src" = None)
    by (vm_compute; reflexivity).
  assert (HvA : DOMTokenList.validate (loading_token (VariantA.options Samples.loaderA))
                = None) by (vm_compute; reflexivity).
  assert (HvB : DOMTokenList.validate (loading_token (VariantB.options Samples.loaderB))
                = None) by (vm_compute; reflexivity).
  destruct (getSvg_fetches_undefined_without_src Samples.browser_ok
              Samples.loaderA Samples.loaderB Samples.start_no_src Hsrc HvA HvB)
    as [(restA & _ & HA) (restB & _ & HB)].
  split; [exact Hsrc|]. split; [exact HvA|]. split; [exact HvB|].
  split; [exact HA|exact HB].
Defined.

(** ** Options *)

Module OptionsFacts.
Import PipelineFacts GetSvgFacts.

Lemma getSvgA_first_event browser this w :
  exists rest,
    trace (snd (VariantA.getSvg browser this w))
    = (trace w ++ ClassListAdd (VariantA.options this !! "loadingClass") :: rest)%list.
Proof.
  destruct (DOMTokenList.validate (loading_token (VariantA.options this)))
    as [e|] eqn:Hv.
  - exists []. unfold VariantA.getSvg, bind, get.
    by rewrite (classList_add_invalid _ e) by exact Hv.
  - destruct (getSvgA_runs browser this w Hv) as (w2 & -> & _ & middle & Ht & _).
    simpl. rewrite Ht. simpl. rewrite <- !app_assoc. simpl. eauto.
Qed.

Lemma getSvgB_first_event browser this w :
  exists rest,
    trace (snd (VariantB.getSvg browser this w))
    = (trace w ++ ClassListAdd (VariantB.options this !! "loadingClass") :: rest)%list.
Proof.
  destruct (DOMTokenList.validate (loading_token (VariantB.options this)))
    as [e|] eqn:Hv.
  - exists []. unfold VariantB.getSvg, bind, get.
    by rewrite (classList_add_invalid _ e) by exact Hv.
  - destruct (getSvgB_runs browser this w Hv) as (w2 & -> & _ & rest & Ht & _).
    simpl. rewrite Ht. simpl. rewrite <- !app_assoc. simpl. eauto.
Qed.

Lemma new_A_options {E} (qsa : string -> list E) element options p :
  p ∈ VariantA.new qsa element options ->
  VariantA.options p.2 = options_or_default options.
Proof.
  unfold VariantA.new, VariantA.checkBeforeInit.
  destruct (default _ element) as [name|el].
  - intros Hin. apply list_elem_of_In, in_flat_map in Hin as (el & _ & Hin).
    destruct Hin as [<-|[]]. done.
  - intros Hin. apply list_elem_of_singleton in Hin as ->. done.
Qed.

End OptionsFacts.

(** C8.  A constructor called with an options object keeps exactly that
    object: no default is merged into it, in either variant and for
    every loader the call creates.  The argument of [classList.add] in
    [getSvg] is then the object's [loadingClass]; when the object has no
    such key the argument is [undefined], so the token the class list
    receives is the text [undefined] and [js-svg-loading] is not used. *)
Theorem constructor_keeps_the_given_options
    {E : Type} (document_querySelectorAll : string -> list E)
    (o : gmap string string) (browser : Browser) (w : World) :
  (forall target p,
      p ∈ VariantA.new document_querySelectorAll target (Some o) ->
      VariantA.options p.2 = o
      /\ (exists rest,
            trace (snd (VariantA.getSvg browser p.2 w))
            = (trace w ++ ClassListAdd (o !! "loadingClass") :: rest)%list)
      /\ (o !! "loadingClass" = None ->
          exists w' rest,
            VariantA.getSvg browser p.2 w = (Normal tt, w')
            /\ trace w' = (trace w ++ ClassListAdd None :: rest)%list
            /\ classList (element w')
               = DOMTokenList.remove "undefined"
                   (DOMTokenList.add "undefined" (classList (element w)))))
  /\ (forall selector,
        let this := (VariantB.new document_querySelectorAll selector (Some o)).1 in
        VariantB.options this = o
        /\ (exists rest,
              trace (snd (VariantB.getSvg browser this w))
              = (trace w ++ ClassListAdd (o !! "loadingClass") :: rest)%list)
        /\ (o !! "loadingClass" = None ->
            exists w' rest,
              VariantB.getSvg browser this w = (Normal tt, w')
              /\ trace w' = (trace w ++ ClassListAdd None :: rest)%list
              /\ classList (element w')
                 = DOMTokenList.add "undefined" (classList (element w)))).
Proof.
  split.
  - intros target p Hin.
    pose proof (OptionsFacts.new_A_options _ _ _ _ Hin) as Ho. simpl in Ho.
    split; [exact Ho|]. split.
    + rewrite <- Ho. apply OptionsFacts.getSvgA_first_event.
    + intros Hnone.
      assert (Hv : DOMTokenList.validate (loading_token (VariantA.options p.2)) = None).
      { unfold loading_token. by rewrite Ho, Hnone. }
      destruct (GetSvgFacts.getSvgA_runs browser p.2 w Hv)
        as (w2 & Hrun & He & middle & Ht & _).
      rewrite Ho, Hnone in *. eexists _, _. split; [exact Hrun|]. split.
      * simpl. rewrite Ht. simpl. rewrite <- !app_assoc. simpl. reflexivity.
      * simpl. by rewrite He.
  - intros selector this.
    assert (Ho : VariantB.options this = o) by done.
    split; [exact Ho|]. split.
    + rewrite <- Ho. apply OptionsFacts.getSvgB_first_event.
    + intros Hnone.
      assert (Hv : DOMTokenList.validate (loading_token (VariantB.options this)) = None).
      { unfold loading_token. by rewrite Ho, Hnone. }
      destruct (GetSvgFacts.getSvgB_runs browser this w Hv)
        as (w2 & Hrun & He & rest & Ht & _).
      rewrite Ho, Hnone in *. eexists _, _. split; [exact Hrun|]. split.
      * rewrite Ht. simpl. rewrite <- !app_assoc. simpl. reflexivity.
      * by rewrite He.
Qed.

(** With [new InlineSvgLazyLoader(el, {})] the class that shows up on the
    placeholder while the request is out is [undefined]. *)
Example empty_options_add_undefined :
  classList (element (snd (VariantB.getSvg Samples.browser_404
      (VariantB.new (fun _ => [0%nat]) None (Some ∅)).1
      (Samples.start {[ "src" := "a.svg" ]}))))
  = ["js-lazy-inline-svg"; "undefined"]
  /\ classList (element (snd (VariantB.getSvg Samples.browser_404
         (VariantB.new (fun _ => [0%nat]) None None).1
         (Samples.start {[ "src" := "a.svg" ]}))))
     = ["js-lazy-inline-svg"; "js-svg-loading"].
Proof. split; vm_compute; reflexivity. Qed.

Lemma constructor_keeps_the_given_options_witness :
  (0%nat, Samples.loader_without_class)
    ∈ VariantA.new (fun _ => [] : list nat) (Some (inr 0%nat)) (Some ∅)
  /\ (∅ : gmap string string) !! "loadingClass" = None
  /\ VariantA.options Samples.loader_without_class = ∅
  /\ exists w' rest,
       VariantA.getSvg Samples.browser_404 Samples.loader_without_class
         (Samples.start {[ "src" := "a.svg" ]}) = (Normal tt, w')
       /\ trace w' = ClassListAdd None :: rest
       /\ classList (element w') = ["js-lazy-inline-svg"].
Proof.
  assert (Hin : (0%nat, Samples.loader_without_class)
                  ∈ VariantA.new (fun _ => [] : list nat) (Some (inr 0%nat)) (Some ∅)).
  { simpl. left. }
  assert (Hnone : (∅ : gmap string string) !! "loadingClass" = None) by reflexivity.
  destruct (constructor_keeps_the_given_options (fun _ => [] : list nat) ∅
              Samples.browser_404 (Samples.start {[ "src" := "a.svg" ]}))
    as [HA _].
  destruct (HA (Some (inr 0%nat)) (0%nat, Samples.loader_without_class) Hin)
    as (Ho & _ & Hundef).
  destruct (Hundef Hnone) as (w' & rest & Hrun & Ht & Hcl).
  split; [exact Hin|]. split; [exact Hnone|]. split; [exact Ho|].
  exists w', rest. split; [exact Hrun|]. split; [exact Ht|].
  rewrite Hcl. vm_compute. reflexivity.
Defined.

(** ** The boolean flags *)

Module FlagFacts.
Import Dom Sanitizer.

Lemma truthy_nonempty flag value :
  flag = Some value -> JsString.nonempty value = true -> truthy flag = true.
Proof. by intros -> Hne. Qed.

Lemma truthy_absent flag : flag = None \/ flag = Some "" -> truthy flag = false.
Proof. by intros [->| ->]. Qed.

Lemma setSvgSize_enabled imageEl j t a cs :
  truthy (dataset imageEl !! "setSvgSize") = true ->
  setSvgSize imageEl (Some (Elem j t a cs))
  = (Normal tt,
     Some (Elem j t (<["height" := size_to_string (height imageEl)]>
                       (<["width" := size_to_string (width imageEl)]> a)) cs)).
Proof. intros Hflag. unfold setSvgSize. rewrite Hflag. reflexivity. Qed.

(** The loop of variant A makes the same two calls as variant B. *)
Lemma setSvgSize_forEach_same imageEl svg :
  setSvgSize_forEach imageEl svg = setSvgSize imageEl svg.
Proof.
  unfold setSvgSize_forEach, setSvgSize.
  destruct (truthy (dataset imageEl !! "setSvgSize")); [|done].
  simpl. unfold bind. destruct svg as [n|]; [|done]. simpl.
  destruct n; reflexivity.
Qed.

End FlagFacts.

(** C9.  The size and script flags are read as JavaScript conditions on
    the [dataset] string.  Any non-empty value switches the step on -
    the texts [false] and [0] as well, see the witness - and the step
    then sets [width] and [height] from the placeholder, respectively
    strips the scripts; an absent attribute or an empty value switches
    the step off and the root stays as it is. *)
Theorem flags_are_decided_by_truthiness
    (imageEl : Placeholder) (j : nat) (t : string) (a : gmap string string)
    (cs : list node) :
  (forall value,
      dataset imageEl !! "setSvgSize" = Some value ->
      JsString.nonempty value = true ->
      exists root',
        Sanitizer.setSvgSize imageEl (Some (Elem j t a cs)) = (Normal tt, Some root')
        /\ Sanitizer.setSvgSize_forEach imageEl (Some (Elem j t a cs))
           = (Normal tt, Some root')
        /\ Dom.getAttribute "width" root'
           = Some (Sanitizer.size_to_string (width imageEl))
        /\ Dom.getAttribute "height" root'
           = Some (Sanitizer.size_to_string (height imageEl)))
  /\ (dataset imageEl !! "setSvgSize" = None
      \/ dataset imageEl !! "setSvgSize" = Some "" ->
      forall svg,
        Sanitizer.setSvgSize imageEl svg = (Normal tt, svg)
        /\ Sanitizer.setSvgSize_forEach imageEl svg = (Normal tt, svg))
  /\ (forall value,
        dataset imageEl !! "removeScripts" = Some value ->
        JsString.nonempty value = true ->
        exists root',
          Sanitizer.removeScripts imageEl (Some (Elem j t a cs))
          = (Normal tt, Some root')
          /\ Dom.querySelectorAll "script" root' = []
          /\ forall name, Regex.test_anchored attrsStartedFromOn name = true ->
                          Dom.getAttribute name root' = None)
  /\ (dataset imageEl !! "removeScripts" = None
      \/ dataset imageEl !! "removeScripts" = Some "" ->
      forall svg, Sanitizer.removeScripts imageEl svg = (Normal tt, svg)).
Proof.
  split; [|split; [|split]].
  - intros value Hds Hne.
    pose proof (FlagFacts.truthy_nonempty _ _ Hds Hne) as Hflag.
    eexists. split; [by apply FlagFacts.setSvgSize_enabled|].
    split; [rewrite FlagFacts.setSvgSize_forEach_same;
            by apply FlagFacts.setSvgSize_enabled|].
    unfold Dom.getAttribute. simpl. split.
    + rewrite lookup_insert_ne by done. by rewrite lookup_insert_eq.
    + by rewrite lookup_insert_eq.
  - intros Hoff svg. apply FlagFacts.truthy_absent in Hoff.
    rewrite FlagFacts.setSvgSize_forEach_same.
    unfold Sanitizer.setSvgSize. by rewrite Hoff.
  - intros value Hds Hne.
    pose proof (FlagFacts.truthy_nonempty _ _ Hds Hne) as Hflag.
    exists (SanitizerModel.without_scripts (Elem j t a cs)).
    split; [by apply SanitizerFacts.removeScripts_enabled|].
    split; [apply SanitizerFacts.without_scripts_no_script|].
    intros name Hon. unfold Dom.getAttribute.
    rewrite SanitizerFacts.without_scripts_attributes.
    unfold SanitizerModel.starts_with_on. by rewrite Hon.
  - intros Hoff svg. apply FlagFacts.truthy_absent in Hoff.
    by apply SanitizerFacts.removeScripts_disabled.
Qed.

Lemma flags_are_decided_by_truthiness_witness :
  dataset (Samples.img {[ "setSvgSize" := "false"; "removeScripts" := "0" ]})
    !! "setSvgSize" = Some "false"
  /\ JsString.nonempty "false" = true
  /\ dataset (Samples.img {[ "setSvgSize" := "false"; "removeScripts" := "0" ]})
       !! "removeScripts" = Some "0"
  /\ JsString.nonempty "0" = true
  /\ (exists root',
        Sanitizer.setSvgSize
          (Samples.img {[ "setSvgSize" := "false"; "removeScripts" := "0" ]})
          (Some (Elem 1 "svg" ∅ [Elem 4 "script" ∅ []])) = (Normal tt, Some root')
        /\ Dom.getAttribute "width" root' = Some "64"
        /\ Dom.getAttribute "height" root' = Some "32")
  /\ (exists root',
        Sanitizer.removeScripts
          (Samples.img {[ "setSvgSize" := "false"; "removeScripts" := "0" ]})
          (Some (Elem 1 "svg" ∅ [Elem 4 "script" ∅ []])) = (Normal tt, Some root')
        /\ Dom.querySelectorAll "script" root' = []).
Proof.
  assert (H1 : dataset (Samples.img {[ "setSvgSize" := "false"; "removeScripts" := "0" ]})
                 !! "setSvgSize" = Some "false") by (vm_compute; reflexivity).
  assert (H2 : JsString.nonempty "false" = true) by reflexivity.
  assert (H3 : dataset (Samples.img {[ "setSvgSize" := "false"; "removeScripts" := "0" ]})
                 !! "removeScripts" = Some "0") by (vm_compute; reflexivity).
  assert (H4 : JsString.nonempty "0" = true) by reflexivity.
  destruct (flags_are_decided_by_truthiness
              (Samples.img {[ "setSvgSize" := "false"; "removeScripts" := "0" ]})
              1 "svg" ∅ [Elem 4 "script" ∅ []])
    as (Hsize & _ & Hscripts & _).
  destruct (Hsize "false" H1 H2) as (r1 & Hrun1 & _ & Hw & Hh).
  destruct (Hscripts "0" H3 H4) as (r2 & Hrun2 & Hnone & _).
  split; [exact H1|]. split; [exact H2|]. split; [exact H3|]. split; [exact H4|].
  split.
  - exists r1. split; [exact Hrun1|]. split; [exact Hw|exact Hh].
  - exists r2. split; [exact Hrun2|exact Hnone].
Defined.

(** ** A malformed [data-add-attrs] *)

(** C3 (as the code behaves).  When [data-add-attrs] is not empty and the
    pattern finds no pair in it, [match] returns [null] and [addAttrs]
    calls [forEach] on it: the step throws a TypeError, whatever the SVG
    root is, and leaves the root as it was. *)
Theorem addAttrs_throws_when_nothing_matches
    (imageEl : Placeholder) (addAttrs : string) (svg : option node) :
  dataset imageEl !! "addAttrs" = Some addAttrs ->
  JsString.nonempty addAttrs = true ->
  Regex.match_all attrsWithoutExtraSymbols addAttrs = None ->
  Sanitizer.addAttrs imageEl svg
  = (Throw (TypeError "null has no member forEach"), svg).
Proof.
  intros Hds Hne Hnull. unfold Sanitizer.addAttrs. by rewrite Hds, Hne, Hnull.
Qed.

Lemma addAttrs_throws_when_nothing_matches_witness :
  dataset (Samples.img {[ "addAttrs" := "foo" ]}) !! "addAttrs" = Some "foo"
  /\ JsString.nonempty "foo" = true
  /\ Regex.match_all attrsWithoutExtraSymbols "foo" = None
  /\ Sanitizer.addAttrs (Samples.img {[ "addAttrs" := "foo" ]}) (Some Samples.svg_root)
     = (Throw (TypeError "null has no member forEach"), Some Samples.svg_root).
Proof.
  assert (H1 : dataset (Samples.img {[ "addAttrs" := "foo" ]}) !! "addAttrs"
               = Some "foo") by (vm_compute; reflexivity).
  assert (H2 : JsString.nonempty "foo" = true) by reflexivity.
  assert (H3 : Regex.match_all attrsWithoutExtraSymbols "foo" = None)
    by (vm_compute; reflexivity).
  split; [exact H1|]. split; [exact H2|]. split; [exact H3|].
  exact (addAttrs_throws_when_nothing_matches
           (Samples.img {[ "addAttrs" := "foo" ]}) "foo" (Some Samples.svg_root)
           H1 H2 H3).
Defined.

(** The exception ends the pipeline: with a well-formed SVG and an ok
    response the placeholder is not replaced and one error is logged,
    where a well-formed list leads to the swap. *)
Example malformed_addAttrs_stops_the_swap :
  page (snd (VariantA.getSvg Samples.browser_ok Samples.loaderA
               (Samples.start {[ "src" := "a.svg"; "addAttrs" := "foo" ]})))
  = [Sibling 0; ThePlaceholder; Sibling 1]
  /\ console (snd (VariantA.getSvg Samples.browser_ok Samples.loaderA
                     (Samples.start {[ "src" := "a.svg"; "addAttrs" := "foo" ]})))
     = [TypeError "null has no member forEach"]
  /\ page (snd (VariantB.getSvg Samples.browser_ok Samples.loaderB
                  (Samples.start {[ "src" := "a.svg"; "addAttrs" := "foo" ]})))
     = [Sibling 0; ThePlaceholder; Sibling 1]
  /\ existsb is_placeholder
       (page (snd (VariantB.getSvg Samples.browser_ok Samples.loaderB
                     (Samples.start {[ "src" := "a.svg"; "addAttrs" := "a: 1" ]}))))
     = false.
Proof. repeat split; vm_compute; reflexivity. Qed.

(** ** A response without an SVG root *)

Module NullRootFacts.
Import Sanitizer SanitizerModel.

Lemma match_all_nonempty r s l : Regex.match_all r s = Some l -> l <> [].
Proof.
  unfold Regex.match_all. destruct (Regex.scan r s 0); [done|].
  by intros [= <-].
Qed.

Lemma removeAttrs_null imageEl :
  removeAttrs imageEl None
  = if truthy (dataset imageEl !! "removeAttrs")
    then (Throw (TypeError "null has no member removeAttribute"), None)
    else (Normal tt, None).
Proof.
  unfold removeAttrs. destruct (dataset imageEl !! "removeAttrs") as [s|]; [|done].
  simpl. destruct (JsString.nonempty s); [|done]. simpl.
  pose proof (JsStringFacts.split_nonempty "," s) as Hne.
  destruct (JsString.split "," s) as [|x l]; [done|]. reflexivity.
Qed.

Lemma removeScripts_null imageEl :
  removeScripts imageEl None
  = if truthy (dataset imageEl !! "removeScripts")
    then (Throw (TypeError "null has no member querySelectorAll"), None)
    else (Normal tt, None).
Proof.
  unfold removeScripts. by destruct (truthy (dataset imageEl !! "removeScripts")).
Qed.

Lemma addAttrs_null imageEl :
  exists what,
    addAttrs imageEl None
    = if truthy (dataset imageEl !! "addAttrs")
      then (Throw (TypeError what), None)
      else (Normal tt, None).
Proof.
  unfold addAttrs. destruct (dataset imageEl !! "addAttrs") as [s|];
    [|by exists ""].
  simpl. destruct (JsString.nonempty s); [|by exists ""]. simpl.
  destruct (Regex.match_all attrsWithoutExtraSymbols s) as [l|] eqn:Hm.
  - apply match_all_nonempty in Hm. destruct l as [|x l]; [done|].
    by exists "null has no member setAttribute".
  - by exists "null has no member forEach".
Qed.

Lemma setSvgSize_null imageEl :
  setSvgSize imageEl None
  = if truthy (dataset imageEl !! "setSvgSize")
    then (Throw (TypeError "null has no member setAttribute"), None)
    else (Normal tt, None).
Proof.
  unfold setSvgSize. by destruct (truthy (dataset imageEl !! "setSvgSize")).
Qed.

(** The four steps in a row on a [null] root: the first step that is
    switched on throws. *)
Lemma steps_null imageEl :
  exists what,
    (let* _ := removeAttrs imageEl in
     let* _ := removeScripts imageEl in
     let* _ := addAttrs imageEl in
     setSvgSize imageEl) None
    = if touches_svg imageEl
      then (Throw (TypeError what), None)
      else (Normal tt, None).
Proof.
  destruct (addAttrs_null imageEl) as [what Hadd].
  unfold bind, touches_svg.
  rewrite removeAttrs_null.
  destruct (truthy (dataset imageEl !! "removeAttrs")); [by eexists|].
  rewrite removeScripts_null.
  destruct (truthy (dataset imageEl !! "removeScripts")); [by eexists|].
  rewrite Hadd.
  destruct (truthy (dataset imageEl !! "addAttrs")); [by eexists|].
  rewrite setSvgSize_null.
  destruct (truthy (dataset imageEl !! "setSvgSize")); [by eexists|by exists ""].
Qed.

Lemma replaceImgWithSvgB_null browser svgString w :
  Dom.querySelector "svg" (parseFromString browser svgString) = None ->
  exists what,
    VariantB.replaceImgWithSvg browser svgString w
    = (if touches_svg (element w) || has_parentNode w
       then Throw (TypeError what) else Normal tt,
       mkWorld (element w) (page w) (inlineSvg w)
         (trace w ++ [ParseFromString svgString])).
Proof.
  intros Hnull. destruct (steps_null (element w)) as [what Hsteps].
  unfold VariantB.replaceImgWithSvg.
  rewrite PipelineFacts.bind_run, PipelineFacts.parse_run, Hnull, PipelineFacts.bind_run. unfold get at 1.
  cbn [element page trace inlineSvg]. rewrite Hsteps.
  destruct (touches_svg (element w)); [by exists what|].
  unfold has_parentNode. cbn [element page trace inlineSvg orb].
  destruct (existsb is_placeholder (page w)); [by eexists|by exists ""].
Qed.

Lemma replaceImgWithSvgA_null el pg tr :
  exists what,
    VariantA.replaceImgWithSvg (mkWorld el pg None tr)
    = (if touches_svg el || has_parentNode (mkWorld el pg None tr)
       then Throw (TypeError what) else Normal tt,
       mkWorld el pg None tr).
Proof.
  destruct (addAttrs_null el) as [what Hadd].
  unfold VariantA.replaceImgWithSvg, VariantA.removeAttrs, VariantA.removeScripts,
    VariantA.addAttrs, VariantA.setSvgSize, VariantA.on_inlineSvg, bind, get,
    touches_svg.
  simpl. rewrite removeAttrs_null.
  destruct (truthy (dataset el !! "removeAttrs")); [by eexists|]. simpl.
  rewrite removeScripts_null.
  destruct (truthy (dataset el !! "removeScripts")); [by eexists|]. simpl.
  rewrite Hadd.
  destruct (truthy (dataset el !! "addAttrs")); [by eexists|]. simpl.
  rewrite FlagFacts.setSvgSize_forEach_same, setSvgSize_null.
  destruct (truthy (dataset el !! "setSvgSize")); [by eexists|]. simpl.
  unfold has_parentNode. simpl.
  destruct (existsb is_placeholder pg); [by eexists|by exists ""].
Qed.

End NullRootFacts.

(** C7, as stated, fails: with no step switched on and the placeholder
    in the page, variant B's stage ends in the TypeError of
    [replaceChild(null, ...)] instead of completing. *)
Lemma no_root_does_not_pass_quietly : ~ no_root_passes_quietly.
Proof.
  intros Hclaim.
  destruct (Hclaim Samples.browser_no_svg "oops" (Samples.start {[ "src" := "a.svg" ]}))
    as (w' & Hrun & _); [vm_compute; reflexivity|].
  vm_compute in Hrun. discriminate Hrun.
Qed.

(** C7, amended.  When the fetched text has no SVG root, no substitution
    takes place and no exception leaves [getSvg].  The stage itself
    throws a TypeError as soon as it touches the missing root - in the
    first step that is switched on, or else in [replaceChild] when the
    placeholder has a parent - and [getSvg] logs that one error; only
    with every step switched off and the placeholder detached does the
    stage complete and nothing is logged. *)
Theorem no_root_means_no_swap_and_a_logged_TypeError
    (browser : Browser) (thisA : VariantA.Loader) (thisB : VariantB.Loader)
    (w : World) (response : Response) (text : string) :
  DOMTokenList.validate (loading_token (VariantA.options thisA)) = None ->
  DOMTokenList.validate (loading_token (VariantB.options thisB)) = None ->
  fetch browser (dataset (element w) !! "src") = Fulfilled response ->
  ok response = true ->
  body response = BodyText text ->
  Dom.querySelector "svg" (parseFromString browser text) = None ->
  (exists w' what,
      VariantA.getSvg browser thisA w = (Normal tt, w')
      /\ page w' = page w
      /\ trace w'
         = (trace w
            ++ [ClassListAdd (VariantA.options thisA !! "loadingClass");
                FetchCall (dataset (element w) !! "src");
                ResponseText; ParseFromString text]
            ++ (if SanitizerModel.touches_svg (element w) || has_parentNode w
                then [ConsoleError (TypeError what)] else [])
            ++ [ClassListRemove (VariantA.options thisA !! "loadingClass")])%list)
  /\ (exists w' what,
        VariantB.getSvg browser thisB w = (Normal tt, w')
        /\ page w' = page w
        /\ trace w'
           = (trace w
              ++ [ClassListAdd (VariantB.options thisB !! "loadingClass");
                  FetchCall (dataset (element w) !! "src");
                  ResponseText; ParseFromString text]
              ++ (if SanitizerModel.touches_svg (element w) || has_parentNode w
                  then [ConsoleError (TypeError what)] else []))%list).
Proof.
  intros HvA HvB Hfetch Hok Hbody Hnull. split.
  - rewrite PipelineFacts.getSvgA_split. unfold bind at 1.
    rewrite PipelineFacts.until_awaitA by exact HvA.
    unfold VariantA.getSvg_after_await, try_finally, try_catch.
    remember (classList_remove (VariantA.options thisA !! "loadingClass"))
      as cleanup eqn:Hcleanup.
    unfold bind at 1. rewrite Hfetch. simpl. rewrite Hok. simpl.
    unfold bind at 1. unfold await_text at 1. unfold bind at 1. simpl.
    rewrite Hbody. simpl.
    unfold bind at 1. unfold parseSvgStringToHtml at 1. unfold bind at 1. simpl.
    rewrite Hnull. unfold bind at 1. simpl. unfold set_inlineSvg. simpl.
    match goal with |- context [VariantA.replaceImgWithSvg (mkWorld ?el ?pg None ?tr)] =>
      destruct (NullRootFacts.replaceImgWithSvgA_null el pg tr) as [what ->] end.
    simpl. unfold has_parentNode, SanitizerModel.touches_svg. simpl.
    match goal with |- context [if ?c then [ConsoleError _] else []] => destruct c end.
    all: simpl; subst cleanup;
      rewrite PipelineFacts.classList_remove_valid by exact HvA;
      eexists _, what; (split; [reflexivity|]); (split; [reflexivity|]);
      simpl; rewrite <- !app_assoc; reflexivity.
  - rewrite PipelineFacts.getSvgB_split. unfold bind at 1.
    rewrite PipelineFacts.until_awaitB by exact HvB.
    unfold VariantB.getSvg_after_await, try_catch.
    unfold bind at 1. rewrite Hfetch. simpl. rewrite Hok. simpl.
    unfold bind at 1. unfold await_text at 1. unfold bind at 1. simpl.
    rewrite Hbody. simpl.
    match goal with |- context [VariantB.replaceImgWithSvg browser text ?w0] =>
      destruct (NullRootFacts.replaceImgWithSvgB_null browser text w0 Hnull)
        as [what ->] end.
    simpl. unfold has_parentNode, SanitizerModel.touches_svg. simpl.
    match goal with |- context [if ?c then [ConsoleError _] else []] => destruct c end.
    all: simpl; eexists _, what; (split; [reflexivity|]); (split; [reflexivity|]);
      simpl; rewrite <- !app_assoc; reflexivity.
Qed.

Lemma no_root_means_no_swap_and_a_logged_TypeError_witness :
  DOMTokenList.validate (loading_token (VariantA.options Samples.loaderA)) = None
  /\ DOMTokenList.validate (loading_token (VariantB.options Samples.loaderB)) = None
  /\ fetch Samples.browser_no_svg (dataset (element Samples.start_plain) !! "src")
     = Fulfilled Samples.response_no_svg
  /\ ok Samples.response_no_svg = true
  /\ body Samples.response_no_svg = BodyText "oops"
  /\ Dom.querySelector "svg" (parseFromString Samples.browser_no_svg "oops") = None
  /\ (exists w' what,
        VariantA.getSvg Samples.browser_no_svg Samples.loaderA Samples.start_plain
        = (Normal tt, w')
        /\ page w' = [Sibling 0; ThePlaceholder; Sibling 1]
        /\ console w' = [TypeError what]).
Proof.
  assert (HvA : DOMTokenList.validate (loading_token (VariantA.options Samples.loaderA))
                = None) by (vm_compute; reflexivity).
  assert (HvB : DOMTokenList.validate (loading_token (VariantB.options Samples.loaderB))
                = None) by (vm_compute; reflexivity).
  assert (Hfetch : fetch Samples.browser_no_svg
                     (dataset (element Samples.start_plain) !! "src")
                   = Fulfilled Samples.response_no_svg) by reflexivity.
  assert (Hok : ok Samples.response_no_svg = true) by reflexivity.
  assert (Hbody : body Samples.response_no_svg = BodyText "oops") by reflexivity.
  assert (Hnull : Dom.querySelector "svg" (parseFromString Samples.browser_no_svg "oops")
                  = None) by (vm_compute; reflexivity).
  destruct (no_root_means_no_swap_and_a_logged_TypeError Samples.browser_no_svg
              Samples.loaderA Samples.loaderB Samples.start_plain
              Samples.response_no_svg "oops" HvA HvB Hfetch Hok Hbody Hnull)
    as [(w' & what & Hrun & Hpage & Htrace) _].
  split; [exact HvA|]. split; [exact HvB|]. split; [exact Hfetch|].
  split; [exact Hok|]. split; [exact Hbody|]. split; [exact Hnull|].
  exists w', what. split; [exact Hrun|]. split; [exact Hpage|].
  unfold console. rewrite Htrace. vm_compute. reflexivity.
Defined.

(** The one quiet case: nothing switched on and the placeholder already
    out of the page. *)
Example no_root_detached_is_silent :
  VariantB.replaceImgWithSvg Samples.browser_no_svg "oops"
    (Samples.detached {[ "src" := "a.svg" ]})
  = (Normal tt,
     mkWorld (Samples.img {[ "src" := "a.svg" ]}) [] None [ParseFromString "oops"]).
Proof. vm_compute. reflexivity. Qed.

(** A declared removal list is enough for the exception. *)
Example no_root_with_removeAttrs_throws :
  fst (VariantB.replaceImgWithSvg Samples.browser_no_svg "oops"
         (Samples.detached {[ "src" := "a.svg"; "removeAttrs" := "foo" ]}))
  = Throw (TypeError "null has no member removeAttribute").
Proof. vm_compute. reflexivity. Qed.

(** ** The observer *)

Section ObserverFacts.
Variable getSvg_until_await : M World (option string).
Variable getSvg_after_await : fetch_outcome -> M World unit.
Variable browser : Browser.

(** The head of [getSvg] issues at most one request, and no request
    is issued after the [await]. *)
Hypothesis until_await_one_request :
  forall w r w',
    getSvg_until_await w = (r, w') ->
    (List.length (requests w) <= List.length (requests w')
     <= List.length (requests w) + 1)%nat.
Hypothesis after_await_no_request :
  forall outcome,
    respects (trace_grows after_fetch_event) (getSvg_after_await outcome).

Lemma after_fetch_no_request w w' :
  trace_grows after_fetch_event w w' -> requests w' = requests w.
Proof.
  intros (rest & Ht & Hall). unfold requests. rewrite Ht, omap_app.
  assert (Hnone : omap (fun e => match e with FetchCall u => Some u | _ => None end)
                    rest = []).
  { clear Ht. induction rest as [|e rest IH]; [done|]. simpl in *.
    apply andb_true_iff in Hall as [He Hrest]. destruct e; try done; by apply IH. }
  by rewrite Hnone, app_nil_r.
Qed.

Lemma on_entry_spec entry r :
  exists r',
    on_entry getSvg_until_await entry r = (Normal tt, r')
    /\ (if isIntersecting entry
        then observing r' = false
             /\ (fetch_count r <= fetch_count r' <= fetch_count r + 1)%nat
        else r' = r).
Proof.
  unfold on_entry. destruct (isIntersecting entry); [|by exists r].
  unfold when, bind, call_getSvg, unobserve, fetch_count.
  destruct (getSvg_until_await (world r)) as [[src|e] w1] eqn:Hrun;
    pose proof (until_await_one_request _ _ _ Hrun) as Hone;
    eexists; (split; [reflexivity|]); simpl;
    (split; [done|]); unfold requests in *; simpl;
    rewrite omap_app; simpl; rewrite app_nil_r; exact Hone.
Qed.

Lemma callback_spec entries r :
  exists r',
    callback getSvg_until_await entries r = (Normal tt, r')
    /\ observing r' = (if (intersecting entries =? 0)%nat then observing r else false)
    /\ (fetch_count r <= fetch_count r' <= fetch_count r + intersecting entries)%nat.
Proof.
  unfold callback. revert r.
  induction entries as [|entry entries IH]; intros r.
  - exists r. split; [done|]. split; [done|]. unfold intersecting. simpl. lia.
  - simpl. unfold bind.
    destruct (on_entry_spec entry r) as (r1 & -> & Hstep).
    destruct (IH r1) as (r2 & -> & Hobs & Hcount).
    exists r2. split; [done|]. unfold intersecting in *.
    destruct (isIntersecting entry) eqn:Hi.
    + rewrite filter_cons_True by done. simpl.
      destruct Hstep as [Hoff Hone]. split; [|lia].
      rewrite Hobs, Hoff. by destruct (_ =? _)%nat.
    + rewrite filter_cons_False by (rewrite Hi; done). by subst r1.
Qed.

Lemma deliver_unobserved ev r :
  observing r = false ->
  observing (deliver getSvg_until_await getSvg_after_await browser ev r) = false
  /\ fetch_count (deliver getSvg_until_await getSvg_after_await browser ev r)
     = fetch_count r.
Proof.
  intros Hoff. destruct ev as [entries|]; simpl.
  - by rewrite Hoff.
  - destruct (in_flight r) as [|src rest]; [done|].
    destruct (getSvg_after_await (fetch browser src) (world r)) as [c w1] eqn:Hrun.
    split; [done|]. unfold fetch_count. simpl. f_equal.
    eapply after_fetch_no_request, after_await_no_request, Hrun.
Qed.

Lemma deliver_settled r :
  observing (deliver getSvg_until_await getSvg_after_await browser FetchSettles r)
  = observing r
  /\ fetch_count (deliver getSvg_until_await getSvg_after_await browser FetchSettles r)
     = fetch_count r.
Proof.
  simpl. destruct (in_flight r) as [|src rest]; [done|].
  destruct (getSvg_after_await (fetch browser src) (world r)) as [c w1] eqn:Hrun.
  split; [done|]. unfold fetch_count. simpl. f_equal.
  eapply after_fetch_no_request, after_await_no_request, Hrun.
Qed.

Lemma deliver_intersections entries r :
  observing r = true ->
  observing (deliver getSvg_until_await getSvg_after_await browser
               (Intersections entries) r)
  = (if (intersecting entries =? 0)%nat then true else false)
  /\ (fetch_count r
      <= fetch_count (deliver getSvg_until_await getSvg_after_await browser
                        (Intersections entries) r)
      <= fetch_count r + intersecting entries)%nat.
Proof.
  intros Hon. simpl. rewrite Hon.
  destruct (callback_spec entries r) as (r' & -> & Hobs & Hcount). simpl.
  by rewrite Hobs, Hon.
Qed.

Lemma run_events_cons ev evs r :
  run_events getSvg_until_await getSvg_after_await browser (ev :: evs) r
  = run_events getSvg_until_await getSvg_after_await browser evs
      (deliver getSvg_until_await getSvg_after_await browser ev r).
Proof. reflexivity. Qed.

Lemma run_unobserved evs r :
  observing r = false ->
  observing (run_events getSvg_until_await getSvg_after_await browser evs r) = false
  /\ fetch_count (run_events getSvg_until_await getSvg_after_await browser evs r)
     = fetch_count r.
Proof.
  revert r. induction evs as [|ev evs IH]; intros r Hoff; [done|].
  destruct (deliver_unobserved ev r Hoff) as [Hoff' Hsame].
  rewrite run_events_cons.
  destruct (IH _ Hoff') as [Hoff'' Hsame'']. split; [done|]. congruence.
Qed.

Lemma run_single_reports evs r :
  single_reports evs ->
  (fetch_count (run_events getSvg_until_await getSvg_after_await browser evs r)
   <= fetch_count r + 1)%nat.
Proof.
  intros Hsingle. revert r.
  induction Hsingle as [|ev evs Hev _ IH]; intros r; [simpl; lia|].
  destruct (observing r) eqn:Hobs.
  - rewrite run_events_cons. destruct ev as [entries|].
    + destruct (deliver_intersections entries r Hobs) as [Hobs' Hcount].
      destruct (intersecting entries) as [|[|n]] eqn:Hn; [| |lia].
      * specialize (IH (deliver getSvg_until_await getSvg_after_await browser
                          (Intersections entries) r)). lia.
      * destruct (run_unobserved evs _ Hobs') as [_ Hsame]. lia.
    + destruct (deliver_settled r) as [_ Hsame].
      specialize (IH (deliver getSvg_until_await getSvg_after_await browser
                        FetchSettles r)). lia.
  - destruct (run_unobserved (ev :: evs) r Hobs) as [_ Hsame]. lia.
Qed.

End ObserverFacts.

Module ObserverInstances.
Import WorldFacts PipelineFacts GetSvgFacts.

Lemma classList_remove_after_fetch arg :
  respects (trace_grows after_fetch_event) (classList_remove arg).
Proof.
  intros w r w' Hrun. unfold classList_remove, bind, log, modify in Hrun.
  simpl in Hrun.
  destruct (DOMTokenList.validate (to_DOMString arg)); injection Hrun as <- <-;
    by exists [ClassListRemove arg].
Qed.

Lemma only_logs_quiet_after_fetch w w' :
  only_logs quiet_event w w' -> trace_grows after_fetch_event w w'.
Proof. intros [_ Ht]. by apply quiet_is_after_fetch. Qed.

Lemma after_awaitA_no_request browser this outcome :
  respects (trace_grows after_fetch_event)
    (VariantA.getSvg_after_await browser this outcome).
Proof.
  unfold VariantA.getSvg_after_await.
  apply respects_try_finally; [apply _| |apply classList_remove_after_fetch].
  eapply respects_weaken; [apply only_logs_quiet_after_fetch|apply bodyA_only_logs].
Qed.

Lemma after_awaitB_no_request browser this outcome :
  respects (trace_grows after_fetch_event)
    (VariantB.getSvg_after_await browser this outcome).
Proof.
  eapply respects_weaken; [apply only_logs_quiet_after_fetch|].
  apply after_awaitB_only_logs.
Qed.

Lemma until_awaitA_one_request this w r w' :
  VariantA.getSvg_until_await this w = (r, w') ->
  (List.length (requests w) <= List.length (requests w')
   <= List.length (requests w) + 1)%nat.
Proof.
  destruct (DOMTokenList.validate (loading_token (VariantA.options this)))
    as [e|] eqn:Hv.
  - unfold VariantA.getSvg_until_await, bind, get.
    rewrite (classList_add_invalid _ e) by exact Hv. intros [= <- <-].
    unfold requests. simpl. rewrite omap_app. simpl. rewrite app_nil_r. lia.
  - rewrite until_awaitA by exact Hv. intros [= <- <-].
    unfold requests. simpl. rewrite omap_app, length_app. simpl. lia.
Qed.

Lemma until_awaitB_one_request this w r w' :
  VariantB.getSvg_until_await this w = (r, w') ->
  (List.length (requests w) <= List.length (requests w')
   <= List.length (requests w) + 1)%nat.
Proof.
  destruct (DOMTokenList.validate (loading_token (VariantB.options this)))
    as [e|] eqn:Hv.
  - unfold VariantB.getSvg_until_await, bind, get.
    rewrite (classList_add_invalid _ e) by exact Hv. intros [= <- <-].
    unfold requests. simpl. rewrite omap_app. simpl. rewrite app_nil_r. lia.
  - rewrite until_awaitB by exact Hv. intros [= <- <-].
    unfold requests. simpl. rewrite omap_app, length_app. simpl. lia.
Qed.

End ObserverInstances.

(** C2, as stated, fails: a callback that carries two intersecting
    entries for the element calls [getSvg] for each of them before the
    observer is released, so two requests go out. *)
Lemma two_reports_in_one_callback_fetch_twice : ~ fetched_at_most_once.
Proof.
  intros Hclaim.
  specialize (Hclaim Samples.browser_ok Samples.loaderA Samples.start_plain
                [Intersections [mkEntry true; mkEntry true]]).
  vm_compute in Hclaim. lia.
Qed.

(** C2, amended.  In both variants the callback that first reports the
    element as intersecting releases the observer; once it is released
    no callback and no settled request causes a further fetch; and a
    callback issues at most one request per intersecting entry it
    carries.  Hence the element is fetched at most once in every run
    whose callbacks each report it as intersecting at most once. *)
Theorem observer_fetches_once_per_intersecting_report
    (browser : Browser) (thisA : VariantA.Loader) (thisB : VariantB.Loader) :
  ((forall r entries,
       observing r = true -> (0 < intersecting entries)%nat ->
       observing (ObserverA.deliver browser thisA (Intersections entries) r) = false
       /\ (fetch_count (ObserverA.deliver browser thisA (Intersections entries) r)
           <= fetch_count r + intersecting entries)%nat)
   /\ (forall r evs,
         observing r = false ->
         fetch_count (ObserverA.run_events browser thisA evs r) = fetch_count r)
   /\ (forall w evs,
         single_reports evs ->
         (fetch_count (ObserverA.run_events browser thisA evs (observe w))
          <= fetch_count (observe w) + 1)%nat))
  /\ ((forall r entries,
         observing r = true -> (0 < intersecting entries)%nat ->
         observing (ObserverB.deliver browser thisB (Intersections entries) r) = false
         /\ (fetch_count (ObserverB.deliver browser thisB (Intersections entries) r)
             <= fetch_count r + intersecting entries)%nat)
      /\ (forall r evs,
            observing r = false ->
            fetch_count (ObserverB.run_events browser thisB evs r) = fetch_count r)
      /\ (forall w evs,
            single_reports evs ->
            (fetch_count (ObserverB.run_events browser thisB evs (observe w))
             <= fetch_count (observe w) + 1)%nat)).
Proof.
  split; (split; [|split]).
  - intros r entries Hon Hpos.
    destruct (deliver_intersections _ (VariantA.getSvg_after_await browser thisA) browser
                (ObserverInstances.until_awaitA_one_request thisA) entries r Hon)
      as [Hobs Hcount].
    unfold ObserverA.deliver. split; [|lia].
    rewrite Hobs. destruct (intersecting entries); [lia|done].
  - intros r evs Hoff.
    apply (run_unobserved _ _ browser
             (ObserverInstances.after_awaitA_no_request browser thisA) evs r Hoff).
  - intros w evs Hsingle.
    apply (run_single_reports _ _ browser
             (ObserverInstances.until_awaitA_one_request thisA)
             (ObserverInstances.after_awaitA_no_request browser thisA) evs _ Hsingle).
  - intros r entries Hon Hpos.
    destruct (deliver_intersections _ (VariantB.getSvg_after_await browser thisB) browser
                (ObserverInstances.until_awaitB_one_request thisB) entries r Hon)
      as [Hobs Hcount].
    unfold ObserverB.deliver. split; [|lia].
    rewrite Hobs. destruct (intersecting entries); [lia|done].
  - intros r evs Hoff.
    apply (run_unobserved _ _ browser
             (ObserverInstances.after_awaitB_no_request browser thisB) evs r Hoff).
  - intros w evs Hsingle.
    apply (run_single_reports _ _ browser
             (ObserverInstances.until_awaitB_one_request thisB)
             (ObserverInstances.after_awaitB_no_request browser thisB) evs _ Hsingle).
Qed.

Lemma observer_fetches_once_per_intersecting_report_witness :
  single_reports Samples.scroll_by
  /\ observing (observe Samples.start_plain) = true
  /\ (0 < intersecting [mkEntry true])%nat
  /\ observing (ObserverB.deliver Samples.browser_ok Samples.loaderB
                  (Intersections [mkEntry true]) (observe Samples.start_plain)) = false
  /\ (fetch_count (ObserverB.run_events Samples.browser_ok Samples.loaderB
                     Samples.scroll_by (observe Samples.start_plain))
      <= fetch_count (observe Samples.start_plain) + 1)%nat.
Proof.
  assert (Hsingle : single_reports Samples.scroll_by).
  { unfold single_reports, Samples.scroll_by.
    repeat (apply Forall_cons; split); try apply Forall_nil_2; vm_compute; lia. }
  assert (Hon : observing (observe Samples.start_plain) = true) by reflexivity.
  assert (Hpos : (0 < intersecting [mkEntry true])%nat) by (vm_compute; lia).
  destruct (observer_fetches_once_per_intersecting_report Samples.browser_ok
              Samples.loaderA Samples.loaderB) as [_ (Hfirst & _ & Honce)].
  split; [exact Hsingle|]. split; [exact Hon|]. split; [exact Hpos|].
  split.
  - exact (proj1 (Hfirst (observe Samples.start_plain) [mkEntry true] Hon Hpos)).
  - exact (Honce Samples.start_plain Samples.scroll_by Hsingle).
Defined.

(** The run above in full: one request, and the swap when it settles. *)
Example scroll_by_fetches_once_and_swaps :
  requests (world (ObserverB.run_events Samples.browser_ok Samples.loaderB
                     Samples.scroll_by (observe Samples.start_plain)))
  = [Some "a.svg"]
  /\ existsb is_placeholder
       (page (world (ObserverB.run_events Samples.browser_ok Samples.loaderB
                       Samples.scroll_by (observe Samples.start_plain))))
     = false.
Proof. split; vm_compute; reflexivity. Qed.

(** ** The whole pipeline on the sample image *)

(** The examples of the specification in one run of variant B: [foo] is
    removed and [bar] kept, the scripts and the root's [onclick] are
    gone, [data-x] and [data-y] are added, the size is copied, and the
    new root stands where the placeholder stood. *)
Example full_pipeline_on_sample :
  page (snd (VariantB.getSvg Samples.browser_ok Samples.loaderB Samples.start_all))
  = [ Sibling 0;
      Inserted
        (Elem 1 "svg"
           {[ "bar" := "2"; "data-x" := "1"; "data-y" := "2";
              "width" := "64"; "height" := "32" ]}
           [ Elem 2 "g" {[ "onclick" := "evil()" ]} [] ]);
      Sibling 1 ].
Proof. vm_compute. reflexivity. Qed.

(** Variant A ends with the same page. *)
Example variants_agree_on_sample :
  page (snd (VariantA.getSvg Samples.browser_ok Samples.loaderA Samples.start_all))
  = page (snd (VariantB.getSvg Samples.browser_ok Samples.loaderB Samples.start_all)).
Proof. vm_compute. reflexivity. Qed.

(** ** Script removal, seen from the page *)

Module SwapFacts.
Import Dom Sanitizer SanitizerModel.

Lemma removeAttrs_some imageEl root :
  exists p names,
    removeAttrs imageEl (Some root) = (Normal tt, Some (remove_named p names root)).
Proof.
  unfold removeAttrs. destruct (dataset imageEl !! "removeAttrs") as [s|] eqn:Hds.
  - destruct (JsString.nonempty s) eqn:Hne.
    + exists (fun _ => true), (names_to_remove s).
      rewrite <- (RemoveAttrsFacts.removeAttrs_enabled imageEl s root Hds Hne).
      unfold removeAttrs. by rewrite Hds, Hne.
    + by exists (fun _ => true), [].
  - by exists (fun _ => true), [].
Qed.

Lemma setSvgSize_some imageEl root :
  exists root',
    setSvgSize imageEl (Some root) = (Normal tt, Some root')
    /\ childNodes root' = childNodes root
    /\ forall k, k <> "width" -> k <> "height" ->
                 attributes root' !! k = attributes root !! k.
Proof.
  unfold setSvgSize. destruct (truthy (dataset imageEl !! "setSvgSize")).
  - destruct root as [j t a cs|d]; eexists; (split; [reflexivity|]); simpl;
      (split; [done|]); intros k Hw Hh; [|done].
    by rewrite !lookup_insert_ne.
  - exists root. done.
Qed.

(** Variant B with the script flag set and no [data-add-attrs]: the node
    that takes the placeholder's place has no [script] descendant and no
    attribute that starts with [on]. *)
Lemma swapped_node_has_no_scripts browser svgString w root :
  querySelector "svg" (parseFromString browser svgString) = Some root ->
  truthy (dataset (element w) !! "removeScripts") = true ->
  dataset (element w) !! "addAttrs" = None ->
  has_parentNode w = true ->
  exists svg,
    VariantB.replaceImgWithSvg browser svgString w
    = (Normal tt,
       mkWorld (element w)
         (map (fun c => if is_placeholder c then Inserted svg else c) (page w))
         (inlineSvg w)
         (trace w ++ [ParseFromString svgString; ReplaceChild svg]))
    /\ querySelectorAll "script" svg = []
    /\ forall name, starts_with_on name = true -> getAttribute name svg = None.
Proof.
  intros Hroot Hflag Hadd Hparent.
  destruct (removeAttrs_some (element w) root) as (p & names & Hrm).
  set (root1 := remove_named p names root) in *.
  destruct (setSvgSize_some (element w) (without_scripts root1))
    as (svg & Hsize & Hch & Hat).
  exists svg. split; [|split].
  - unfold VariantB.replaceImgWithSvg.
    rewrite PipelineFacts.bind_run, PipelineFacts.parse_run, Hroot.
    rewrite PipelineFacts.bind_run. unfold get at 1.
    cbn [element page trace inlineSvg].
    rewrite PipelineFacts.bind_run, Hrm.
    rewrite PipelineFacts.bind_run, (SanitizerFacts.removeScripts_enabled _ _ Hflag).
    rewrite PipelineFacts.bind_run. unfold addAttrs at 1. rewrite Hadd.
    unfold ret at 1. rewrite Hsize.
    unfold has_parentNode in *. cbn [element page trace inlineSvg].
    rewrite Hparent. unfold when, replaceChild, bind, log, modify. simpl.
    by rewrite <- app_assoc.
  - unfold querySelectorAll.
    rewrite SanitizerFacts.descendants_children, Hch,
      <- SanitizerFacts.descendants_children.
    apply SanitizerFacts.without_scripts_no_script.
  - intros name Hon. unfold getAttribute.
    rewrite Hat by (intros ->; vm_compute in Hon; discriminate).
    by rewrite SanitizerFacts.without_scripts_attributes, Hon.
Qed.

End SwapFacts.

(** * Further properties of the code *)

(** ** Transport failures *)

(** A rejected request: [getSvg] catches the rejection and logs it,
    once; it completes normally, the page and the placeholder's data are
    untouched, nothing is read, parsed or swapped, and no second request
    is made.  Variant A then removes the loading class; variant B leaves
    it on. *)
Theorem getSvg_rejected_fetch_is_logged_once
    (browser : Browser) (thisA : VariantA.Loader) (thisB : VariantB.Loader)
    (w : World) (reason : string) :
  DOMTokenList.validate (loading_token (VariantA.options thisA)) = None ->
  DOMTokenList.validate (loading_token (VariantB.options thisB)) = None ->
  fetch browser (dataset (element w) !! "src") = Rejected reason ->
  VariantA.getSvg browser thisA w
  = (Normal tt,
     mkWorld
       (mkPlaceholder (dataset (element w))
          (DOMTokenList.remove (loading_token (VariantA.options thisA))
             (DOMTokenList.add (loading_token (VariantA.options thisA))
                (classList (element w))))
          (width (element w)) (height (element w)))
       (page w) (inlineSvg w)
       (trace w ++ [ClassListAdd (VariantA.options thisA !! "loadingClass");
                    FetchCall (dataset (element w) !! "src");
                    ConsoleError (Rejection reason);
                    ClassListRemove (VariantA.options thisA !! "loadingClass")]))
  /\ VariantB.getSvg browser thisB w
     = (Normal tt,
        mkWorld
          (mkPlaceholder (dataset (element w))
             (DOMTokenList.add (loading_token (VariantB.options thisB))
                (classList (element w)))
             (width (element w)) (height (element w)))
          (page w) (inlineSvg w)
          (trace w ++ [ClassListAdd (VariantB.options thisB !! "loadingClass");
                       FetchCall (dataset (element w) !! "src");
                       ConsoleError (Rejection reason)])).
Proof.
  intros HvA HvB Hfetch. split.
  - rewrite PipelineFacts.getSvgA_split. unfold bind.
    rewrite PipelineFacts.until_awaitA by exact HvA.
    unfold VariantA.getSvg_after_await, try_finally, try_catch, bind.
    rewrite Hfetch. simpl.
    unfold classList_remove, bind. simpl.
    unfold loading_token in HvA. rewrite HvA. simpl.
    unfold console_error, log, modify, loading, loading_token. simpl.
    by rewrite <- ?app_assoc.
  - rewrite PipelineFacts.getSvgB_split. unfold bind.
    rewrite PipelineFacts.until_awaitB by exact HvB.
    unfold VariantB.getSvg_after_await, try_catch, bind.
    rewrite Hfetch. simpl. unfold console_error, log, modify, loading, loading_token. simpl.
    by rewrite <- ?app_assoc.
Qed.

Lemma getSvg_rejected_fetch_is_logged_once_witness :
  DOMTokenList.validate (loading_token (VariantA.options Samples.loaderA)) = None
  /\ DOMTokenList.validate (loading_token (VariantB.options Samples.loaderB)) = None
  /\ fetch Samples.browser_offline (dataset (element Samples.start_all) !! "src")
     = Rejected "Failed to fetch"
  /\ console (snd (VariantA.getSvg Samples.browser_offline Samples.loaderA
                     Samples.start_all))
     = [Rejection "Failed to fetch"]
  /\ page (snd (VariantB.getSvg Samples.browser_offline Samples.loaderB
                  Samples.start_all))
     = [Sibling 0; ThePlaceholder; Sibling 1].
Proof.
  assert (HvA : DOMTokenList.validate (loading_token (VariantA.options Samples.loaderA))
                = None) by (vm_compute; reflexivity).
  assert (HvB : DOMTokenList.validate (loading_token (VariantB.options Samples.loaderB))
                = None) by (vm_compute; reflexivity).
  assert (Hfetch : fetch Samples.browser_offline
                     (dataset (element Samples.start_all) !! "src")
                   = Rejected "Failed to fetch") by reflexivity.
  destruct (getSvg_rejected_fetch_is_logged_once Samples.browser_offline
              Samples.loaderA Samples.loaderB Samples.start_all "Failed to fetch"
              HvA HvB Hfetch) as [HA HB].
  split; [exact HvA|]. split; [exact HvB|]. split; [exact Hfetch|].
  rewrite HA, HB. split; vm_compute; reflexivity.
Defined.

(** An ok response whose body cannot be read: the rejection of
    [response.text()] is caught and logged like a failed request, before
    anything is parsed; the placeholder stays where it is. *)
Theorem getSvg_unreadable_body_is_logged_once
    (browser : Browser) (thisA : VariantA.Loader) (thisB : VariantB.Loader)
    (w : World) (response : Response) (reason : string) :
  DOMTokenList.validate (loading_token (VariantA.options thisA)) = None ->
  DOMTokenList.validate (loading_token (VariantB.options thisB)) = None ->
  fetch browser (dataset (element w) !! "src") = Fulfilled response ->
  ok response = true ->
  body response = BodyFails reason ->
  VariantA.getSvg browser thisA w
  = (Normal tt,
     mkWorld
       (mkPlaceholder (dataset (element w))
          (DOMTokenList.remove (loading_token (VariantA.options thisA))
             (DOMTokenList.add (loading_token (VariantA.options thisA))
                (classList (element w))))
          (width (element w)) (height (element w)))
       (page w) (inlineSvg w)
       (trace w ++ [ClassListAdd (VariantA.options thisA !! "loadingClass");
                    FetchCall (dataset (element w) !! "src");
                    ResponseText;
                    ConsoleError (Rejection reason);
                    ClassListRemove (VariantA.options thisA !! "loadingClass")]))
  /\ VariantB.getSvg browser thisB w
     = (Normal tt,
        mkWorld
          (mkPlaceholder (dataset (element w))
             (DOMTokenList.add (loading_token (VariantB.options thisB))
                (classList (element w)))
             (width (element w)) (height (element w)))
          (page w) (inlineSvg w)
          (trace w ++ [ClassListAdd (VariantB.options thisB !! "loadingClass");
                       FetchCall (dataset (element w) !! "src");
                       ResponseText;
                       ConsoleError (Rejection reason)])).
Proof.
  intros HvA HvB Hfetch Hok Hbody. split.
  - rewrite PipelineFacts.getSvgA_split. unfold bind.
    rewrite PipelineFacts.until_awaitA by exact HvA.
    unfold VariantA.getSvg_after_await, try_finally, try_catch, bind.
    rewrite Hfetch. simpl. rewrite Hok. simpl.
    unfold await_text, bind. simpl. rewrite Hbody. simpl.
    unfold classList_remove, bind. simpl.
    unfold loading_token in HvA. rewrite HvA. simpl.
    unfold console_error, log, modify, loading, loading_token. simpl.
    by rewrite <- ?app_assoc.
  - rewrite PipelineFacts.getSvgB_split. unfold bind.
    rewrite PipelineFacts.until_awaitB by exact HvB.
    unfold VariantB.getSvg_after_await, try_catch, bind.
    rewrite Hfetch. simpl. rewrite Hok. simpl.
    unfold await_text, bind. simpl. rewrite Hbody. simpl.
    unfold console_error, log, modify, loading, loading_token. simpl.
    by rewrite <- ?app_assoc.
Qed.

Lemma getSvg_unreadable_body_is_logged_once_witness :
  DOMTokenList.validate (loading_token (VariantA.options Samples.loaderA)) = None
  /\ DOMTokenList.validate (loading_token (VariantB.options Samples.loaderB)) = None
  /\ fetch MoreSamples.browser_broken_body (dataset (element Samples.start_all) !! "src")
     = Fulfilled MoreSamples.response_broken_body
  /\ ok MoreSamples.response_broken_body = true
  /\ body MoreSamples.response_broken_body = BodyFails "body stream interrupted"
  /\ console (snd (VariantB.getSvg MoreSamples.browser_broken_body Samples.loaderB
                     Samples.start_all))
     = [Rejection "body stream interrupted"]
  /\ page (snd (VariantA.getSvg MoreSamples.browser_broken_body Samples.loaderA
                  Samples.start_all))
     = [Sibling 0; ThePlaceholder; Sibling 1].
Proof.
  assert (HvA : DOMTokenList.validate (loading_token (VariantA.options Samples.loaderA))
                = None) by (vm_compute; reflexivity).
  assert (HvB : DOMTokenList.validate (loading_token (VariantB.options Samples.loaderB))
                = None) by (vm_compute; reflexivity).
  assert (Hfetch : fetch MoreSamples.browser_broken_body
                     (dataset (element Samples.start_all) !! "src")
                   = Fulfilled MoreSamples.response_broken_body) by reflexivity.
  assert (Hok : ok MoreSamples.response_broken_body = true) by reflexivity.
  assert (Hbody : body MoreSamples.response_broken_body
                  = BodyFails "body stream interrupted") by reflexivity.
  destruct (getSvg_unreadable_body_is_logged_once MoreSamples.browser_broken_body
              Samples.loaderA Samples.loaderB Samples.start_all
              MoreSamples.response_broken_body "body stream interrupted"
              HvA HvB Hfetch Hok Hbody) as [HA HB].
  split; [exact HvA|]. split; [exact HvB|]. split; [exact Hfetch|].
  split; [exact Hok|]. split; [exact Hbody|].
  rewrite HA, HB. split; vm_compute; reflexivity.
Defined.

(** ** More on the observer *)

Section ObserverRuns.
Variable getSvg_until_await : M World (option string).
Variable getSvg_after_await : fetch_outcome -> M World unit.
Variable browser : Browser.

Hypothesis after_await_no_request :
  forall outcome,
    respects (trace_grows after_fetch_event) (getSvg_after_await outcome).

Lemma intersecting_cons entry entries :
  intersecting (entry :: entries)
  = ((if isIntersecting entry then 1 else 0) + intersecting entries)%nat.
Proof.
  unfold intersecting. destruct (isIntersecting entry) eqn:Hi.
  - by rewrite filter_cons_True.
  - by rewrite filter_cons_False by (rewrite Hi; done).
Qed.

(** A callback without an intersecting entry changes nothing. *)
Lemma forEach_quiet entries r :
  intersecting entries = 0%nat ->
  forEach entries (on_entry getSvg_until_await) r = (Normal tt, r).
Proof.
  induction entries as [|entry entries IH]; [done|].
  rewrite intersecting_cons. destruct (isIntersecting entry) eqn:Hi; [lia|].
  intros Hrest. simpl. unfold bind, on_entry. rewrite Hi. simpl. by apply IH.
Qed.

Lemma callback_quiet entries r :
  intersecting entries = 0%nat ->
  callback getSvg_until_await entries r = (Normal tt, r).
Proof. apply forEach_quiet. Qed.

Lemma registration_eta r :
  mkRegistration (world r) (observing r) (in_flight r) = r.
Proof. by destruct r. Qed.

Lemma run_never_intersects evs r :
  never_intersects evs -> in_flight r = [] ->
  run_events getSvg_until_await getSvg_after_await browser evs r = r.
Proof.
  intros Hnever Hidle. induction Hnever as [|ev evs Hev _ IH]; [done|].
  rewrite run_events_cons.
  assert (Hsame : deliver getSvg_until_await getSvg_after_await browser ev r = r).
  { destruct ev as [entries|]; simpl.
    - rewrite callback_quiet by exact Hev. by destruct (observing r).
    - by rewrite Hidle. }
  by rewrite Hsame.
Qed.

Lemma deliver_unobserved_requests ev r :
  observing r = false ->
  observing (deliver getSvg_until_await getSvg_after_await browser ev r) = false
  /\ requests (world (deliver getSvg_until_await getSvg_after_await browser ev r))
     = requests (world r).
Proof.
  intros Hoff. destruct ev as [entries|]; simpl.
  - by rewrite Hoff.
  - destruct (in_flight r) as [|src rest]; [done|].
    destruct (getSvg_after_await (fetch browser src) (world r)) as [c w1] eqn:Hrun.
    split; [done|]. simpl.
    eapply after_fetch_no_request, after_await_no_request, Hrun.
Qed.

Lemma run_unobserved_requests evs r :
  observing r = false ->
  requests (world (run_events getSvg_until_await getSvg_after_await browser evs r))
  = requests (world r).
Proof.
  revert r. induction evs as [|ev evs IH]; intros r Hoff; [done|].
  destruct (deliver_unobserved_requests ev r Hoff) as [Hoff' Hsame].
  rewrite run_events_cons, IH by exact Hoff'. exact Hsame.
Qed.

(** *** When the head of [getSvg] issues its request *)

Section Issues.
Hypothesis until_await_issues :
  forall w, exists w',
    getSvg_until_await w = (Normal (dataset (element w) !! "src"), w')
    /\ requests w' = (requests w ++ [dataset (element w) !! "src"])%list.

Lemma callback_single entries r :
  intersecting entries = 1%nat ->
  exists r',
    callback getSvg_until_await entries r = (Normal tt, r')
    /\ observing r' = false
    /\ requests (world r')
       = (requests (world r) ++ [dataset (element (world r)) !! "src"])%list.
Proof.
  unfold callback. revert r. induction entries as [|entry entries IH]; intros r.
  - unfold intersecting. simpl. lia.
  - rewrite intersecting_cons. destruct (isIntersecting entry) eqn:Hi.
    + intros Hrest. assert (Hzero : intersecting entries = 0%nat) by lia.
      destruct (until_await_issues (world r)) as (w' & Hrun & Hreq).
      simpl. unfold bind at 1. unfold on_entry. rewrite Hi. simpl.
      unfold bind at 1. unfold call_getSvg at 1. rewrite Hrun.
      unfold unobserve at 1. simpl.
      rewrite forEach_quiet by exact Hzero.
      eexists. split; [reflexivity|]. split; [done|]. simpl.
      unfold requests in *. simpl. rewrite omap_app. simpl.
      by rewrite app_nil_r.
    + intros Hrest. simpl. unfold bind at 1. unfold on_entry. rewrite Hi. simpl.
      apply IH. lia.
Qed.

Lemma run_single_reports_requests evs r :
  single_reports evs -> observing r = true -> in_flight r = [] ->
  requests (world (run_events getSvg_until_await getSvg_after_await browser evs r))
  = (requests (world r)
     ++ (if ever_intersects evs then [dataset (element (world r)) !! "src"] else []))%list.
Proof.
  intros Hsingle Hon Hidle.
  induction Hsingle as [|ev evs Hev _ IH]; [simpl; by rewrite app_nil_r|].
  rewrite run_events_cons. destruct ev as [entries|].
  - destruct (intersecting entries) as [|[|n]] eqn:Hn; [| |lia].
    + assert (Hsame : deliver getSvg_until_await getSvg_after_await browser
                        (Intersections entries) r = r).
      { simpl. rewrite callback_quiet by exact Hn. by rewrite Hon. }
      rewrite Hsame, IH. simpl. by rewrite Hn.
    + destruct (callback_single entries r Hn) as (r' & Hrun & Hoff & Hreq).
      assert (Hstep : deliver getSvg_until_await getSvg_after_await browser
                        (Intersections entries) r = r').
      { simpl. by rewrite Hon, Hrun. }
      rewrite Hstep, run_unobserved_requests by exact Hoff.
      rewrite Hreq. simpl. by rewrite Hn.
  - assert (Hsame : deliver getSvg_until_await getSvg_after_await browser
                      FetchSettles r = r).
    { simpl. by rewrite Hidle. }
    rewrite Hsame, IH. done.
Qed.
End Issues.

(** *** When the head of [getSvg] throws before its request *)

Section Throws.
Hypothesis until_await_throws :
  forall w, exists e w',
    getSvg_until_await w = (Throw e, w') /\ requests w' = requests w.

Lemma on_entry_throws entry r :
  exists r',
    on_entry getSvg_until_await entry r = (Normal tt, r')
    /\ requests (world r') = requests (world r).
Proof.
  unfold on_entry. destruct (isIntersecting entry); [|by exists r].
  destruct (until_await_throws (world r)) as (e & w' & Hrun & Hreq).
  unfold when, bind, call_getSvg, unobserve. rewrite Hrun.
  eexists. split; [reflexivity|]. simpl.
  unfold requests in *. simpl. rewrite omap_app. simpl. by rewrite app_nil_r.
Qed.

Lemma callback_throws entries r :
  exists r',
    callback getSvg_until_await entries r = (Normal tt, r')
    /\ requests (world r') = requests (world r).
Proof.
  unfold callback. revert r. induction entries as [|entry entries IH]; intros r.
  - by exists r.
  - simpl. unfold bind.
    destruct (on_entry_throws entry r) as (r1 & -> & Hreq1).
    destruct (IH r1) as (r2 & -> & Hreq2). exists r2. split; [done|]. congruence.
Qed.

Lemma run_throws_requests evs r :
  requests (world (run_events getSvg_until_await getSvg_after_await browser evs r))
  = requests (world r).
Proof.
  revert r. induction evs as [|ev evs IH]; intros r; [done|].
  rewrite run_events_cons, IH. destruct ev as [entries|]; simpl.
  - destruct (observing r); [|done].
    destruct (callback_throws entries r) as (r' & -> & Hreq). exact Hreq.
  - destruct (in_flight r) as [|src rest]; [done|].
    destruct (getSvg_after_await (fetch browser src) (world r)) as [c w1] eqn:Hrun.
    simpl. eapply after_fetch_no_request, after_await_no_request, Hrun.
Qed.
End Throws.

End ObserverRuns.

Module ObserverRunInstances.
Import PipelineFacts GetSvgFacts.

Lemma requests_loading lc src w :
  requests (loading lc src w) = (requests w ++ [src])%list.
Proof. unfold requests, loading. simpl. by rewrite omap_app. Qed.

Lemma until_awaitA_issues this :
  DOMTokenList.validate (loading_token (VariantA.options this)) = None ->
  forall w, exists w',
    VariantA.getSvg_until_await this w = (Normal (dataset (element w) !! "src"), w')
    /\ requests w' = (requests w ++ [dataset (element w) !! "src"])%list.
Proof.
  intros Hv w. eexists. split; [by apply until_awaitA|]. apply requests_loading.
Qed.

Lemma until_awaitB_issues this :
  DOMTokenList.validate (loading_token (VariantB.options this)) = None ->
  forall w, exists w',
    VariantB.getSvg_until_await this w = (Normal (dataset (element w) !! "src"), w')
    /\ requests w' = (requests w ++ [dataset (element w) !! "src"])%list.
Proof.
  intros Hv w. eexists. split; [by apply until_awaitB|]. apply requests_loading.
Qed.

Lemma requests_after_add lc w :
  requests (mkWorld (element w) (page w) (inlineSvg w) (trace w ++ [ClassListAdd lc]))
  = requests w.
Proof. unfold requests. simpl. rewrite omap_app. simpl. by rewrite app_nil_r. Qed.

Lemma until_awaitA_throws this e :
  DOMTokenList.validate (loading_token (VariantA.options this)) = Some e ->
  forall w, exists e' w',
    VariantA.getSvg_until_await this w = (Throw e', w') /\ requests w' = requests w.
Proof.
  intros Hv w. unfold VariantA.getSvg_until_await, bind, get.
  rewrite (classList_add_invalid _ e) by exact Hv.
  eexists _, _. split; [reflexivity|]. apply requests_after_add.
Qed.

Lemma until_awaitB_throws this e :
  DOMTokenList.validate (loading_token (VariantB.options this)) = Some e ->
  forall w, exists e' w',
    VariantB.getSvg_until_await this w = (Throw e', w') /\ requests w' = requests w.
Proof.
  intros Hv w. unfold VariantB.getSvg_until_await, bind, get.
  rewrite (classList_add_invalid _ e) by exact Hv.
  eexists _, _. split; [reflexivity|]. apply requests_after_add.
Qed.

End ObserverRunInstances.

(** As long as no callback reports the element as intersecting, nothing
    happens at all: no class is added, no request is made, and the
    observer keeps watching.  There is no timeout that would load the
    image anyway. *)
Theorem element_out_of_view_is_left_alone
    (browser : Browser) (thisA : VariantA.Loader) (thisB : VariantB.Loader)
    (w : World) (evs : list browser_event) :
  never_intersects evs ->
  ObserverA.run_events browser thisA evs (observe w) = observe w
  /\ ObserverB.run_events browser thisB evs (observe w) = observe w.
Proof.
  intros Hnever. split.
  - by apply (run_never_intersects _ _ browser evs (observe w) Hnever).
  - by apply (run_never_intersects _ _ browser evs (observe w) Hnever).
Qed.

Lemma element_out_of_view_is_left_alone_witness :
  never_intersects MoreSamples.out_of_view
  /\ ObserverA.run_events Samples.browser_ok Samples.loaderA MoreSamples.out_of_view
       (observe Samples.start_plain) = observe Samples.start_plain
  /\ ObserverB.run_events Samples.browser_ok Samples.loaderB MoreSamples.out_of_view
       (observe Samples.start_plain) = observe Samples.start_plain.
Proof.
  assert (Hnever : never_intersects MoreSamples.out_of_view).
  { unfold never_intersects, MoreSamples.out_of_view.
    repeat (apply Forall_cons; split); try apply Forall_nil_2; vm_compute; done. }
  split; [exact Hnever|].
  exact (element_out_of_view_is_left_alone Samples.browser_ok Samples.loaderA
           Samples.loaderB Samples.start_plain MoreSamples.out_of_view Hnever).
Defined.

(** With a loading class the class list accepts, and callbacks that
    report the element at most once each, the run makes exactly one
    request when some callback reports an intersection, and none
    otherwise; the request goes to the URL in the placeholder's
    [data-src] at the time of the report. *)
Theorem observed_element_is_fetched_exactly_once
    (browser : Browser) (thisA : VariantA.Loader) (thisB : VariantB.Loader)
    (w : World) (evs : list browser_event) :
  DOMTokenList.validate (loading_token (VariantA.options thisA)) = None ->
  DOMTokenList.validate (loading_token (VariantB.options thisB)) = None ->
  single_reports evs ->
  requests (world (ObserverA.run_events browser thisA evs (observe w)))
  = (requests w
     ++ (if ever_intersects evs then [dataset (element w) !! "src"] else []))%list
  /\ requests (world (ObserverB.run_events browser thisB evs (observe w)))
     = (requests w
        ++ (if ever_intersects evs then [dataset (element w) !! "src"] else []))%list.
Proof.
  intros HvA HvB Hsingle. split.
  - apply (run_single_reports_requests _ _ browser
             (ObserverInstances.after_awaitA_no_request browser thisA)
             (ObserverRunInstances.until_awaitA_issues thisA HvA)
             evs (observe w) Hsingle); done.
  - apply (run_single_reports_requests _ _ browser
             (ObserverInstances.after_awaitB_no_request browser thisB)
             (ObserverRunInstances.until_awaitB_issues thisB HvB)
             evs (observe w) Hsingle); done.
Qed.

Lemma observed_element_is_fetched_exactly_once_witness :
  DOMTokenList.validate (loading_token (VariantA.options Samples.loaderA)) = None
  /\ DOMTokenList.validate (loading_token (VariantB.options Samples.loaderB)) = None
  /\ single_reports Samples.scroll_by
  /\ requests (world (ObserverA.run_events Samples.browser_ok Samples.loaderA
                        Samples.scroll_by (observe Samples.start_plain)))
     = [Some "a.svg"]
  /\ requests (world (ObserverB.run_events Samples.browser_ok Samples.loaderB
                        Samples.scroll_by (observe Samples.start_plain)))
     = [Some "a.svg"].
Proof.
  assert (HvA : DOMTokenList.validate (loading_token (VariantA.options Samples.loaderA))
                = None) by (vm_compute; reflexivity).
  assert (HvB : DOMTokenList.validate (loading_token (VariantB.options Samples.loaderB))
                = None) by (vm_compute; reflexivity).
  assert (Hsingle : single_reports Samples.scroll_by).
  { unfold single_reports, Samples.scroll_by.
    repeat (apply Forall_cons; split); try apply Forall_nil_2; vm_compute; lia. }
  destruct (observed_element_is_fetched_exactly_once Samples.browser_ok
              Samples.loaderA Samples.loaderB Samples.start_plain Samples.scroll_by
              HvA HvB Hsingle) as [HA HB].
  split; [exact HvA|]. split; [exact HvB|]. split; [exact Hsingle|].
  rewrite HA, HB. split; vm_compute; reflexivity.
Defined.

(** A loading class the class list refuses - the empty string, or text
    with white space in it - stops [getSvg] at [classList.add], outside
    its [try]: the call ends in that exception, with the class list and
    the page as they were and without a request.  The callback still
    releases the observer, so such an element is never fetched, whatever
    the browser reports afterwards. *)
Theorem refused_loading_class_prevents_every_fetch
    (browser : Browser) (thisA : VariantA.Loader) (thisB : VariantB.Loader)
    (w : World) (eA eB : js_error) :
  DOMTokenList.validate (loading_token (VariantA.options thisA)) = Some eA ->
  DOMTokenList.validate (loading_token (VariantB.options thisB)) = Some eB ->
  VariantA.getSvg browser thisA w
  = (Throw eA,
     mkWorld (element w) (page w) (inlineSvg w)
       (trace w ++ [ClassListAdd (VariantA.options thisA !! "loadingClass")]))
  /\ VariantB.getSvg browser thisB w
     = (Throw eB,
        mkWorld (element w) (page w) (inlineSvg w)
          (trace w ++ [ClassListAdd (VariantB.options thisB !! "loadingClass")]))
  /\ (forall evs,
        requests (world (ObserverA.run_events browser thisA evs (observe w)))
        = requests w
        /\ requests (world (ObserverB.run_events browser thisB evs (observe w)))
           = requests w)
  /\ (forall entries,
        (0 < intersecting entries)%nat ->
        observing (ObserverA.deliver browser thisA (Intersections entries) (observe w))
        = false
        /\ observing (ObserverB.deliver browser thisB (Intersections entries) (observe w))
           = false).
Proof.
  intros HvA HvB. split; [|split; [|split]].
  - unfold VariantA.getSvg, bind, get.
    by rewrite (GetSvgFacts.classList_add_invalid _ eA) by exact HvA.
  - unfold VariantB.getSvg, bind, get.
    by rewrite (GetSvgFacts.classList_add_invalid _ eB) by exact HvB.
  - intros evs. split.
    + apply (run_throws_requests _ _ browser
               (ObserverInstances.after_awaitA_no_request browser thisA)
               (ObserverRunInstances.until_awaitA_throws thisA eA HvA)).
    + apply (run_throws_requests _ _ browser
               (ObserverInstances.after_awaitB_no_request browser thisB)
               (ObserverRunInstances.until_awaitB_throws thisB eB HvB)).
  - intros entries Hpos. split.
    + destruct (deliver_intersections _ (VariantA.getSvg_after_await browser thisA)
                  browser (ObserverInstances.until_awaitA_one_request thisA)
                  entries (observe w) eq_refl) as [Hobs _].
      unfold ObserverA.deliver. rewrite Hobs.
      destruct (intersecting entries); [lia|done].
    + destruct (deliver_intersections _ (VariantB.getSvg_after_await browser thisB)
                  browser (ObserverInstances.until_awaitB_one_request thisB)
                  entries (observe w) eq_refl) as [Hobs _].
      unfold ObserverB.deliver. rewrite Hobs.
      destruct (intersecting entries); [lia|done].
Qed.

Lemma refused_loading_class_prevents_every_fetch_witness :
  DOMTokenList.validate (loading_token (VariantA.options MoreSamples.loaderA_two_words))
  = Some (DOMException "InvalidCharacterError")
  /\ DOMTokenList.validate (loading_token (VariantB.options MoreSamples.loaderB_two_words))
     = Some (DOMException "InvalidCharacterError")
  /\ fst (VariantA.getSvg Samples.browser_ok MoreSamples.loaderA_two_words
            Samples.start_plain)
     = Throw (DOMException "InvalidCharacterError")
  /\ requests (world (ObserverB.run_events Samples.browser_ok
                        MoreSamples.loaderB_two_words Samples.scroll_by
                        (observe Samples.start_plain)))
     = [].
Proof.
  assert (HvA : DOMTokenList.validate
                  (loading_token (VariantA.options MoreSamples.loaderA_two_words))
                = Some (DOMException "InvalidCharacterError"))
    by (vm_compute; reflexivity).
  assert (HvB : DOMTokenList.validate
                  (loading_token (VariantB.options MoreSamples.loaderB_two_words))
                = Some (DOMException "InvalidCharacterError"))
    by (vm_compute; reflexivity).
  destruct (refused_loading_class_prevents_every_fetch Samples.browser_ok
              MoreSamples.loaderA_two_words MoreSamples.loaderB_two_words
              Samples.start_plain _ _ HvA HvB) as (HA & _ & Hnone & _).
  split; [exact HvA|]. split; [exact HvB|]. split.
  - by rewrite HA.
  - exact (proj2 (Hnone Samples.scroll_by)).
Defined.

(** ** The swap *)

Module SwapMore.
Import WorldFacts PipelineFacts.

(** Variant A's [replaceImgWithSvg], method by method, is the four steps
    on [this.inlineSvg] followed by the guarded [replaceChild]. *)
Lemma replaceImgWithSvgA_unfolded w :
  VariantA.replaceImgWithSvg w
  = match sanitize (element w) (inlineSvg w) with
    | (Throw e, svg) => (Throw e, set_inlineSvg svg w)
    | (Normal _, svg) =>
        when (has_parentNode w) (replaceChild svg) (set_inlineSvg svg w)
    end.
Proof.
  unfold VariantA.replaceImgWithSvg, VariantA.removeAttrs, VariantA.removeScripts,
    VariantA.addAttrs, VariantA.setSvgSize, sanitize, bind, get,
    VariantA.on_inlineSvg, set_inlineSvg.
  destruct (Sanitizer.removeAttrs (element w) (inlineSvg w)) as [[[]|e] svg1]; [|done].
  cbn [element inlineSvg page trace].
  destruct (Sanitizer.removeScripts (element w) svg1) as [[[]|e] svg2]; [|done].
  cbn [element inlineSvg page trace].
  destruct (Sanitizer.addAttrs (element w) svg2) as [[[]|e] svg3]; [|done].
  cbn [element inlineSvg page trace].
  rewrite FlagFacts.setSvgSize_forEach_same.
  destruct (Sanitizer.setSvgSize (element w) svg3) as [[[]|e] svg4]; [|done].
  reflexivity.
Qed.

Lemma replaceImgWithSvgB_unfolded browser svgString w :
  VariantB.replaceImgWithSvg browser svgString w
  = let w1 := mkWorld (element w) (page w) (inlineSvg w)
                (trace w ++ [ParseFromString svgString]) in
    match sanitize (element w)
            (Dom.querySelector "svg" (parseFromString browser svgString)) with
    | (Throw e, _) => (Throw e, w1)
    | (Normal _, svg) => when (has_parentNode w) (replaceChild svg) w1
    end.
Proof.
  unfold VariantB.replaceImgWithSvg.
  rewrite bind_run, parse_run, bind_run. unfold get at 1.
  cbn [element page trace inlineSvg]. fold (sanitize (element w)).
  by destruct (sanitize (element w) _) as [[[]|e] svg].
Qed.

Lemma put_in_place_detaches svg children :
  existsb is_placeholder (put_in_place svg children) = false.
Proof.
  induction children as [|c l IH]; [done|]. simpl. rewrite IH. by destruct c.
Qed.

Lemma put_in_place_absent svg children :
  existsb is_placeholder children = false -> put_in_place svg children = children.
Proof.
  induction children as [|c l IH]; [done|]. simpl.
  intros [Hc Hl]%orb_false_iff. rewrite Hc. f_equal. by apply IH.
Qed.

Lemma put_in_place_length svg children :
  List.length (put_in_place svg children) = List.length children.
Proof. apply length_map. Qed.

Lemma put_in_place_lookup svg children (i : nat) c :
  children !! i = Some c ->
  put_in_place svg children !! i = Some (if is_placeholder c then Inserted svg else c).
Proof.
  revert i. induction children as [|c0 l IH]; intros [|i]; simpl; try done.
  - by intros [= ->].
  - apply IH.
Qed.

End SwapMore.

Module PageFacts.
Import WorldFacts PipelineFacts SwapMore.

Global Instance page_moves_preorder : PreOrder page_moves.
Proof.
  split.
  - intros w. by left.
  - intros w1 w2 w3 [H12|(svg & Hp & H12)] [H23|(svg' & Hp' & H23)].
    + left. congruence.
    + right. exists svg'. unfold has_parentNode in *. rewrite H12 in *. done.
    + right. exists svg. split; [done|]. congruence.
    + unfold has_parentNode in Hp'. rewrite H12 in Hp'.
      by rewrite put_in_place_detaches in Hp'.
Qed.

Lemma same_page_moves {A} (m : M World A) :
  (forall w r w', m w = (r, w') -> page w' = page w) -> respects page_moves m.
Proof. intros Hm w r w' Hrun. left. eapply Hm, Hrun. Qed.

Lemma log_moves e : respects page_moves (log e).
Proof. apply same_page_moves. by intros w r w' [= <- <-]. Qed.

Lemma classList_add_moves arg : respects page_moves (classList_add arg).
Proof.
  apply same_page_moves. intros w r w'. unfold classList_add, bind, log, modify.
  simpl. destruct (DOMTokenList.validate _); by intros [= <- <-].
Qed.

Lemma classList_remove_moves arg : respects page_moves (classList_remove arg).
Proof.
  apply same_page_moves. intros w r w'. unfold classList_remove, bind, log, modify.
  simpl. destruct (DOMTokenList.validate _); by intros [= <- <-].
Qed.

Lemma await_fetch_moves browser src : respects page_moves (await_fetch browser src).
Proof.
  apply same_page_moves. intros w r w'. unfold await_fetch, bind, log, modify.
  simpl. destruct (fetch browser src); by intros [= <- <-].
Qed.

Lemma await_text_moves response : respects page_moves (await_text response).
Proof.
  apply same_page_moves. intros w r w'. unfold await_text, bind, log, modify.
  simpl. destruct (body response); by intros [= <- <-].
Qed.

Lemma parse_moves browser text : respects page_moves (parseSvgStringToHtml browser text).
Proof. apply same_page_moves. by intros w r w' [= <- <-]. Qed.

Lemma replaceChild_moves svg : respects page_moves (replaceChild svg).
Proof.
  destruct svg as [n|]; [|apply respects_throw; apply _].
  intros w r w' [= <- <-]. simpl.
  destruct (has_parentNode w) eqn:Hp.
  - right. by exists n.
  - left. by apply put_in_place_absent.
Qed.

Lemma replaceImgWithSvgA_moves : respects page_moves VariantA.replaceImgWithSvg.
Proof.
  intros w r w'. rewrite replaceImgWithSvgA_unfolded.
  destruct (sanitize (element w) (inlineSvg w)) as [[[]|e] svg].
  - destruct (has_parentNode w) eqn:Hp; simpl.
    + intros Hrun. apply replaceChild_moves in Hrun. exact Hrun.
    + intros [= <- <-]. by left.
  - intros [= <- <-]. by left.
Qed.

Lemma replaceImgWithSvgB_moves browser text :
  respects page_moves (VariantB.replaceImgWithSvg browser text).
Proof.
  intros w r w'. rewrite replaceImgWithSvgB_unfolded. cbv zeta.
  destruct (sanitize (element w) _) as [[[]|e] svg].
  - destruct (has_parentNode w) eqn:Hp; simpl.
    + intros Hrun. apply replaceChild_moves in Hrun.
      destruct Hrun as [Hsame|(n & Hp' & Hput)]; [by left|right; by exists n].
    + intros [= <- <-]. by left.
  - intros [= <- <-]. by left.
Qed.

Lemma getSvgA_moves browser this : respects page_moves (VariantA.getSvg browser this).
Proof.
  unfold VariantA.getSvg.
  step_bind; [apply respects_get; apply _|].
  step_bind; [apply classList_add_moves|].
  apply respects_try_finally; [apply _| |apply classList_remove_moves].
  apply respects_try_catch; [apply _| |intros e; apply log_moves].
  step_bind; [apply await_fetch_moves|].
  apply respects_when; [apply _|].
  step_bind; [apply await_text_moves|].
  step_bind; [apply parse_moves|].
  step_bind; [apply same_page_moves; by intros w r w' [= <- <-]|].
  apply replaceImgWithSvgA_moves.
Qed.

Lemma getSvgB_moves browser this : respects page_moves (VariantB.getSvg browser this).
Proof.
  unfold VariantB.getSvg.
  step_bind; [apply respects_get; apply _|].
  step_bind; [apply classList_add_moves|].
  apply respects_try_catch; [apply _| |intros e; apply log_moves].
  step_bind; [apply await_fetch_moves|].
  apply respects_when; [apply _|].
  step_bind; [apply await_text_moves|].
  apply replaceImgWithSvgB_moves.
Qed.

Lemma page_moves_keeps_siblings w w' : page_moves w w' -> siblings_kept w w'.
Proof.
  intros [Hsame|(svg & Hp & Hput)]; unfold siblings_kept.
  - rewrite Hsame. done.
  - rewrite Hput. split; [apply put_in_place_length|]. split.
    + intros i c Hi Hc. rewrite (put_in_place_lookup svg _ i c Hi). by rewrite Hc.
    + congruence.
Qed.

End PageFacts.

(** Whatever the request and the sanitizer do, [getSvg] changes the
    child list the placeholder hangs in at no position but the
    placeholder's own: the list keeps its length, every other child stays
    at its index, and when the placeholder has no parent the list is not
    touched at all. *)
Theorem getSvg_keeps_the_siblings
    (browser : Browser) (thisA : VariantA.Loader) (thisB : VariantB.Loader)
    (w : World) :
  siblings_kept w (snd (VariantA.getSvg browser thisA w))
  /\ siblings_kept w (snd (VariantB.getSvg browser thisB w)).
Proof.
  split; apply PageFacts.page_moves_keeps_siblings.
  - destruct (VariantA.getSvg browser thisA w) as [r w'] eqn:Hrun.
    eapply PageFacts.getSvgA_moves, Hrun.
  - destruct (VariantB.getSvg browser thisB w) as [r w'] eqn:Hrun.
    eapply PageFacts.getSvgB_moves, Hrun.
Qed.

Lemma getSvg_keeps_the_siblings_witness :
  has_parentNode (Samples.detached {[ "src" := "a.svg" ]}) = false
  /\ page (snd (VariantB.getSvg Samples.browser_ok Samples.loaderB
                  (Samples.detached {[ "src" := "a.svg" ]}))) = []
  /\ page Samples.start_all !! 2%nat = Some (Sibling 1)
  /\ is_placeholder (Sibling 1) = false
  /\ page (snd (VariantA.getSvg Samples.browser_ok Samples.loaderA Samples.start_all))
       !! 2%nat = Some (Sibling 1).
Proof.
  assert (Hdet : has_parentNode (Samples.detached {[ "src" := "a.svg" ]}) = false)
    by reflexivity.
  assert (Hsib : page Samples.start_all !! 2%nat = Some (Sibling 1)) by reflexivity.
  assert (Hnot : is_placeholder (Sibling 1) = false) by reflexivity.
  destruct (getSvg_keeps_the_siblings Samples.browser_ok Samples.loaderA Samples.loaderB
              (Samples.detached {[ "src" := "a.svg" ]})) as [_ (_ & _ & Hdetached)].
  destruct (getSvg_keeps_the_siblings Samples.browser_ok Samples.loaderA Samples.loaderB
              Samples.start_all) as [(_ & Hkept & _) _].
  split; [exact Hdet|]. split; [exact (Hdetached Hdet)|]. split; [exact Hsib|].
  split; [exact Hnot|]. exact (Hkept 2%nat (Sibling 1) Hsib Hnot).
Defined.

Module SwapRun.
Import PipelineFacts SwapMore.

(** The steps read the placeholder's data and size, not its classes. *)
Lemma sanitize_ignores_classes el classes :
  sanitize (mkPlaceholder (dataset el) classes (width el) (height el)) = sanitize el.
Proof. by destruct el. Qed.

End SwapRun.

(** The successful run.  When the response is ok, its text has an SVG
    root, the four steps complete on it and the placeholder has a parent,
    [getSvg] puts the sanitized root exactly where the placeholder stood
    and logs nothing: the placeholder is out of the list afterwards, so
    it has no parent any more.  Variant A has then removed the loading
    class from the detached placeholder and keeps the root in
    [this.inlineSvg]. *)
Theorem getSvg_swaps_the_sanitized_root_in_place
    (browser : Browser) (thisA : VariantA.Loader) (thisB : VariantB.Loader)
    (w : World) (response : Response) (text : string) (root svg : node) :
  DOMTokenList.validate (loading_token (VariantA.options thisA)) = None ->
  DOMTokenList.validate (loading_token (VariantB.options thisB)) = None ->
  fetch browser (dataset (element w) !! "src") = Fulfilled response ->
  ok response = true ->
  body response = BodyText text ->
  Dom.querySelector "svg" (parseFromString browser text) = Some root ->
  sanitize (element w) (Some root) = (Normal tt, Some svg) ->
  has_parentNode w = true ->
  VariantA.getSvg browser thisA w
  = (Normal tt,
     mkWorld
       (mkPlaceholder (dataset (element w))
          (DOMTokenList.remove (loading_token (VariantA.options thisA))
             (DOMTokenList.add (loading_token (VariantA.options thisA))
                (classList (element w))))
          (width (element w)) (height (element w)))
       (put_in_place svg (page w)) (Some svg)
       (trace w ++ [ClassListAdd (VariantA.options thisA !! "loadingClass");
                    FetchCall (dataset (element w) !! "src");
                    ResponseText; ParseFromString text; ReplaceChild svg;
                    ClassListRemove (VariantA.options thisA !! "loadingClass")]))
  /\ VariantB.getSvg browser thisB w
     = (Normal tt,
        mkWorld
          (mkPlaceholder (dataset (element w))
             (DOMTokenList.add (loading_token (VariantB.options thisB))
                (classList (element w)))
             (width (element w)) (height (element w)))
          (put_in_place svg (page w)) (inlineSvg w)
          (trace w ++ [ClassListAdd (VariantB.options thisB !! "loadingClass");
                       FetchCall (dataset (element w) !! "src");
                       ResponseText; ParseFromString text; ReplaceChild svg]))
  /\ existsb is_placeholder (put_in_place svg (page w)) = false
  /\ List.length (put_in_place svg (page w)) = List.length (page w)
  /\ (forall i : nat,
         page w !! i = Some ThePlaceholder ->
         put_in_place svg (page w) !! i = Some (Inserted svg)).
Proof.
  intros HvA HvB Hfetch Hok Hbody Hroot Hsan Hparent.
  split; [|split; [|split; [apply SwapMore.put_in_place_detaches|split;
    [apply SwapMore.put_in_place_length|]]]].
  - rewrite PipelineFacts.getSvgA_split. unfold bind at 1.
    rewrite PipelineFacts.until_awaitA by exact HvA.
    unfold VariantA.getSvg_after_await, try_finally, try_catch.
    remember (classList_remove (VariantA.options thisA !! "loadingClass"))
      as cleanup eqn:Hcleanup.
    unfold bind at 1. rewrite Hfetch. simpl. rewrite Hok. simpl.
    unfold bind at 1. unfold await_text at 1. unfold bind at 1. simpl.
    rewrite Hbody. simpl.
    unfold bind at 1. unfold parseSvgStringToHtml at 1. unfold bind at 1. simpl.
    rewrite Hroot. unfold bind at 1. simpl.
    rewrite SwapMore.replaceImgWithSvgA_unfolded.
    unfold set_inlineSvg. cbn [element inlineSvg page trace].
    rewrite SwapRun.sanitize_ignores_classes, Hsan.
    unfold has_parentNode in *. cbn [element inlineSvg page trace].
    rewrite Hparent. unfold when, replaceChild, bind, log, modify. simpl.
    subst cleanup. rewrite PipelineFacts.classList_remove_valid by exact HvA.
    unfold cleaned, loading_token. simpl. by rewrite <- !app_assoc.
  - rewrite PipelineFacts.getSvgB_split. unfold bind at 1.
    rewrite PipelineFacts.until_awaitB by exact HvB.
    unfold VariantB.getSvg_after_await, try_catch.
    unfold bind at 1. rewrite Hfetch. simpl. rewrite Hok. simpl.
    unfold bind at 1. unfold await_text at 1. unfold bind at 1. simpl.
    rewrite Hbody. simpl.
    rewrite SwapMore.replaceImgWithSvgB_unfolded.
    cbn [element inlineSvg page trace]. cbv zeta.
    rewrite Hroot, SwapRun.sanitize_ignores_classes, Hsan.
    unfold has_parentNode in *. cbn [element inlineSvg page trace].
    rewrite Hparent. unfold when, replaceChild, bind, log, modify. simpl.
    unfold loading_token. by rewrite <- !app_assoc.
  - intros i Hi. by rewrite (SwapMore.put_in_place_lookup svg _ i _ Hi).
Qed.

Lemma getSvg_swaps_the_sanitized_root_in_place_witness :
  DOMTokenList.validate (loading_token (VariantA.options Samples.loaderA)) = None
  /\ DOMTokenList.validate (loading_token (VariantB.options Samples.loaderB)) = None
  /\ fetch Samples.browser_ok (dataset (element Samples.start_all) !! "src")
     = Fulfilled MoreSamples2.response_ok
  /\ ok MoreSamples2.response_ok = true
  /\ body MoreSamples2.response_ok = BodyText "<svg/>"
  /\ Dom.querySelector "svg" (parseFromString Samples.browser_ok "<svg/>")
     = Some Samples.svg_root
  /\ sanitize (element Samples.start_all) (Some Samples.svg_root)
     = (Normal tt, Some MoreSamples2.sanitized_root)
  /\ has_parentNode Samples.start_all = true
  /\ page (snd (VariantA.getSvg Samples.browser_ok Samples.loaderA Samples.start_all))
     = [Sibling 0; Inserted MoreSamples2.sanitized_root; Sibling 1]
  /\ page (snd (VariantB.getSvg Samples.browser_ok Samples.loaderB Samples.start_all))
     = [Sibling 0; Inserted MoreSamples2.sanitized_root; Sibling 1].
Proof.
  assert (HvA : DOMTokenList.validate (loading_token (VariantA.options Samples.loaderA))
                = None) by (vm_compute; reflexivity).
  assert (HvB : DOMTokenList.validate (loading_token (VariantB.options Samples.loaderB))
                = None) by (vm_compute; reflexivity).
  assert (Hfetch : fetch Samples.browser_ok (dataset (element Samples.start_all) !! "src")
                   = Fulfilled MoreSamples2.response_ok) by reflexivity.
  assert (Hok : ok MoreSamples2.response_ok = true) by reflexivity.
  assert (Hbody : body MoreSamples2.response_ok = BodyText "<svg/>") by reflexivity.
  assert (Hroot : Dom.querySelector "svg" (parseFromString Samples.browser_ok "<svg/>")
                  = Some Samples.svg_root) by (vm_compute; reflexivity).
  assert (Hsan : sanitize (element Samples.start_all) (Some Samples.svg_root)
                 = (Normal tt, Some MoreSamples2.sanitized_root))
    by (vm_compute; reflexivity).
  assert (Hparent : has_parentNode Samples.start_all = true) by reflexivity.
  destruct (getSvg_swaps_the_sanitized_root_in_place Samples.browser_ok
              Samples.loaderA Samples.loaderB Samples.start_all
              MoreSamples2.response_ok "<svg/>" Samples.svg_root
              MoreSamples2.sanitized_root
              HvA HvB Hfetch Hok Hbody Hroot Hsan Hparent) as (HA & HB & _).
  split; [exact HvA|]. split; [exact HvB|]. split; [exact Hfetch|].
  split; [exact Hok|]. split; [exact Hbody|]. split; [exact Hroot|].
  split; [exact Hsan|]. split; [exact Hparent|].
  rewrite HA, HB. split; reflexivity.
Defined.

(** ** The two variants side by side *)

Module Agreement.
Import PipelineFacts SwapMore.

Lemma set_inlineSvg_same w : set_inlineSvg (inlineSvg w) w = w.
Proof. by destruct w. Qed.

(** After the request has settled, variant A does what variant B does,
    keeps the parsed root in [this.inlineSvg] and removes the class. *)
Lemma after_await_agree browser thisA thisB outcome w :
  DOMTokenList.validate (loading_token (VariantA.options thisA)) = None ->
  exists svg,
    VariantA.getSvg_after_await browser thisA outcome w
    = (fst (VariantB.getSvg_after_await browser thisB outcome w),
       cleaned (VariantA.options thisA !! "loadingClass")
         (set_inlineSvg svg
            (snd (VariantB.getSvg_after_await browser thisB outcome w)))).
Proof.
  intros Hv.
  assert (Hbody : exists svg,
    try_catch
      (let* response := settled (fetch_promise outcome) in
       when (ok response)
         (let* resultSvg := await_text response in
          let* svg := parseSvgStringToHtml browser resultSvg in
          let* _ := modify (set_inlineSvg svg) in
          VariantA.replaceImgWithSvg))
      (fun error => console_error error) w
    = (fst (VariantB.getSvg_after_await browser thisB outcome w),
       set_inlineSvg svg (snd (VariantB.getSvg_after_await browser thisB outcome w)))).
  { unfold VariantB.getSvg_after_await, try_catch.
    rewrite !bind_run.
    destruct outcome as [response|reason]; simpl;
      [|exists (inlineSvg w); unfold console_error, log, modify, set_inlineSvg; done].
    destruct (ok response); simpl;
      [|exists (inlineSvg w); by rewrite set_inlineSvg_same].
    rewrite !bind_run. unfold await_text. rewrite !bind_run. simpl.
    destruct (body response) as [text|reason]; simpl;
      [|exists (inlineSvg w); unfold console_error, log, modify, set_inlineSvg; done].
    rewrite !bind_run, parse_run, bind_run. simpl.
    rewrite replaceImgWithSvgA_unfolded, replaceImgWithSvgB_unfolded.
    unfold set_inlineSvg, has_parentNode. cbn [element inlineSvg page trace]. cbv zeta.
    destruct (sanitize (element w) _) as [[[]|e] svg].
    - exists svg. destruct (existsb is_placeholder (page w)); simpl; [|done].
      destruct svg as [n|]; simpl;
        unfold console_error, replaceChild, bind, log, modify, throw; simpl; done.
    - exists svg. unfold console_error, log, modify. simpl. done. }
  destruct Hbody as [svg Hbody]. exists svg.
  unfold VariantA.getSvg_after_await, try_finally. rewrite Hbody.
  by rewrite classList_remove_valid by exact Hv.
Qed.

End Agreement.

(** The two variants do the same thing to the page.  With the same
    options and a loading class the class list accepts, both complete
    normally and agree on the child list, on the placeholder's data and
    size, on what is logged and on the requests; variant A's trace is
    variant B's followed by the one [classList.remove], and its class
    list is variant B's without the loading class. *)
Theorem variants_differ_only_in_the_cleanup
    (browser : Browser) (thisA : VariantA.Loader) (thisB : VariantB.Loader)
    (w : World) :
  VariantA.options thisA = VariantB.options thisB ->
  DOMTokenList.validate (loading_token (VariantA.options thisA)) = None ->
  exists wA wB,
    VariantA.getSvg browser thisA w = (Normal tt, wA)
    /\ VariantB.getSvg browser thisB w = (Normal tt, wB)
    /\ page wA = page wB
    /\ trace wA
       = (trace wB ++ [ClassListRemove (VariantA.options thisA !! "loadingClass")])%list
    /\ console wA = console wB
    /\ requests wA = requests wB
    /\ dataset (element wA) = dataset (element wB)
    /\ width (element wA) = width (element wB)
    /\ height (element wA) = height (element wB)
    /\ classList (element wA)
       = DOMTokenList.remove (loading_token (VariantA.options thisA))
           (classList (element wB)).
Proof.
  intros Hopt HvA.
  assert (HvB : DOMTokenList.validate (loading_token (VariantB.options thisB)) = None)
    by (by rewrite <- Hopt).
  destruct (GetSvgFacts.getSvgB_runs browser thisB w HvB) as (wB & HB & _).
  pose proof HB as HB'.
  rewrite PipelineFacts.getSvgB_split in HB'. unfold bind in HB'.
  rewrite PipelineFacts.until_awaitB in HB' by exact HvB.
  destruct (Agreement.after_await_agree browser thisA thisB
              (fetch browser (dataset (element w) !! "src"))
              (loading (VariantA.options thisA !! "loadingClass")
                 (dataset (element w) !! "src") w) HvA) as [svg HA].
  rewrite Hopt in HA. rewrite HB' in HA. simpl in HA.
  eexists _, wB. split.
  - rewrite PipelineFacts.getSvgA_split. unfold bind.
    rewrite PipelineFacts.until_awaitA by exact HvA. rewrite Hopt. exact HA.
  - split; [exact HB|]. unfold console, requests, loading_token. simpl.
    rewrite !omap_app. simpl. rewrite !app_nil_r. by rewrite Hopt.
Qed.

Lemma variants_differ_only_in_the_cleanup_witness :
  VariantA.options Samples.loaderA = VariantB.options Samples.loaderB
  /\ DOMTokenList.validate (loading_token (VariantA.options Samples.loaderA)) = None
  /\ exists wA wB,
       VariantA.getSvg Samples.browser_ok Samples.loaderA Samples.start_all
       = (Normal tt, wA)
       /\ VariantB.getSvg Samples.browser_ok Samples.loaderB Samples.start_all
          = (Normal tt, wB)
       /\ page wA = page wB
       /\ console wA = console wB.
Proof.
  assert (Hopt : VariantA.options Samples.loaderA = VariantB.options Samples.loaderB)
    by reflexivity.
  assert (Hv : DOMTokenList.validate (loading_token (VariantA.options Samples.loaderA))
               = None) by (vm_compute; reflexivity).
  destruct (variants_differ_only_in_the_cleanup Samples.browser_ok Samples.loaderA
              Samples.loaderB Samples.start_all Hopt Hv)
    as (wA & wB & HA & HB & Hpage & _ & Hconsole & _).
  split; [exact Hopt|]. split; [exact Hv|].
  exists wA, wB. split; [exact HA|]. split; [exact HB|]. split; [exact Hpage|exact Hconsole].
Defined.

(** ** More on script removal *)

Module ScriptFacts.
Import Dom DomFacts Sanitizer SanitizerModel SanitizerFacts.

Lemma remove_named_unmatched p names n :
  (forall name, name ∈ names -> p name = false) ->
  remove_named p names n = n.
Proof.
  revert n. induction names as [|x l IH]; intros n Hp; [done|].
  rewrite remove_named_cons, (Hp x) by left.
  apply IH. intros name Hin. apply Hp. by right.
Qed.

Lemma without_scripts_again root :
  without_scripts (without_scripts root) = without_scripts root.
Proof.
  unfold without_scripts at 1. rewrite (without_scripts_no_script root).
  assert (Hprune : prune (listed []) (without_scripts root) = without_scripts root).
  { rewrite <- (prune_none (without_scripts root)) at 2. by apply prune_ext. }
  rewrite Hprune. apply remove_named_unmatched.
  intros name Hin. apply elem_of_getAttributeNames in Hin as [v Hv].
  rewrite without_scripts_attributes in Hv.
  by destruct (starts_with_on name).
Qed.

Lemma star_some p s : exists rest, Regex.star p Some s = Some rest.
Proof.
  induction s as [|c s [rest IH]]; [by exists EmptyString|].
  simpl. destruct (p c); [|by eexists]. rewrite IH. by eexists.
Qed.

Lemma lower_is_o c :
  Ascii.eqb (JsString.ascii_lower c) "o" = Ascii.eqb c "o" || Ascii.eqb c "O".
Proof. by destruct c as [[] [] [] [] [] [] [] []]. Qed.

Lemma lower_is_n c :
  Ascii.eqb (JsString.ascii_lower c) "n" = Ascii.eqb c "n" || Ascii.eqb c "N".
Proof. by destruct c as [[] [] [] [] [] [] [] []]. Qed.

End ScriptFacts.

(** Script removal is idempotent: a root that has been through
    [removeScripts] comes out of a second [removeScripts] unchanged. *)
Theorem removeScripts_twice_is_once (imageEl : Placeholder) (root : node) :
  truthy (dataset imageEl !! "removeScripts") = true ->
  exists root',
    Sanitizer.removeScripts imageEl (Some root) = (Normal tt, Some root')
    /\ Sanitizer.removeScripts imageEl (Some root') = (Normal tt, Some root').
Proof.
  intros Hflag. exists (SanitizerModel.without_scripts root).
  rewrite !(SanitizerFacts.removeScripts_enabled imageEl) by exact Hflag.
  split; [done|]. by rewrite ScriptFacts.without_scripts_again.
Qed.

Lemma removeScripts_twice_is_once_witness :
  truthy (dataset (Samples.img {[ "removeScripts" := "1" ]}) !! "removeScripts") = true
  /\ exists root',
       Sanitizer.removeScripts (Samples.img {[ "removeScripts" := "1" ]})
         (Some Samples.svg_root) = (Normal tt, Some root')
       /\ Sanitizer.removeScripts (Samples.img {[ "removeScripts" := "1" ]})
            (Some root') = (Normal tt, Some root').
Proof.
  assert (Hflag : truthy (dataset (Samples.img {[ "removeScripts" := "1" ]})
                            !! "removeScripts") = true) by (vm_compute; reflexivity).
  split; [exact Hflag|].
  exact (removeScripts_twice_is_once (Samples.img {[ "removeScripts" := "1" ]})
           Samples.svg_root Hflag).
Defined.

(** The test [attr.match(/^on\w*/i)] looks at the first two letters
    only: it holds exactly for the names that start with [o] or [O]
    followed by [n] or [N], whatever comes after - [onclick] and [ONLOAD],
    and also [on], [once] or [on-x]. *)
Theorem on_attribute_test_is_a_prefix_test (name : string) :
  Regex.test_anchored attrsStartedFromOn name = on_prefix name.
Proof.
  unfold Regex.test_anchored, Regex.match_here, attrsStartedFromOn, on_prefix.
  destruct name as [|c1 [|c2 rest]]; simpl.
  - done.
  - rewrite ScriptFacts.lower_is_o. by destruct (_ || _).
  - rewrite ScriptFacts.lower_is_o, ScriptFacts.lower_is_n.
    destruct (Ascii.eqb c1 "o" || Ascii.eqb c1 "O"); [|done].
    destruct (Ascii.eqb c2 "n" || Ascii.eqb c2 "N"); [|done]. simpl.
    by destruct (ScriptFacts.star_some JsString.is_word rest) as [r ->].
Qed.

(** ** The pattern of [addAttrs] *)

Module RegexFacts.
Import Regex.

Lemma length_app (a b : string) :
  String.length (a ++ b) = (String.length a + String.length b)%nat.
Proof. induction a as [|c a IH]; [done|]. simpl. by rewrite IH. Qed.

Lemma take_length (a r : string) : take (String.length a) (a ++ r) = a.
Proof.
  unfold take. induction a as [|c a IH]; simpl.
  - by destruct r.
  - by rewrite IH.
Qed.

Lemma take_matched (a r : string) :
  take (String.length (a ++ r) - String.length r) (a ++ r) = a.
Proof.
  rewrite length_app.
  replace (String.length a + String.length r - String.length r)%nat
    with (String.length a) by lia.
  apply take_length.
Qed.

Lemma every_app p (a b : string) : every p (a ++ b) = every p a && every p b.
Proof. induction a as [|c a IH]; [done|]. simpl. by rewrite IH, andb_assoc. Qed.

Lemma every_weaken (p q : ascii -> bool) s :
  (forall c, p c = true -> q c = true) -> every p s = true -> every q s = true.
Proof.
  intros Hpq. induction s as [|c s IH]; [done|]. simpl.
  intros [Hc Hs]%andb_true_iff. by rewrite (Hpq c Hc), IH.
Qed.

Lemma app_assoc_string (a b c : string) : ((a ++ b) ++ c = a ++ (b ++ c))%string.
Proof.
  induction a as [|x a IH]; [done|].
  change (String x ((a ++ b) ++ c) = String x (a ++ b ++ c))%string.
  by rewrite IH.
Qed.

Lemma star_inv p k s r :
  star p k s = Some r ->
  exists pre mid, s = (pre ++ mid)%string /\ every p pre = true /\ k mid = Some r.
Proof.
  induction s as [|c s IH]; simpl.
  - intros Hk. by exists EmptyString, EmptyString.
  - destruct (p c) eqn:Hc.
    + destruct (star p k s) as [r'|] eqn:Hs.
      * intros [= ->]. destruct (IH eq_refl) as (pre & mid & -> & Hpre & Hk).
        exists (String c pre), mid. simpl. by rewrite Hc, Hpre.
      * intros Hk. by exists EmptyString, (String c s).
    + intros Hk. by exists EmptyString, (String c s).
Qed.

Lemma plus_inv p k s r :
  run (Plus p) k s = Some r ->
  exists pre mid,
    s = (pre ++ mid)%string /\ every p pre = true /\ pre <> EmptyString
    /\ k mid = Some r.
Proof.
  destruct s as [|c s]; simpl; [done|]. destruct (p c) eqn:Hc; [|done].
  intros (pre & mid & -> & Hpre & Hk)%star_inv.
  exists (String c pre), mid. simpl. by rewrite Hc, Hpre.
Qed.

Lemma space_is_attr_char c : JsString.is_space c = true -> attr_char c = true.
Proof. unfold attr_char. intros ->. by rewrite !orb_true_r. Qed.

(** A match of the pattern is a run of class characters, a colon and
    another run of class characters, both runs non-empty. *)
Lemma match_here_attr s rest :
  match_here attrsWithoutExtraSymbols s = Some rest ->
  exists name value,
    s = (name ++ String ":" value ++ rest)%string
    /\ every attr_char name = true /\ name <> EmptyString
    /\ every attr_char value = true /\ value <> EmptyString.
Proof.
  unfold match_here, attrsWithoutExtraSymbols.
  change (run (Seq ?a ?b) ?k) with (run a (run b k)).
  intros (name & mid & -> & Hname & Hne & Hmid)%plus_inv.
  change (run (Seq ?a ?b) ?k) with (run a (run b k)) in Hmid.
  destruct mid as [|c mid]; [discriminate Hmid|].
  change (run (Class ?p) ?k (String c mid))
    with (if p c then k mid else None) in Hmid.
  destruct (Ascii.eqb_spec ":" c) as [<-|]; [|discriminate Hmid].
  change (run (Seq ?a ?b) ?k) with (run a (run b k)) in Hmid.
  change (run (Star ?p) ?k ?s) with (star p k s) in Hmid.
  apply star_inv in Hmid as (sp & mid2 & -> & Hsp & Hmid2).
  apply plus_inv in Hmid2 as (val & rest' & -> & Hval & Hvne & [= Hr]); subst rest'.
  exists name, (sp ++ val)%string. split; [|split; [done|split; [done|split]]].
  - f_equal.
    change (String ":" (sp ++ val) ++ rest)%string
      with (String ":" ((sp ++ val) ++ rest))%string.
    by rewrite app_assoc_string.
  - rewrite every_app, Hval, andb_true_r.
    eapply every_weaken; [apply space_is_attr_char|done].
  - destruct sp; [done|done].
Qed.

(** Every piece [match] returns has that shape. *)
Lemma scan_attr s skip piece :
  piece ∈ scan attrsWithoutExtraSymbols s skip ->
  exists name value,
    piece = (name ++ String ":" value)%string
    /\ every attr_char name = true /\ name <> EmptyString
    /\ every attr_char value = true /\ value <> EmptyString.
Proof.
  revert skip. induction s as [|c s IH]; intros skip.
  - simpl. destruct skip; [|by intros ?%elem_of_nil].
    destruct (match_here attrsWithoutExtraSymbols "") eqn:Hm;
      [|by intros ?%elem_of_nil].
    apply match_here_attr in Hm as (name & value & Hs & _). by destruct name.
  - cbn [scan]. destruct skip as [|k]; [|apply IH].
    destruct (match_here attrsWithoutExtraSymbols (String c s)) as [rest|] eqn:Hm;
      [|apply IH].
    intros [->|Hin]%elem_of_cons; [|by eapply IH].
    apply match_here_attr in Hm as (name & value & Hs & Hn & Hnne & Hv & Hvne).
    exists name, value. split; [|done].
    rewrite Hs.
    replace (name ++ String ":" value ++ rest)%string
      with ((name ++ String ":" value) ++ rest)%string.
    + apply take_matched.
    + rewrite app_assoc_string. done.
Qed.

Lemma colon_is_no_attr_char : attr_char ":" = false.
Proof. reflexivity. Qed.

Lemma split_whole sep s :
  JsString.existsb (Ascii.eqb sep) s = false -> JsString.split sep s = [s].
Proof.
  induction s as [|c s IH]; [done|]. simpl.
  intros [Hc Hs]%orb_false_iff. rewrite Ascii.eqb_sym, Hc. by rewrite IH.
Qed.

Lemma split_at sep (a b : string) :
  JsString.existsb (Ascii.eqb sep) a = false ->
  JsString.split sep (a ++ String sep b) = a :: JsString.split sep b.
Proof.
  induction a as [|c a IH]; simpl.
  - by rewrite Ascii.eqb_refl.
  - intros [Hc Ha]%orb_false_iff. rewrite Ascii.eqb_sym, Hc. by rewrite IH.
Qed.

Lemma every_excludes p sep s :
  p sep = false -> every p s = true -> JsString.existsb (Ascii.eqb sep) s = false.
Proof.
  intros Hsep. induction s as [|c s IH]; [done|]. simpl.
  intros [Hc Hs]%andb_true_iff. rewrite IH by done.
  destruct (Ascii.eqb_spec sep c) as [->|]; [congruence|done].
Qed.

(** Every piece of a successful [match] splits at its one colon. *)
Lemma match_all_pieces s pieces piece :
  match_all attrsWithoutExtraSymbols s = Some pieces ->
  piece ∈ pieces ->
  exists name value,
    JsString.split ":" piece = [name; value]
    /\ piece = (name ++ String ":" value)%string
    /\ every attr_char name = true /\ name <> EmptyString
    /\ every attr_char value = true /\ value <> EmptyString.
Proof.
  unfold match_all.
  destruct (scan attrsWithoutExtraSymbols s 0) as [|p l] eqn:Hscan; [done|].
  intros [= <-] Hin. rewrite <- Hscan in Hin.
  apply scan_attr in Hin as (name & value & -> & Hn & Hnne & Hv & Hvne).
  exists name, value. split; [|done].
  rewrite split_at
    by (eapply every_excludes; [apply colon_is_no_attr_char|done]).
  by rewrite split_whole
    by (eapply every_excludes; [apply colon_is_no_attr_char|done]).
Qed.

Lemma match_all_empty : match_all attrsWithoutExtraSymbols "" = None.
Proof. reflexivity. Qed.

End RegexFacts.

(** Every piece the pattern of [addAttrs] finds has exactly one colon,
    with a non-empty run of class characters on either side: splitting
    it at the colon always gives two parts, so [attrValue] is never
    [undefined] and [attrValue.trim()] never fails. *)
Theorem addAttrs_pieces_have_a_name_and_a_value
    (addAttrs : string) (pieces : list string) (piece : string) :
  Regex.match_all attrsWithoutExtraSymbols addAttrs = Some pieces ->
  piece ∈ pieces ->
  exists name value,
    JsString.split ":" piece = [name; value]
    /\ piece = (name ++ String ":" value)%string
    /\ every attr_char name = true /\ name <> EmptyString
    /\ every attr_char value = true /\ value <> EmptyString.
Proof. apply RegexFacts.match_all_pieces. Qed.

Lemma addAttrs_pieces_have_a_name_and_a_value_witness :
  Regex.match_all attrsWithoutExtraSymbols "data-x: 1, data-y: 2"
  = Some ["data-x: 1"; " data-y: 2"]
  /\ " data-y: 2" ∈ ["data-x: 1"; " data-y: 2"]
  /\ exists name value, JsString.split ":" " data-y: 2" = [name; value].
Proof.
  assert (Hm : Regex.match_all attrsWithoutExtraSymbols "data-x: 1, data-y: 2"
               = Some ["data-x: 1"; " data-y: 2"]) by (vm_compute; reflexivity).
  assert (Hin : " data-y: 2" ∈ ["data-x: 1"; " data-y: 2"]).
  { apply (bool_decide_unpack _). vm_compute. exact I. }
  split; [exact Hm|]. split; [exact Hin|].
  destruct (addAttrs_pieces_have_a_name_and_a_value _ _ _ Hm Hin)
    as (name & value & Hsplit & _).
  by exists name, value.
Defined.

(** ** The loop of [addAttrs] *)

Module AddAttrsFacts.
Import Dom Sanitizer.

(** A loop whose every step succeeds and acts on the attributes alone. *)
Lemma forEach_fold {A} (f : A -> M St unit)
    (g : gmap string string -> A -> gmap string string) j t cs l :
  forall a,
    (forall x a', x ∈ l ->
       f x (Some (Elem j t a' cs)) = (Normal tt, Some (Elem j t (g a' x) cs))) ->
    forEach l f (Some (Elem j t a cs))
    = (Normal tt, Some (Elem j t (fold_left g l a) cs)).
Proof.
  induction l as [|x l IH]; intros a Hstep; [done|].
  cbn [forEach]. rewrite PipelineFacts.bind_run, Hstep by (apply elem_of_cons; by left).
  apply IH. intros y a' Hy. apply Hstep. apply elem_of_cons; by right.
Qed.

(** A loop that fails at one element keeps what the earlier ones did. *)
Lemma forEach_stops {A} (f : A -> M St unit)
    (g : gmap string string -> A -> gmap string string) j t cs good bad rest e :
  forall a,
    (forall x a', x ∈ good ->
       f x (Some (Elem j t a' cs)) = (Normal tt, Some (Elem j t (g a' x) cs))) ->
    (forall a', f bad (Some (Elem j t a' cs)) = (Throw e, Some (Elem j t a' cs))) ->
    forEach (good ++ bad :: rest)%list f (Some (Elem j t a cs))
    = (Throw e, Some (Elem j t (fold_left g good a) cs)).
Proof.
  induction good as [|x good IH]; intros a Hstep Hbad.
  - cbn [app forEach fold_left]. by rewrite PipelineFacts.bind_run, Hbad.
  - cbn [app forEach fold_left]. rewrite PipelineFacts.bind_run, Hstep by (apply elem_of_cons; by left).
    apply IH; [|done]. intros y a' Hy. apply Hstep. apply elem_of_cons; by right.
Qed.

Lemma pair_of_split piece name value :
  JsString.split ":" piece = [name; value] ->
  pair_of piece = (JsString.trim name, JsString.trim value).
Proof. unfold pair_of. by intros ->. Qed.

Lemma nonempty_of_match s pieces :
  Regex.match_all attrsWithoutExtraSymbols s = Some pieces ->
  JsString.nonempty s = true.
Proof. destruct s; [by rewrite RegexFacts.match_all_empty|done]. Qed.

End AddAttrsFacts.

(** When every matched piece has a name that [setAttribute] accepts,
    [addAttrs] sets one attribute per piece, in the order of the list
    (a later piece with the same name wins), and leaves the root's tag
    and children as they were. *)
Theorem addAttrs_sets_one_attribute_per_piece
    (imageEl : Placeholder) (addAttrs : string) (pieces : list string)
    (j : nat) (t : string) (a : gmap string string) (cs : list node) :
  dataset imageEl !! "addAttrs" = Some addAttrs ->
  Regex.match_all attrsWithoutExtraSymbols addAttrs = Some pieces ->
  Forall (fun piece => Dom.valid_attribute_name (pair_of piece).1 = true) pieces ->
  Sanitizer.addAttrs imageEl (Some (Elem j t a cs))
  = (Normal tt, Some (Elem j t (set_pairs pieces a) cs)).
Proof.
  intros Hds Hm Hvalid. unfold Sanitizer.addAttrs.
  rewrite Hds, (AddAttrsFacts.nonempty_of_match _ _ Hm), Hm. cbn [when].
  unfold set_pairs. apply AddAttrsFacts.forEach_fold.
  intros piece a' Hin.
  destruct (RegexFacts.match_all_pieces _ _ _ Hm Hin) as (name & value & Hsplit & _).
  rewrite List.Forall_forall in Hvalid.
  assert (Hv := Hvalid piece (proj1 (list_elem_of_In _ _) Hin)).
  rewrite (AddAttrsFacts.pair_of_split _ _ _ Hsplit) in Hv |- *. simpl in Hv.
  rewrite Hsplit. cbn [fst snd].
  unfold Sanitizer.svg_setAttribute, Sanitizer.member, bind, Dom.setAttribute.
  by rewrite Hv.
Qed.

Lemma addAttrs_sets_one_attribute_per_piece_witness :
  dataset (Samples.img {[ "addAttrs" := "data-x: 1, data-y: 2" ]}) !! "addAttrs"
  = Some "data-x: 1, data-y: 2"
  /\ Regex.match_all attrsWithoutExtraSymbols "data-x: 1, data-y: 2"
     = Some ["data-x: 1"; " data-y: 2"]
  /\ Forall (fun piece => Dom.valid_attribute_name (pair_of piece).1 = true)
       ["data-x: 1"; " data-y: 2"]
  /\ Sanitizer.addAttrs (Samples.img {[ "addAttrs" := "data-x: 1, data-y: 2" ]})
       (Some (Elem 1 "svg" {[ "data-x" := "0" ]} []))
     = (Normal tt,
        Some (Elem 1 "svg"
                (set_pairs ["data-x: 1"; " data-y: 2"] {[ "data-x" := "0" ]}) [])).
Proof.
  assert (H1 : dataset (Samples.img {[ "addAttrs" := "data-x: 1, data-y: 2" ]})
               !! "addAttrs" = Some "data-x: 1, data-y: 2")
    by (vm_compute; reflexivity).
  assert (H2 : Regex.match_all attrsWithoutExtraSymbols "data-x: 1, data-y: 2"
               = Some ["data-x: 1"; " data-y: 2"]) by (vm_compute; reflexivity).
  assert (H3 : Forall (fun piece => Dom.valid_attribute_name (pair_of piece).1 = true)
                 ["data-x: 1"; " data-y: 2"]).
  { repeat (apply List.Forall_cons; [vm_compute; reflexivity|]). apply List.Forall_nil. }
  split; [exact H1|]. split; [exact H2|]. split; [exact H3|].
  exact (addAttrs_sets_one_attribute_per_piece
           (Samples.img {[ "addAttrs" := "data-x: 1, data-y: 2" ]})
           "data-x: 1, data-y: 2" ["data-x: 1"; " data-y: 2"]
           1%nat "svg" {[ "data-x" := "0" ]} [] H1 H2 H3).
Defined.

(** When a matched piece has a name that [setAttribute] refuses (empty
    after trimming, or with white space inside), [addAttrs] throws
    [InvalidCharacterError] there: the pieces before it have been set,
    the pieces after it are never reached. *)
Theorem addAttrs_stops_at_the_first_refused_name
    (imageEl : Placeholder) (addAttrs : string) (good : list string)
    (bad : string) (rest : list string)
    (j : nat) (t : string) (a : gmap string string) (cs : list node) :
  dataset imageEl !! "addAttrs" = Some addAttrs ->
  Regex.match_all attrsWithoutExtraSymbols addAttrs = Some (good ++ bad :: rest)%list ->
  Forall (fun piece => Dom.valid_attribute_name (pair_of piece).1 = true) good ->
  Dom.valid_attribute_name (pair_of bad).1 = false ->
  Sanitizer.addAttrs imageEl (Some (Elem j t a cs))
  = (Throw (DOMException "InvalidCharacterError"),
     Some (Elem j t (set_pairs good a) cs)).
Proof.
  intros Hds Hm Hvalid Hbad. unfold Sanitizer.addAttrs.
  rewrite Hds, (AddAttrsFacts.nonempty_of_match _ _ Hm), Hm. cbn [when].
  unfold set_pairs. apply AddAttrsFacts.forEach_stops.
  - intros piece a' Hin.
    assert (Hin' : piece ∈ (good ++ bad :: rest)%list)
      by (apply elem_of_app; by left).
    destruct (RegexFacts.match_all_pieces _ _ _ Hm Hin')
      as (name & value & Hsplit & _).
    rewrite List.Forall_forall in Hvalid.
    assert (Hv := Hvalid piece (proj1 (list_elem_of_In _ _) Hin)).
    rewrite (AddAttrsFacts.pair_of_split _ _ _ Hsplit) in Hv |- *. simpl in Hv.
    rewrite Hsplit. cbn [fst snd].
    unfold Sanitizer.svg_setAttribute, Sanitizer.member, bind, Dom.setAttribute.
    by rewrite Hv.
  - intros a'.
    assert (Hin' : bad ∈ (good ++ bad :: rest)%list)
      by (apply elem_of_app; right; apply elem_of_cons; by left).
    destruct (RegexFacts.match_all_pieces _ _ _ Hm Hin')
      as (name & value & Hsplit & _).
    rewrite (AddAttrsFacts.pair_of_split _ _ _ Hsplit) in Hbad. simpl in Hbad.
    rewrite Hsplit.
    unfold Sanitizer.svg_setAttribute, Sanitizer.member, bind, Dom.setAttribute.
    by rewrite Hbad.
Qed.

Lemma addAttrs_stops_at_the_first_refused_name_witness :
  dataset (Samples.img {[ "addAttrs" := "x: 1, a b: 2, y: 3" ]}) !! "addAttrs"
  = Some "x: 1, a b: 2, y: 3"
  /\ Regex.match_all attrsWithoutExtraSymbols "x: 1, a b: 2, y: 3"
     = Some (["x: 1"] ++ " a b: 2" :: [" y: 3"])%list
  /\ Forall (fun piece => Dom.valid_attribute_name (pair_of piece).1 = true) ["x: 1"]
  /\ Dom.valid_attribute_name (pair_of " a b: 2").1 = false
  /\ Sanitizer.addAttrs (Samples.img {[ "addAttrs" := "x: 1, a b: 2, y: 3" ]})
       (Some (Elem 1 "svg" ∅ []))
     = (Throw (DOMException "InvalidCharacterError"),
        Some (Elem 1 "svg" (set_pairs ["x: 1"] ∅) [])).
Proof.
  assert (H1 : dataset (Samples.img {[ "addAttrs" := "x: 1, a b: 2, y: 3" ]})
               !! "addAttrs" = Some "x: 1, a b: 2, y: 3")
    by (vm_compute; reflexivity).
  assert (H2 : Regex.match_all attrsWithoutExtraSymbols "x: 1, a b: 2, y: 3"
               = Some (["x: 1"] ++ " a b: 2" :: [" y: 3"])%list)
    by (vm_compute; reflexivity).
  assert (H3 : Forall (fun piece => Dom.valid_attribute_name (pair_of piece).1 = true)
                 ["x: 1"]).
  { repeat (apply List.Forall_cons; [vm_compute; reflexivity|]). apply List.Forall_nil. }
  assert (H4 : Dom.valid_attribute_name (pair_of " a b: 2").1 = false)
    by (vm_compute; reflexivity).
  split; [exact H1|]. split; [exact H2|]. split; [exact H3|]. split; [exact H4|].
  exact (addAttrs_stops_at_the_first_refused_name
           (Samples.img {[ "addAttrs" := "x: 1, a b: 2, y: 3" ]})
           "x: 1, a b: 2, y: 3" ["x: 1"] " a b: 2" [" y: 3"]
           1%nat "svg" ∅ [] H1 H2 H3 H4).
Defined.

(** ** Which elements a construction observes *)

Module DiscoveryFacts.

Lemma flat_map_singleton {A B} (f : A -> B) (l : list A) :
  flat_map (fun x => [f x]) l = map f l.
Proof. induction l as [|x l IH]; [done|]. simpl. by rewrite IH. Qed.

Lemma init_B_all {E} (qsa : string -> list E) this :
  VariantB.init qsa this = qsa ("." ++ VariantB.selector this).
Proof.
  unfold VariantB.init, VariantB.addInlineSvgObserver.
  destruct (qsa ("." ++ VariantB.selector this)) as [|el els] eqn:Hq; [done|].
  cbn [List.length Nat.eqb].
  rewrite (flat_map_singleton (fun x => x)). apply map_id.
Qed.

Lemma new_A_by_name {E} (qsa : string -> list E) name options :
  VariantA.new qsa (Some (inl name)) options
  = map (fun el => (el, VariantA.fields options)) (qsa ("." ++ name)).
Proof.
  unfold VariantA.new, VariantA.checkBeforeInit. cbv beta iota zeta delta [default from_option id].
  induction (qsa ("." ++ name)) as [|el els IH]; [reflexivity|].
  cbn [flat_map map]. rewrite IH.
  unfold VariantA.new_for_element, VariantA.init, VariantA.addInlineSvgObserver.
  by destruct options.
Qed.

End DiscoveryFacts.

(** Called with a class name (or with none, which stands for
    [js-lazy-inline-svg]), the two variants set up observers for the
    same elements, in document order: the elements of that class.  Each
    observer of the single-element variant belongs to a loader with the
    options and the threshold of the one loader of the selector variant. *)
Theorem both_variants_observe_the_elements_of_the_class
    {E : Type} (document_querySelectorAll : string -> list E)
    (name : option string) (options : option (gmap string string)) :
  map fst (VariantA.new document_querySelectorAll (inl <$> name) options)
  = document_querySelectorAll ("." ++ default "js-lazy-inline-svg" name)
  /\ (VariantB.new document_querySelectorAll name options).2
     = document_querySelectorAll ("." ++ default "js-lazy-inline-svg" name)
  /\ Forall (fun p =>
               VariantA.options p.2
               = VariantB.options (VariantB.new document_querySelectorAll name options).1
               /\ VariantA.observerOptions p.2
                  = VariantB.observerOptions
                      (VariantB.new document_querySelectorAll name options).1)
       (VariantA.new document_querySelectorAll (inl <$> name) options).
Proof.
  assert (HA : VariantA.new document_querySelectorAll (inl <$> name) options
               = map (fun el => (el, VariantA.fields options))
                   (document_querySelectorAll
                      ("." ++ default "js-lazy-inline-svg" name))).
  { destruct name as [name|]; apply DiscoveryFacts.new_A_by_name. }
  rewrite HA. split; [|split].
  - rewrite map_map. apply map_id.
  - unfold VariantB.new. cbn [snd]. by rewrite DiscoveryFacts.init_B_all.
  - apply List.Forall_forall. intros p (el & <- & _)%in_map_iff. done.
Qed.


(** ** The four steps act on one element *)

Module ShellFacts.
Import Dom Sanitizer.

Global Instance same_element_preorder : PreOrder same_element.
Proof.
  split.
  - intros [[j t a cs|d]|]; simpl; done.
  - intros [[j1 t1 a1 cs1|d1]|] [[j2 t2 a2 cs2|d2]|] [[j3 t3 a3 cs3|d3]|];
      simpl; try done; intuition congruence.
Qed.

Lemma member_same name : respects same_element (member name).
Proof. intros [n|] r s' [= <- <-]; reflexivity. Qed.

Lemma svg_removeAttribute_same name :
  respects same_element (svg_removeAttribute name).
Proof.
  intros [[j t a cs|d]|] r s'; unfold svg_removeAttribute, member, bind, modify;
    simpl; intros [= <- <-]; done.
Qed.

Lemma svg_setAttribute_same name value :
  respects same_element (svg_setAttribute name value).
Proof.
  intros [[j t a cs|d]|] r s';
    unfold svg_setAttribute, member, bind, modify, throw, setAttribute; simpl;
    destruct (valid_attribute_name name); simpl; intros [= <- <-]; done.
Qed.

Lemma script_remove_same script : respects same_element (script_remove script).
Proof.
  intros [[j t a cs|d]|] r s'; unfold script_remove, modify;
    destruct (node_id script); simpl; intros [= <- <-]; done.
Qed.

Lemma removeAttrs_same imageEl : respects same_element (removeAttrs imageEl).
Proof.
  unfold removeAttrs. destruct (dataset imageEl !! "removeAttrs");
    [|apply respects_ret; apply _].
  apply respects_when; [apply _|]. apply respects_forEach; [apply _|].
  intros attr. apply svg_removeAttribute_same.
Qed.

Lemma removeScripts_same imageEl : respects same_element (removeScripts imageEl).
Proof.
  unfold removeScripts. apply respects_when; [apply _|].
  apply respects_bind; [apply _|apply member_same|]. intros svg.
  apply respects_bind; [apply _| |].
  - apply respects_forEach; [apply _|]. apply script_remove_same.
  - intros _. apply respects_forEach; [apply _|]. intros attr.
    apply respects_when; [apply _|]. apply svg_removeAttribute_same.
Qed.

Lemma addAttrs_same imageEl : respects same_element (addAttrs imageEl).
Proof.
  unfold addAttrs. destruct (dataset imageEl !! "addAttrs") as [s|];
    [|apply respects_ret; apply _].
  apply respects_when; [apply _|].
  destruct (Regex.match_all attrsWithoutExtraSymbols s) as [pieces|];
    [|apply respects_throw; apply _].
  apply respects_forEach; [apply _|]. intros attr. cbv zeta.
  apply respects_bind; [apply _|apply member_same|]. intros _.
  destruct (JsString.split ":" attr) as [|n [|v rest]];
    try (apply respects_throw; apply _).
  apply svg_setAttribute_same.
Qed.

Lemma setSvgSize_same imageEl : respects same_element (setSvgSize imageEl).
Proof.
  unfold setSvgSize. apply respects_when; [apply _|].
  apply respects_bind; [apply _|apply svg_setAttribute_same|]. intros _.
  apply svg_setAttribute_same.
Qed.

Lemma same_element_Elem j t a cs svg' :
  same_element (Some (Elem j t a cs)) svg' ->
  exists a' cs', svg' = Some (Elem j t a' cs').
Proof.
  destruct svg' as [[j' t' a' cs'|d]|]; simpl; try done.
  intros [-> ->]. by exists a', cs'.
Qed.

End ShellFacts.

(** The size is set last.  When the four steps run to the end on an
    element and the size flag is set, the result is that same element
    (same identity and tag) and its [width] and [height] are the
    placeholder's, printed as strings: neither a [width] listed in
    [removeAttrs] nor one given in [addAttrs] survives. *)
Theorem svg_size_overrides_the_other_steps
    (imageEl : Placeholder) (j : nat) (t : string)
    (a : gmap string string) (cs : list node) (svg' : option node) :
  truthy (dataset imageEl !! "setSvgSize") = true ->
  sanitize imageEl (Some (Elem j t a cs)) = (Normal tt, svg') ->
  exists a' cs',
    svg' = Some (Elem j t a' cs')
    /\ a' !! "width" = Some (Sanitizer.size_to_string (width imageEl))
    /\ a' !! "height" = Some (Sanitizer.size_to_string (height imageEl)).
Proof.
  intros Hflag. unfold sanitize. rewrite !PipelineFacts.bind_run.
  destruct (Sanitizer.removeAttrs imageEl (Some (Elem j t a cs)))
    as [[[]|e1] s1] eqn:H1; [|done].
  apply ShellFacts.removeAttrs_same, ShellFacts.same_element_Elem in H1
    as (a1 & cs1 & ->).
  rewrite !PipelineFacts.bind_run.
  destruct (Sanitizer.removeScripts imageEl (Some (Elem j t a1 cs1)))
    as [[[]|e2] s2] eqn:H2; [|done].
  apply ShellFacts.removeScripts_same, ShellFacts.same_element_Elem in H2
    as (a2 & cs2 & ->).
  rewrite !PipelineFacts.bind_run.
  destruct (Sanitizer.addAttrs imageEl (Some (Elem j t a2 cs2)))
    as [[[]|e3] s3] eqn:H3; [|done].
  apply ShellFacts.addAttrs_same, ShellFacts.same_element_Elem in H3
    as (a3 & cs3 & ->).
  rewrite FlagFacts.setSvgSize_enabled by done. intros [= <-].
  eexists _, _. split; [reflexivity|]. split.
  - rewrite lookup_insert_ne by done. by rewrite lookup_insert_eq.
  - by rewrite lookup_insert_eq.
Qed.

Lemma svg_size_overrides_the_other_steps_witness :
  truthy (dataset (Samples.img {[ "setSvgSize" := "1"; "addAttrs" := "width: 7";
                                  "removeAttrs" := "height" ]}) !! "setSvgSize") = true
  /\ sanitize (Samples.img {[ "setSvgSize" := "1"; "addAttrs" := "width: 7";
                              "removeAttrs" := "height" ]})
       (Some (Elem 1 "svg" {[ "height" := "5" ]} []))
     = (Normal tt, Some (Elem 1 "svg" {[ "width" := "64"; "height" := "32" ]} []))
  /\ exists a' cs',
       Some (Elem 1 "svg" {[ "width" := "64"; "height" := "32" ]} [])
       = Some (Elem 1 "svg" a' cs')
       /\ a' !! "width" = Some "64" /\ a' !! "height" = Some "32".
Proof.
  assert (H1 : truthy (dataset (Samples.img {[ "setSvgSize" := "1";
                                                "addAttrs" := "width: 7";
                                                "removeAttrs" := "height" ]})
                         !! "setSvgSize") = true) by (vm_compute; reflexivity).
  assert (H2 : sanitize (Samples.img {[ "setSvgSize" := "1"; "addAttrs" := "width: 7";
                                        "removeAttrs" := "height" ]})
                 (Some (Elem 1 "svg" {[ "height" := "5" ]} []))
               = (Normal tt,
                  Some (Elem 1 "svg" {[ "width" := "64"; "height" := "32" ]} [])))
    by (vm_compute; reflexivity).
  split; [exact H1|]. split; [exact H2|].
  destruct (svg_size_overrides_the_other_steps _ _ _ _ _ _ H1 H2)
    as (a' & cs' & Heq & Hw & Hh).
  exists a', cs'. split; [exact Heq|]. split; [exact Hw|exact Hh].
Defined.
